(** * ResTracker: offline-first synchronisation and caching

    A shallow embedding of the programs of the repository that hold the
    offline logic, and of the proxy they talk to:

    - [Tracker]: the React component of [src/ResolutionTracker.jsx]
      (state, the closures its handlers capture, the storage mirror, the
      pending-update queue and its replay); [Creation] adds the add dialog
      and the statistics of the same component;
    - [ServiceWorker]: [public/service-worker.js] (cache generations,
      request routing, the three caching strategies, background sync);
      [Traffic] runs its listeners over sequences of requests;
    - [Proxy]: the serverless function [api/notion/resolutions.js]
      (validation, the mappings between records and Notion properties, the
      relay of Notion's answers).

    Numbers that the component counts with ([current], [target], [streak])
    are integral JS numbers and are modelled in [Z]; the only place where the
    source divides is [getProgress], whose result is modelled by [JsNum]
    (exact rationals extended with the two infinities and NaN). *)

From Stdlib Require Import ZArith QArith Qminmax String Ascii List Bool Lia.
From stdpp Require Import gmap strings list pretty.
Import ListNotations.

Local Open Scope string_scope.
Local Open Scope Z_scope.

(** ** JavaScript values shared by both programs *)

(** The empty string, JS [''] . *)
Definition empty_str : string := EmptyString.

(** JS truthiness of a string: only [''] is falsy. *)
Definition str_truthy (s : string) : bool :=
  match s with
  | EmptyString => false
  | String _ _ => true
  end.

(** JS truthiness of a value that is [null] or a string. *)
Definition opt_str_truthy (o : option string) : bool :=
  match o with
  | None => false
  | Some s => str_truthy s
  end.

(** [String.prototype.startsWith]: [starts_with s p] is [s.startsWith(p)]. *)
Definition starts_with (s p : string) : bool := String.prefix p s.

(** [String.prototype.includes]: [includes s p] is [s.includes(p)]. *)
Fixpoint includes (s p : string) : bool :=
  String.prefix p s ||
  match s with
  | EmptyString => false
  | String _ s' => includes s' p
  end.

(** [s.endsWith(p)], the meaning of a regular expression [p$]. *)
Definition ends_with (s p : string) : bool :=
  let ls := String.length s in
  let lp := String.length p in
  (lp <=? ls)%nat && String.eqb (String.substring (ls - lp)%nat lp s) p.

(** A parsed JSON document, as [response.json()] yields it. *)
#[warnings="-register-all"]
Inductive Json : Type :=
| JNull
| JBool (b : bool)
| JNum (z : Z)
| JStr (s : string)
| JArr (items : list Json)
| JObj (fields : list (string * Json)).

(** JS truthiness of a parsed JSON value. *)
Definition json_truthy (j : Json) : bool :=
  match j with
  | JNull => false
  | JBool b => b
  | JNum z => negb (z =? 0)
  | JStr s => str_truthy s
  | JArr _ => true
  | JObj _ => true
  end.

(** The result of a JS division and the arithmetic that follows it. *)
Inductive JsNum : Type :=
| Fin (q : Q)
| PosInf
| NegInf
| NaN.

(** [a / b] on integral JS numbers. *)
Definition js_div (a b : Z) : JsNum :=
  if b =? 0 then
    if 0 <? a then PosInf else if a <? 0 then NegInf else NaN
  else Fin (inject_Z a / inject_Z b)%Q.

(** [x * k] for a positive finite constant [k]. *)
Definition js_mul_pos (x : JsNum) (k : Q) : JsNum :=
  match x with
  | Fin q => Fin (q * k)%Q
  | other => other
  end.

(** [Math.min(x, k)] for a finite constant [k]. *)
Definition js_min (x : JsNum) (k : Q) : JsNum :=
  match x with
  | Fin q => Fin (Qmin q k)
  | PosInf => Fin k
  | NegInf => NegInf
  | NaN => NaN
  end.



(** * The React component, [src/ResolutionTracker.jsx] *)

Module Tracker.

(** ** Data model *)

(** A goal record, with the fields of the objects in [getDemoData]. *)
Module Resolution.
Record t : Type := mk {
  id : string;
  title : string;
  category : string;
  target : Z;
  current : Z;
  unit : string;
  frequency : string;
  streak : Z;
  lastCheckin : string;
  notionPageId : option string
}.

(** [{ ...r, current: c, lastCheckin: d }] *)
Definition with_progress (r : t) (c : Z) (d : string) : t :=
  mk (id r) (title r) (category r) (target r) c (unit r) (frequency r)
     (streak r) d (notionPageId r).
End Resolution.

(** The [updates] object of a progress mutation:
    [{ current: newCurrent, lastCheckin: today }]. *)
Module Updates.
Record t : Type := mk { current : Z; lastCheckin : string }.
End Updates.

(** An element of the [pendingUpdates] queue. *)
Module PendingUpdate.
Record t : Type := mk { pageId : string; updates : Updates.t; timestamp : Z }.
End PendingUpdate.

(** The five values [syncStatus] takes. *)
Inductive SyncStatus : Type := Synced | Syncing | Offline | Error | Demo.

(** The [useState] cells of the component that the sync logic reads or
    writes. *)
Record State : Type := mkState {
  resolutions : list Resolution.t;
  isLoading : bool;
  isSyncing : bool;
  syncStatus : SyncStatus;
  selectedResolution : option Resolution.t;
  isOnline : bool;
  pendingUpdates : list PendingUpdate.t
}.

(** What one render of the component freezes into the functions it
    creates: [fetchResolutions], [syncPendingUpdates] and [updateProgress]
    read these through their closure, not through the live state. *)
Record Closure : Type := mkClosure {
  cl_resolutions : list Resolution.t;
  cl_selectedResolution : option Resolution.t;
  cl_isOnline : bool;
  cl_pendingUpdates : list PendingUpdate.t
}.

Definition render (s : State) : Closure :=
  mkClosure (resolutions s) (selectedResolution s) (isOnline s) (pendingUpdates s).

(** ** The outside world: network, local storage *)

(** How a [fetch] ends: the promise rejects, or it resolves to a response
    with its [ok] flag and its body ([None]: a body that is not JSON, on
    which [response.json()] throws). *)
Inductive FetchOutcome (B : Type) : Type :=
| NetworkError
| HttpResponse (ok : bool) (body : option B).
Arguments NetworkError {B}.
Arguments HttpResponse {B} ok body.

(** The requests [notionService] sends. *)
Inductive RemoteCall : Type :=
| ListCall
| PatchCall (pageId : string) (updates : Updates.t).

(** A value kept under a [localStorage] key; [JSON.stringify] and
    [JSON.parse] are taken as inverse of each other. *)
Inductive Stored : Type :=
| StoredResolutions (l : list Resolution.t)
| StoredPendingUpdates (l : list PendingUpdate.t).

(** The environment of a run: what the [n]-th request of the session is
    answered (PATCH and GET answers are typed apart), and whether
    [localStorage.setItem] throws (quota exceeded, storage disabled). *)
Record Env : Type := mkEnv {
  patch_outcome : nat -> FetchOutcome Json;
  list_outcome : nat -> FetchOutcome (list Resolution.t);
  setItem_throws : bool
}.

Record World : Type := mkWorld {
  env : Env;
  state : State;
  localStorage : gmap string Stored;
  calls : list RemoteCall
}.

(** ** A state monad over [World] *)

Record M (A : Type) : Type := mkM { run : World -> A * World }.
Arguments mkM {A} run.
Arguments run {A} m w.

Definition ret {A : Type} (a : A) : M A := mkM (fun w => (a, w)).

Definition bind {A B : Type} (m : M A) (k : A -> M B) : M B :=
  mkM (fun w => run (k (fst (run m w))) (snd (run m w))).

#[global] Instance M_ret : MRet M := @ret.
#[global] Instance M_bind : MBind M := fun A B k m => bind m k.

(** The world a computation leaves behind. *)
Definition exec {A : Type} (m : M A) (w : World) : World := snd (run m w).

Definition skip : M Datatypes.unit := ret tt.

Definition modify_state (f : State -> State) : M Datatypes.unit :=
  mkM (fun w => (tt, mkWorld (env w) (f (state w)) (localStorage w) (calls w))).

Definition read_state : M State := mkM (fun w => (state w, w)).

(** ** [notionService] *)

(** A request leaves: it is logged, and the environment answers it by its
    rank in the session. *)
Definition send (c : RemoteCall) : M nat :=
  mkM (fun w => (length (calls w),
                 mkWorld (env w) (state w) (localStorage w) (calls w ++ [c])%list)).

Definition read_env : M Env := mkM (fun w => (env w, w)).

(** What the [try] block of a [notionService] method returns: the parsed
    body of a response whose [ok] is true, [null] in every other case. *)
Definition json_or_null {B : Type} (o : FetchOutcome B) : option B :=
  match o with
  | NetworkError => None
  | HttpResponse ok body => if ok then body else None
  end.

(** [notionService.fetchResolutions()] *)
Definition notion_fetchResolutions : M (option (list Resolution.t)) :=
  n ← send ListCall;
  e ← read_env;
  ret (json_or_null (list_outcome e n)).

(** [notionService.updateResolution(pageId, updates)] *)
Definition notion_updateResolution (pageId : string) (updates : Updates.t)
  : M (option Json) :=
  n ← send (PatchCall pageId updates);
  e ← read_env;
  ret (json_or_null (patch_outcome e n)).

(** Truthiness of what [updateResolution] returned. *)
Definition result_truthy (result : option Json) : bool :=
  match result with
  | None => false
  | Some j => json_truthy j
  end.

(** ** [storage] *)

(** [storage.get(key)] *)
Definition storage_get (key : string) : M (option Stored) :=
  mkM (fun w => (localStorage w !! key, w)).

(** [storage.set(key, value)]: an exception of [setItem] is caught and
    logged, the store is then left as it was. *)
Definition storage_set (key : string) (value : Stored) : M Datatypes.unit :=
  mkM (fun w =>
    (tt, mkWorld (env w) (state w)
                 (if setItem_throws (env w) then localStorage w
                  else <[key := value]> (localStorage w))
                 (calls w))).

Definition stored_resolutions (o : option Stored) : option (list Resolution.t) :=
  match o with
  | Some (StoredResolutions l) => Some l
  | _ => None
  end.

Definition stored_pendingUpdates (o : option Stored) : option (list PendingUpdate.t) :=
  match o with
  | Some (StoredPendingUpdates l) => Some l
  | _ => None
  end.

(** ** State setters and the two mirroring effects *)

(** [useEffect(() => { if (resolutions.length > 0) storage.set(...) },
    [resolutions])] *)
Definition save_resolutions_effect : M Datatypes.unit :=
  s ← read_state;
  if (0 <? length (resolutions s))%nat
  then storage_set "resolutions" (StoredResolutions (resolutions s))
  else skip.

(** [useEffect(() => { storage.set('pendingUpdates', pendingUpdates) },
    [pendingUpdates])] *)
Definition save_pendingUpdates_effect : M Datatypes.unit :=
  s ← read_state;
  storage_set "pendingUpdates" (StoredPendingUpdates (pendingUpdates s)).

(** [setResolutions]: the state cell changes and the render that follows
    runs the effect that depends on it. *)
Definition setResolutions (f : list Resolution.t -> list Resolution.t) : M Datatypes.unit :=
  modify_state (fun s =>
    mkState (f (resolutions s)) (isLoading s) (isSyncing s) (syncStatus s)
            (selectedResolution s) (isOnline s) (pendingUpdates s));;
  save_resolutions_effect.

Definition setPendingUpdates (f : list PendingUpdate.t -> list PendingUpdate.t)
  : M Datatypes.unit :=
  modify_state (fun s =>
    mkState (resolutions s) (isLoading s) (isSyncing s) (syncStatus s)
            (selectedResolution s) (isOnline s) (f (pendingUpdates s)));;
  save_pendingUpdates_effect.

Definition setIsLoading (b : bool) : M Datatypes.unit :=
  modify_state (fun s =>
    mkState (resolutions s) b (isSyncing s) (syncStatus s)
            (selectedResolution s) (isOnline s) (pendingUpdates s)).

Definition setIsSyncing (b : bool) : M Datatypes.unit :=
  modify_state (fun s =>
    mkState (resolutions s) (isLoading s) b (syncStatus s)
            (selectedResolution s) (isOnline s) (pendingUpdates s)).

Definition setSyncStatus (st : SyncStatus) : M Datatypes.unit :=
  modify_state (fun s =>
    mkState (resolutions s) (isLoading s) (isSyncing s) st
            (selectedResolution s) (isOnline s) (pendingUpdates s)).

Definition setSelectedResolution
  (f : option Resolution.t -> option Resolution.t) : M Datatypes.unit :=
  modify_state (fun s =>
    mkState (resolutions s) (isLoading s) (isSyncing s) (syncStatus s)
            (f (selectedResolution s)) (isOnline s) (pendingUpdates s)).

Definition setIsOnline (b : bool) : M Datatypes.unit :=
  modify_state (fun s =>
    mkState (resolutions s) (isLoading s) (isSyncing s) (syncStatus s)
            (selectedResolution s) b (pendingUpdates s)).

(** ** The functions of the component *)

(** [getDemoData] *)
Definition getDemoData : list Resolution.t :=
  [ Resolution.mk "demo-1" "Read 24 books" "Personal Growth" 24 3 "books"
      "yearly" 12 "2026-01-05" None;
    Resolution.mk "demo-2" "Exercise 4x per week" "Health" 4 3 "sessions"
      "weekly" 8 "2026-01-06" None;
    Resolution.mk "demo-3" "Save $10,000" "Finance" 10000 850 "dollars"
      "yearly" 7 "2026-01-01" None;
    Resolution.mk "demo-4" "Meditate daily" "Wellness" 7 7 "days"
      "weekly" 21 "2026-01-07" None;
    Resolution.mk "demo-5" "Learn Spanish" "Personal Growth" 30 12 "lessons"
      "monthly" 5 "2026-01-06" None ].

(** [getProgress]: [Math.min((current / target) * 100, 100)] *)
Definition getProgress (resolution : Resolution.t) : JsNum :=
  js_min (js_mul_pos (js_div (Resolution.current resolution)
                             (Resolution.target resolution)) 100) 100.

(** [data && data.length > 0] *)
Definition non_empty_array {A : Type} (data : option (list A)) : bool :=
  match data with
  | None => false
  | Some l => (0 <? length l)%nat
  end.

(** [!cached || cached.length === 0] *)
Definition no_cached_records {A : Type} (cached : option (list A)) : bool :=
  match cached with
  | None => true
  | Some l => (length l =? 0)%nat
  end.

(** [fetchResolutions], as created by the render [cl]. *)
Definition fetchResolutions (cl : Closure) : M Datatypes.unit :=
  setIsLoading true;;
  if negb (cl_isOnline cl) then
    setIsLoading false;;
    setSyncStatus Offline
  else
    setSyncStatus Syncing;;
    data ← notion_fetchResolutions;
    (if non_empty_array data then
       setResolutions (fun _ => default [] data);;
       setSyncStatus Synced
     else
       cached ← storage_get "resolutions";
       if no_cached_records (stored_resolutions cached) then
         setResolutions (fun _ => getDemoData);;
         setSyncStatus Demo
       else
         setSyncStatus Offline);;
    setIsLoading false.

(** The [for (const update of pendingUpdates)] loop of
    [syncPendingUpdates]; [failed] is the array it pushes to. *)
Fixpoint replay (queue failed : list PendingUpdate.t) : M (list PendingUpdate.t) :=
  match queue with
  | [] => ret failed
  | update :: rest =>
      result ← notion_updateResolution (PendingUpdate.pageId update)
                                        (PendingUpdate.updates update);
      if negb (result_truthy result)
      then replay rest (failed ++ [update])%list
      else replay rest failed
  end.

(** [syncPendingUpdates], as created by the render [cl]. *)
Definition syncPendingUpdates (cl : Closure) : M Datatypes.unit :=
  if (length (cl_pendingUpdates cl) =? 0)%nat then skip
  else
    setIsSyncing true;;
    setSyncStatus Syncing;;
    failed ← replay (cl_pendingUpdates cl) [];
    setPendingUpdates (fun _ => failed);;
    setIsSyncing false;;
    setSyncStatus (if (0 <? length failed)%nat then Error else Synced);;
    if (length failed =? 0)%nat then fetchResolutions cl else skip.

(** [resolutions.find(r => r.id === id)] *)
Definition find_resolution (rs : list Resolution.t) (id : string)
  : option Resolution.t :=
  List.find (fun r => String.eqb (Resolution.id r) id) rs.

(** The updater passed to [setResolutions] by [updateProgress]. *)
Definition progress_updater (id : string) (newCurrent : Z) (today : string)
  (prev : list Resolution.t) : list Resolution.t :=
  map (fun r =>
         if String.eqb (Resolution.id r) id
         then Resolution.with_progress r newCurrent today
         else r) prev.

(** [selectedResolution?.id === id] *)
Definition selected_is (sel : option Resolution.t) (id : string) : bool :=
  match sel with
  | None => false
  | Some r => String.eqb (Resolution.id r) id
  end.

(** [updateProgress(id, increment)], as created by the render [cl];
    [today] is the calendar day and [now] is [Date.now()] at the call. The
    updaters given to [setResolutions], [setSelectedResolution] and
    [setPendingUpdates] apply to the live state; [resolution] and [isOnline]
    are those of the render. The updater of [setSelectedResolution] runs only
    when a record is selected. *)
Definition updateProgress (cl : Closure) (id : string) (increment : Z)
  (today : string) (now : Z) : M Datatypes.unit :=
  match find_resolution (cl_resolutions cl) id with
  | None => skip
  | Some resolution =>
      let newCurrent := Z.max 0 (Resolution.current resolution + increment) in
      setResolutions (progress_updater id newCurrent today);;
      (if selected_is (cl_selectedResolution cl) id
       then setSelectedResolution
              (fmap (fun prev => Resolution.with_progress prev newCurrent today))
       else skip);;
      if opt_str_truthy (Resolution.notionPageId resolution) then
        let pageId := default empty_str (Resolution.notionPageId resolution) in
        let updates := Updates.mk newCurrent today in
        if cl_isOnline cl then
          setSyncStatus Syncing;;
          result ← notion_updateResolution pageId updates;
          setSyncStatus (if result_truthy result then Synced else Error)
        else
          setPendingUpdates (fun prev => (prev ++ [PendingUpdate.mk pageId updates now])%list);;
          setSyncStatus Offline
      else skip
  end.

(** [handleOnline] and [handleOffline]. They are created inside an effect
    whose dependency array is empty, so the ones that stay registered on
    [window] are those of the first render: [syncPendingUpdates] is the one of
    that render. *)
Definition handleOnline (first : Closure) : M Datatypes.unit :=
  setIsOnline true;;
  syncPendingUpdates first.

Definition handleOffline : M Datatypes.unit :=
  setIsOnline false;;
  setSyncStatus Offline.

(** ** The mounted component and its events *)

Record App : Type := mkApp {
  first_render : Closure;
  world : World
}.

(** The initial state: the lazy initialisers of [useState]. *)
Definition initial_state (ls : gmap string Stored) (navigator_onLine : bool) : State :=
  mkState (default [] (stored_resolutions (ls !! "resolutions")))
          true false Offline None navigator_onLine
          (default [] (stored_pendingUpdates (ls !! "pendingUpdates"))).

(** Mounting: the first render, then its effects. The two mirroring effects
    write before the request of [fetchResolutions] is answered, and what
    [fetchResolutions] does before its request touches neither. *)
Definition mount (e : Env) (ls : gmap string Stored) (navigator_onLine : bool) : App :=
  let s0 := initial_state ls navigator_onLine in
  let first := render s0 in
  mkApp first
        (exec (save_resolutions_effect;;
               save_pendingUpdates_effect;;
               fetchResolutions first)
              (mkWorld e s0 ls [])).

(** What happens to a mounted component. Buttons call the functions of the
    current render ([updateProgress] is memoised on [resolutions],
    [selectedResolution] and [isOnline], the three cells it reads);
    the [window] listeners call those of the first one. A handler runs to its
    end before the next event is taken: the events of a run are not
    interleaved with the awaits of a handler. *)
Inductive Event : Type :=
| ProgressClick (id : string) (increment : Z) (today : string) (now : Z)
| RefreshClick
| WindowOnline
| WindowOffline.

Definition step (a : App) (ev : Event) : App :=
  let now_cl := render (state (world a)) in
  mkApp (first_render a)
        (exec (match ev with
               | ProgressClick id increment today now =>
                   updateProgress now_cl id increment today now
               | RefreshClick => fetchResolutions now_cl
               | WindowOnline => handleOnline (first_render a)
               | WindowOffline => handleOffline
               end)
              (world a)).

Definition steps (a : App) (evs : list Event) : App := fold_left step evs a.

(** ** Observations on a run *)

(** A remote call fails: the fetch rejects, or the status is not a
    success. *)
Definition call_fails {B : Type} (o : FetchOutcome B) : Prop :=
  o = NetworkError \/ exists body, o = HttpResponse false body.

(** An answer the proxy of the repository can give: each of its branches
    ends in [res.status(...).json({...})], so the body of a response is a JSON
    object. *)
Definition proxy_answer (o : FetchOutcome Json) : Prop :=
  match o with
  | NetworkError => True
  | HttpResponse _ body => exists fields, body = Some (JObj fields)
  end.

(** The events under which a component that shows local-only records
    stays local: progress clicks and the loss of connectivity. *)
Definition local_event (ev : Event) : Prop :=
  match ev with
  | ProgressClick _ _ _ _ => True
  | WindowOffline => True
  | _ => False
  end.

Definition all_local (rs : list Resolution.t) : Prop :=
  Forall (fun r => Resolution.notionPageId r = None) rs.

(** The request a pending update is replayed as. *)
Definition patch_call (u : PendingUpdate.t) : RemoteCall :=
  PatchCall (PendingUpdate.pageId u) (PendingUpdate.updates u).

(** The [n]-th request of the session is a PATCH that
    [notionService.updateResolution] reports as failed: its result is falsy. *)
Definition replay_fails (e : Env) (n : nat) : bool :=
  negb (result_truthy (json_or_null (patch_outcome e n))).

(** The updates of [queue] whose replay fails, in the order of [queue], when
    the first of them is the request of rank [base]. *)
Definition failed_updates (e : Env) (base : nat) (queue : list PendingUpdate.t)
  : list PendingUpdate.t :=
  map snd (List.filter (fun iu => replay_fails e (fst iu))
                       (combine (seq base (length queue)) queue)).

(** Storage mirrors the state: the stored queue is the queue, and the
    stored records are the records whenever these are not empty. *)
Definition mirrored (w : World) : Prop :=
  setItem_throws (env w) = false
  /\ localStorage w !! "pendingUpdates"
     = Some (StoredPendingUpdates (pendingUpdates (state w)))
  /\ (resolutions (state w) <> [] ->
      localStorage w !! "resolutions" = Some (StoredResolutions (resolutions (state w)))).

Definition preserves {A : Type} (I : World -> Prop) (m : M A) : Prop :=
  forall w, I w -> I (exec m w).

(** ** Sample data *)

Definition sample_record : Resolution.t :=
  Resolution.mk "res-1" "Run 4x per week" "Health" 4 3 "sessions" "weekly" 2
    "2026-01-05" (Some "page-1").

Definition sample_at_zero : Resolution.t :=
  Resolution.mk "res-0" "Write daily" "Career" 7 0 "pages" "weekly" 0
    "2026-01-05" (Some "page-0").

(** Storage of a previous session: two cached records, no queue. *)
Definition sample_storage : gmap string Stored :=
  {[ "resolutions" := StoredResolutions [sample_record; sample_at_zero] ]}.

(** A proxy that accepts every PATCH and cannot list. *)
Definition env_patch_ok : Env :=
  mkEnv (fun _ => HttpResponse true (Some (JObj [("success", JBool true)])))
        (fun _ => NetworkError) false.

(** A proxy that cannot be reached. *)
Definition env_unreachable : Env :=
  mkEnv (fun _ => NetworkError) (fun _ => NetworkError) false.

(** A proxy that answers the second request of the session with status
    500 and accepts the others. *)
Definition env_second_rejected : Env :=
  mkEnv (fun n => if (n =? 1)%nat
                  then HttpResponse false (Some (JObj [("error", JStr "Failed to update in Notion")]))
                  else HttpResponse true (Some (JObj [("success", JBool true)])))
        (fun _ => NetworkError) false.

(** A proxy that lists no record. *)
Definition env_empty_list : Env :=
  mkEnv (fun _ => NetworkError) (fun _ => HttpResponse true (Some [])) false.

(** An online component that shows the two sample records. *)
Definition online_world (e : Env) : World :=
  mkWorld e (mkState [sample_record; sample_at_zero] false false Synced None true [])
          sample_storage [].

Definition sample_update (c : Z) (t : Z) : PendingUpdate.t :=
  PendingUpdate.mk "page-1" (Updates.mk c "2026-02-01") t.

(** A session: the component mounts offline over two cached records and no
    stored queue, the first record is incremented twice, connectivity
    returns. *)
Definition reconnect_run : App :=
  steps (mount env_patch_ok sample_storage false)
        [ ProgressClick "res-1" 1 "2026-02-01" 1000;
          ProgressClick "res-1" 1 "2026-02-01" 2000;
          WindowOnline ].

End Tracker.

(** * The service worker, [public/service-worker.js] *)

Module ServiceWorker.

Definition CACHE_NAME : string := "resolution-tracker-v1".
Definition STATIC_CACHE : string := "static-v1".
Definition DYNAMIC_CACHE : string := "dynamic-v1".

(** Assets cached on install. *)
Definition STATIC_ASSETS : list string :=
  [ "/";
    "/index.html";
    "/manifest.json";
    "/styles.css";
    "/app.js";
    "/icons/icon-192.png";
    "/icons/icon-512.png";
    "https://fonts.googleapis.com/css2?family=Inter:wght@400;500;600;700;800&display=swap" ].

(** API endpoints served network-first. *)
Definition API_ENDPOINTS : list string :=
  [ "/api/resolutions";
    "/api/user" ].

(** ** Requests, responses, caches *)

(** An intercepted request: its method, its URL, the [pathname] of
    [new URL(request.url)] and its [accept] header ([None]: no header). *)
Record Request : Type := mkRequest {
  method : string;
  url : string;
  pathname : string;
  accept : option string
}.

Record Response : Type := mkResponse {
  status : Z;
  body : string;
  contentType : option string
}.

(** [response.ok] *)
Definition ok (r : Response) : bool := (200 <=? status r) && (status r <=? 299).

(** How the [fetch] of a request ends. *)
Inductive FetchResult : Type :=
| Rejected
| Resolved (response : Response).

(** A cache generation: the responses it holds, by request URL. *)
Definition Cache : Type := list (string * Response).

(** [CacheStorage]: the generations by name, in creation order. *)
Definition CacheStorage : Type := list (string * Cache).

(** [cache.match(url)] *)
Definition cache_match (c : Cache) (u : string) : option Response :=
  snd <$> List.find (fun e => String.eqb (fst e) u) c.

(** [cache.put(url, response)]: an entry of the same URL is replaced. *)
Definition cache_put (c : Cache) (u : string) (r : Response) : Cache :=
  (List.filter (fun e => negb (String.eqb (fst e) u)) c ++ [(u, r)])%list.

(** [caches.keys()] *)
Definition caches_keys (cs : CacheStorage) : list string := map fst cs.

(** The generation called [name], if there is one. *)
Definition caches_lookup (cs : CacheStorage) (name : string) : option Cache :=
  snd <$> List.find (fun g => String.eqb (fst g) name) cs.

(** [caches.match(url)]: the first generation, in creation order, that has
    an entry answers. *)
Fixpoint caches_match (cs : CacheStorage) (u : string) : option Response :=
  match cs with
  | [] => None
  | (_, c) :: rest =>
      match cache_match c u with
      | Some r => Some r
      | None => caches_match rest u
      end
  end.

(** [caches.delete(name)] *)
Definition caches_delete (cs : CacheStorage) (name : string) : CacheStorage :=
  List.filter (fun g => negb (String.eqb (fst g) name)) cs.

(** [caches.open(name)] followed by [cache.put(url, response)]: the
    generation is created when it does not exist. *)
Fixpoint caches_put (cs : CacheStorage) (name u : string) (r : Response)
  : CacheStorage :=
  match cs with
  | [] => [(name, cache_put [] u r)]
  | (n, c) :: rest =>
      if String.eqb n name then (n, cache_put c u r) :: rest
      else (n, c) :: caches_put rest name u r
  end.

(** [caches.open(name)] alone: the generation is created, empty, when it
    does not exist. *)
Definition caches_open (cs : CacheStorage) (name : string) : CacheStorage :=
  match caches_lookup cs name with
  | Some _ => cs
  | None => (cs ++ [(name, [])])%list
  end.

(** The URL a string names for the worker at [origin]: a path is resolved
    against the origin, an absolute URL stands for itself. *)
Definition absolute (origin u : string) : string :=
  if starts_with u "/" then origin +:+ u else u.

(** ** Install and activate *)

(** [cache.addAll(assets)] into the cache [c]: every asset is fetched, and
    the promise rejects ([None]) when a fetch is rejected or answered with a
    status that is not a success; nothing is stored then. *)
Fixpoint addAll (origin : string) (fetch : string -> FetchResult)
  (assets : list string) (c : Cache) : option Cache :=
  match assets with
  | [] => Some c
  | a :: rest =>
      match fetch (absolute origin a) with
      | Rejected => None
      | Resolved r =>
          if ok r then addAll origin fetch rest (cache_put c (absolute origin a) r)
          else None
      end
  end.

(** The [install] listener: [caches.open(STATIC_CACHE)] creates the static
    generation when it is missing, [cache.addAll(STATIC_ASSETS)] fills it. The
    boolean tells whether the promise given to [waitUntil] resolves. *)
Definition install (origin : string) (fetch : string -> FetchResult)
  (cs : CacheStorage) : bool * CacheStorage :=
  let cs' := match caches_lookup cs STATIC_CACHE with
             | Some _ => cs
             | None => (cs ++ [(STATIC_CACHE, [])])%list
             end in
  match addAll origin fetch STATIC_ASSETS (default [] (caches_lookup cs' STATIC_CACHE)) with
  | None => (false, cs')
  | Some c =>
      (true, map (fun g => if String.eqb (fst g) STATIC_CACHE then (fst g, c) else g) cs')
  end.

(** The [activate] listener: every generation whose name passes the filter
    is deleted. *)
Definition stale_name (name : string) : bool :=
  negb (String.eqb name STATIC_CACHE) && negb (String.eqb name DYNAMIC_CACHE).

Definition activate (cs : CacheStorage) : CacheStorage :=
  fold_left caches_delete (List.filter stale_name (caches_keys cs)) cs.

(** ** The three strategies *)

(** [request.headers.get('accept')?.includes('text/html')] *)
Definition accepts_html (request : Request) : bool :=
  match accept request with
  | None => false
  | Some a => includes a "text/html"
  end.

(** The double-quote character of a JSON text. *)
Definition dquote : string := String (ascii_of_nat 34) EmptyString.

(** [JSON.stringify({ error: 'Offline' })] *)
Definition offline_json : string :=
  "{" +:+ dquote +:+ "error" +:+ dquote +:+ ":" +:+ dquote +:+ "Offline" +:+ dquote +:+ "}".

(** A strategy answers with a response, or with [undefined] ([None]),
    and leaves the caches in a new state. *)
Definition Answer : Type := (option Response * CacheStorage)%type.

(** [cacheFirst(request)], [net] being how the [fetch] of the request ends. *)
Definition cacheFirst (request : Request) (net : FetchResult) (cs : CacheStorage)
  : Answer :=
  match caches_match cs (url request) with
  | Some cached => (Some cached, cs)
  | None =>
      match net with
      | Resolved response =>
          (Some response,
           if ok response then caches_put cs STATIC_CACHE (url request) response
           else cs)
      | Rejected => (Some (mkResponse 503 "Offline" None), cs)
      end
  end.

(** [networkFirst(request)] *)
Definition networkFirst (origin : string) (request : Request) (net : FetchResult)
  (cs : CacheStorage) : Answer :=
  match net with
  | Resolved response =>
      (Some response,
       if ok response then caches_put cs DYNAMIC_CACHE (url request) response
       else cs)
  | Rejected =>
      match caches_match cs (url request) with
      | Some cached => (Some cached, cs)
      | None =>
          if accepts_html request
          then (caches_match cs (absolute origin "/offline.html"), cs)
          else (Some (mkResponse 503 offline_json (Some "application/json")), cs)
      end
  end.

(** [staleWhileRevalidate(request)]: the answer is the cached entry when
    there is one, else what the fetch gives ([undefined] when it rejects).
    The copy for the dynamic generation is taken late: [response.clone()] is
    called inside [cache.then(...)], once [caches.open] has resolved, while
    [return response] has already given the response away. With no cached
    entry that response is the one [respondWith] received: its body is taken
    by the time the generation is open, [clone()] throws in a callback that
    nobody awaits, and the generation, opened, gets no entry. With a cached
    entry the fetched response went to nobody, and its copy is stored. *)
Definition staleWhileRevalidate (request : Request) (net : FetchResult)
  (cs : CacheStorage) : Answer :=
  let cached := caches_match cs (url request) in
  match net with
  | Rejected => (cached, cs)
  | Resolved response =>
      (Some (default response cached),
       if ok response then
         match cached with
         | Some _ => caches_put cs DYNAMIC_CACHE (url request) response
         | None => caches_open cs DYNAMIC_CACHE
         end
       else cs)
  end.

(** ** The [fetch] listener *)

Inductive Strategy : Type := CacheFirst | NetworkFirst | StaleWhileRevalidate.

(** [/\.(js|css|png|jpg|jpeg|svg|woff2?)$/] *)
Definition static_extensions : list string :=
  [ ".js"; ".css"; ".png"; ".jpg"; ".jpeg"; ".svg"; ".woff"; ".woff2" ].

Definition has_static_extension (path : string) : bool :=
  existsb (ends_with path) static_extensions.

(** The cascade of the listener: [None] when it returns without calling
    [event.respondWith]. *)
Definition select_strategy (request : Request) : option Strategy :=
  if negb (String.eqb (method request) "GET") then None
  else if existsb (fun endpoint => starts_with (pathname request) endpoint) API_ENDPOINTS
  then Some NetworkFirst
  else if existsb (String.eqb (pathname request)) STATIC_ASSETS
          || has_static_extension (pathname request)
  then Some CacheFirst
  else if accepts_html request then Some NetworkFirst
  else Some StaleWhileRevalidate.

Definition apply_strategy (s : Strategy) (origin : string) (request : Request)
  (net : FetchResult) (cs : CacheStorage) : Answer :=
  match s with
  | CacheFirst => cacheFirst request net cs
  | NetworkFirst => networkFirst origin request net cs
  | StaleWhileRevalidate => staleWhileRevalidate request net cs
  end.

(** What the listener does with a request: it leaves it to the browser, or
    it responds with the answer of a strategy. *)
Inductive Handled : Type :=
| PassedThrough
| RespondedWith (s : Strategy) (answer : option Response).

Definition fetch_listener (origin : string) (request : Request) (net : FetchResult)
  (cs : CacheStorage) : Handled * CacheStorage :=
  match select_strategy request with
  | None => (PassedThrough, cs)
  | Some s =>
      let a := apply_strategy s origin request net cs in
      (RespondedWith s (fst a), snd a)
  end.

(** ** Background sync *)

(** A record of the [pendingUpdates] object store, whose key path is [id]. *)
Module SyncRecord.
Record t : Type := mk { id : Z; payload : string }.
End SyncRecord.

(** [db.delete('pendingUpdates', key)] *)
Definition db_delete (store : list SyncRecord.t) (key : Z) : list SyncRecord.t :=
  List.filter (fun u => negb (SyncRecord.id u =? key)) store.

(** How [syncResolutions] ends: its promise resolves, or it rejects and the
    platform retries the sync later. *)
Inductive SyncEnd : Type := SyncComplete | SyncRetry.

(** The loop of [syncResolutions]: [answers n] is how the [n]-th PATCH
    ends. A rejected fetch throws and leaves the loop; a fetch that resolves,
    whatever its status, is followed by the deletion of the record. *)
Fixpoint sync_loop (pending : list SyncRecord.t) (answers : nat -> FetchResult)
  (n : nat) (store : list SyncRecord.t) : list SyncRecord.t * SyncEnd :=
  match pending with
  | [] => (store, SyncComplete)
  | update :: rest =>
      match answers n with
      | Rejected => (store, SyncRetry)
      | Resolved _ =>
          sync_loop rest answers (S n) (db_delete store (SyncRecord.id update))
      end
  end.

(** [syncResolutions()], on the object store as [db.getAll] returns it;
    [None] is a database that cannot be opened. *)
Definition syncResolutions (db : option (list SyncRecord.t))
  (answers : nat -> FetchResult) : option (list SyncRecord.t) * SyncEnd :=
  match db with
  | None => (None, SyncRetry)
  | Some store =>
      let r := sync_loop store answers 0 store in
      (Some (fst r), snd r)
  end.

(** The [sync] listener: only the tag [sync-resolutions] starts a sync. *)
Definition sync_listener (tag : string) (db : option (list SyncRecord.t))
  (answers : nat -> FetchResult) : option (option (list SyncRecord.t) * SyncEnd) :=
  if String.eqb tag "sync-resolutions" then Some (syncResolutions db answers)
  else None.

(** ** Sample data *)

Definition sample_origin : string := "https://tracker.example".

(** A network that serves every URL with status 200. *)
Definition serve_all (u : string) : FetchResult :=
  Resolved (mkResponse 200 u None).

(** The caches of a first visit: installed from nothing, then activated. *)
Definition installed_caches : CacheStorage :=
  activate (snd (install sample_origin serve_all [])).

(** A navigation to a page of the application. *)
Definition history_page : Request :=
  mkRequest "GET" "https://tracker.example/history" "/history"
            (Some "text/html,application/xhtml+xml").

(** A request under the API prefix that ends like a script and asks for
    HTML. *)
Definition api_script : Request :=
  mkRequest "GET" "https://tracker.example/api/resolutions/export.js"
            "/api/resolutions/export.js" (Some "text/html").

(** The PATCH of a progress update. *)
Definition patch_request : Request :=
  mkRequest "PATCH" "https://tracker.example/api/resolutions" "/api/resolutions"
            (Some "application/json").

(** Caches after a redeployment: two generations of older versions next
    to the current ones. *)
Definition redeployed_caches : CacheStorage :=
  [ ("static-v0", [("https://tracker.example/app.js", mkResponse 200 "old" None)]);
    (STATIC_CACHE, [("https://tracker.example/app.js", mkResponse 200 "new" None)]);
    (CACHE_NAME, [("https://tracker.example/", mkResponse 200 "shell" None)]);
    (DYNAMIC_CACHE, [("https://tracker.example/history", mkResponse 200 "page" None)]) ].

(** An object store with one queued update, and a server that answers
    every PATCH with status 500. *)
Definition queued_store : list SyncRecord.t :=
  [ SyncRecord.mk 1 "{pageId: page-1, updates: {current: 4}}" ].

Definition always_500 (n : nat) : FetchResult :=
  Resolved (mkResponse 500 "Internal Server Error" None).

End ServiceWorker.

(** * The service worker under traffic *)

Module Traffic.
Import ServiceWorker.

(** The caches after the [fetch] listener has handled, one after the other,
    the requests of [traffic], each with the way its fetch ends. *)
Definition serve (origin : string) (cs : CacheStorage)
  (traffic : list (Request * FetchResult)) : CacheStorage :=
  fold_left (fun cs' t => snd (fetch_listener origin (fst t) (snd t) cs')) traffic cs.

(** The same request handled by [staleWhileRevalidate] once per fetch
    outcome of [nets]: the answers, and the caches at the end. *)
Fixpoint revisit (request : Request) (nets : list FetchResult) (cs : CacheStorage)
  : list (option Response) * CacheStorage :=
  match nets with
  | [] => ([], cs)
  | net :: rest =>
      let a := staleWhileRevalidate request net cs in
      let r := revisit request rest (snd a) in
      (fst a :: fst r, snd r)
  end.

(** What the network alone answers: the response, or nothing. *)
Definition network_answer (net : FetchResult) : option Response :=
  match net with
  | Resolved r => Some r
  | Rejected => None
  end.

(** Every generation of the storage is one of the two current ones. *)
Definition current_only (cs : CacheStorage) : Prop :=
  forall name, In name (caches_keys cs) -> name = STATIC_CACHE \/ name = DYNAMIC_CACHE.

(** A first visit: the worker installs over an empty storage with the
    network [fetch], then activates. *)
Definition first_visit (origin : string) (fetch : string -> FetchResult)
  : bool * CacheStorage :=
  let i := install origin fetch [] in
  (fst i, activate (snd i)).

(** A page of the application that is in no cache yet, and two versions of
    it. *)
Definition report_page : Request :=
  mkRequest "GET" "https://tracker.example/report" "/report" (Some "text/html").

Definition report_data : Request :=
  mkRequest "GET" "https://tracker.example/data/report" "/data/report"
            (Some "application/json").

Definition version (n : Z) : Response :=
  mkResponse 200 (if n =? 1 then "v1" else "v2") None.

Definition server_error : Response := mkResponse 500 "Internal Server Error" None.

(** A script that is not in the manifest, and the start page. *)
Definition vendor_script : Request :=
  mkRequest "GET" "https://tracker.example/vendor.js" "/vendor.js" None.

Definition index_page : Request :=
  mkRequest "GET" "https://tracker.example/index.html" "/index.html" (Some "text/html").

(** An object store with three queued updates. *)
Definition three_queued : list SyncRecord.t :=
  [ SyncRecord.mk 1 "first"; SyncRecord.mk 2 "second"; SyncRecord.mk 3 "third" ].

(** A network on which the third PATCH of a sync is rejected. *)
Definition third_rejected (n : nat) : FetchResult :=
  if (n =? 2)%nat then Rejected else Resolved (mkResponse 200 "ok" None).

End Traffic.

(** * The rest of the component: creation, statistics *)

Module Creation.
Import Tracker.

(** The [newResolution] cell: what the form of the add dialog holds. *)
Module NewResolution.
Record t : Type := mk {
  title : string;
  category : string;
  target : Z;
  unit : string;
  frequency : string
}.
End NewResolution.

(** The two cells of the add dialog. *)
Record Modal : Type := mkModal {
  showAddModal : bool;
  newResolution : NewResolution.t
}.

(** The form as [setNewResolution] resets it. *)
Definition blank_form : NewResolution.t :=
  NewResolution.mk empty_str "Personal Growth" 1 "times" "weekly".

(** The white space [String.prototype.trim] removes, among the code units
    below 256: tab, line feed, vertical tab, form feed, carriage return, space,
    no-break space. *)
Definition is_js_space (c : ascii) : bool :=
  let n := nat_of_ascii c in
  ((9 <=? n) && (n <=? 13) || (n =? 32) || (n =? 160))%nat.

(** [!s.trim()] *)
Fixpoint js_blank (s : string) : bool :=
  match s with
  | EmptyString => true
  | String c s' => is_js_space c && js_blank s'
  end.

(** [j[key]] on a parsed JSON value ([None]: [undefined]); of two fields of
    the same name, [JSON.parse] keeps the last. *)
Definition json_field (j : Json) (key : string) : option Json :=
  match j with
  | JObj fields => snd <$> List.find (fun f => String.eqb (fst f) key) (rev fields)
  | _ => None
  end.

(** Truthiness of [result?.id]. *)
Definition has_truthy_id (result : option Json) : bool :=
  match result with
  | None => false
  | Some j =>
      match json_field j "id" with
      | Some v => json_truthy v
      | None => false
      end
  end.

(** The record [addResolution] builds: [now] is [Date.now()], [today] the
    calendar day. *)
Definition new_record (form : NewResolution.t) (now : Z) (today : string)
  : Resolution.t :=
  Resolution.mk ("local-" +:+ pretty now)
                (NewResolution.title form) (NewResolution.category form)
                (NewResolution.target form) 0 (NewResolution.unit form)
                (NewResolution.frequency form) 0 today None.

(** [addResolution], as created by the render [cl] over the dialog cells
    [modal]; [created] is how the POST of [notionService.createResolution]
    ends, when it is sent. The result is the dialog cells afterwards and the
    records that were posted. *)
Definition addResolution (cl : Closure) (modal : Modal) (now : Z) (today : string)
  (created : FetchOutcome Json) : M (Modal * list Resolution.t) :=
  if js_blank (NewResolution.title (newResolution modal)) then mret (modal, [])
  else
    let resolution := new_record (newResolution modal) now today in
    let closed := mkModal false blank_form in
    setResolutions (fun prev => (prev ++ [resolution])%list);;
    if cl_isOnline cl then
      setSyncStatus Syncing;;
      if has_truthy_id (json_or_null created) then
        fetchResolutions cl;;
        setSyncStatus Synced;;
        mret (closed, [resolution])
      else
        setSyncStatus Error;;
        mret (closed, [resolution])
    else mret (closed, []).

(** ** Statistics *)

(** [x >= k] as JS evaluates it (false on NaN). *)
Definition js_ge (x : JsNum) (k : Q) : bool :=
  match x with
  | Fin q => Qle_bool k q
  | PosInf => true
  | NegInf => false
  | NaN => false
  end.

(** [resolutions.filter(r => getProgress(r) >= 100).length] *)
Definition completedCount (rs : list Resolution.t) : nat :=
  length (List.filter (fun r => js_ge (getProgress r) 100) rs).

(** [resolutions.length > 0 ? Math.max(...resolutions.map(r => r.streak)) : 0] *)
Definition maxStreak (rs : list Resolution.t) : Z :=
  match rs with
  | [] => 0
  | r :: rest => fold_left Z.max (map Resolution.streak rest) (Resolution.streak r)
  end.

(** ** Observations *)

(** The values a counter takes under successive increments, from [c]. *)
Fixpoint running (c : Z) (increments : list Z) : list Z :=
  match increments with
  | [] => []
  | i :: rest => Z.max 0 (c + i) :: running (Z.max 0 (c + i)) rest
  end.

(** A click on a progress button of the record [id]: its increment, the
    day and the time. *)
Definition click (id : string) (c : Z * string * Z) : Event :=
  ProgressClick id (fst (fst c)) (snd (fst c)) (snd c).

(** ** Sample data *)

Definition sample_form : NewResolution.t :=
  NewResolution.mk "Call home" "Relationships" 2 "calls" "weekly".

Definition open_modal : Modal := mkModal true sample_form.

(** A proxy that creates, and lists one record. *)
Definition created_ok : FetchOutcome Json :=
  HttpResponse true (Some (JObj [("success", JBool true); ("id", JStr "page-9")])).

Definition env_lists_one : Env :=
  mkEnv (fun _ => NetworkError)
        (fun _ => HttpResponse true (Some [sample_record])) false.

(** A component in demo mode, online. *)
Definition demo_world : World :=
  mkWorld env_unreachable (mkState getDemoData false false Demo None true []) ∅ [].

(** Two updates queued by an earlier session, and the storage it left. *)
Definition stored_queue : list PendingUpdate.t :=
  [ sample_update 4 1000; sample_update 5 2000 ].

Definition storage_with_queue : gmap string Stored :=
  <["pendingUpdates" := StoredPendingUpdates stored_queue]> sample_storage.

(** A proxy that accepts every PATCH, behind a [localStorage] that
    refuses every write (quota exceeded, storage disabled). *)
Definition env_storage_full : Env :=
  mkEnv (fun _ => HttpResponse true (Some (JObj [("success", JBool true)])))
        (fun _ => NetworkError) true.

(** Two clicks on the first sample record: one up, one down. *)
Definition up_and_down : list (Z * string * Z) :=
  [ (1, "2026-02-01", 1000); (-1, "2026-02-01", 2000) ].

End Creation.

(** * The proxy, [api/notion/resolutions.js] *)

Module Proxy.

(** A field of a JSON body as the handler reads it: [undefined] (the field
    is not there), [null], or a value. *)
Inductive Field (A : Type) : Type :=
| Absent
| Null
| Val (a : A).
Arguments Absent {A}.
Arguments Null {A}.
Arguments Val {A} a.

(** JS truthiness of a string field and of a number field. *)
Definition truthy_text (f : Field string) : bool :=
  match f with
  | Val s => str_truthy s
  | _ => false
  end.

(** [f || d] on a string field. *)
Definition text_or (f : Field string) (d : string) : string :=
  match f with
  | Val s => if str_truthy s then s else d
  | _ => d
  end.

(** [f || 0] on a number field. *)
Definition number_or_0 (f : Field Z) : Z :=
  match f with
  | Val z => z
  | _ => 0
  end.

(** The [updates] object of a PATCH body. *)
Module Updates.
Record t : Type := mk {
  current : Field Z;
  lastCheckin : Field string;
  streak : Field Z;
  title : Field string;
  category : Field string;
  target : Field Z;
  unit : Field string;
  frequency : Field string
}.
End Updates.

(** [req.body.updates] as the PATCH branch reads it. Reading a field of
    [undefined] or of [null] throws ([Nullish]). Every other value gives, for
    each of the eight fields, what reading it gives ([Fields]): an object its
    fields, and a number, a string, a boolean or an array none of them, each
    read being [undefined] as on an object without fields. *)
Inductive UpdatesValue : Type :=
| Nullish
| Fields (u : Updates.t).

(** What a value without any of the fields reads as: the empty object, a
    number, a string, a boolean, an array. *)
Definition no_fields : Updates.t :=
  Updates.mk Absent Absent Absent Absent Absent Absent Absent Absent.

(** [req.body], with the fields the handler reads from it: [pageId] and
    [updates] (PATCH, DELETE), the fields of a record (POST). *)
Module Body.
Record t : Type := mk {
  pageId : Field string;
  updates : UpdatesValue;
  title : Field string;
  category : Field string;
  target : Field Z;
  current : Field Z;
  unit : Field string;
  frequency : Field string;
  streak : Field Z;
  lastCheckin : Field string
}.
End Body.

(** The [properties] object sent to Notion: each property is emitted or
    not; a number property can carry [null]. *)
Module Properties.
Record t : Type := mk {
  Resolution : option string;
  Category : option string;
  Target : option (option Z);
  CurrentProgress : option (option Z);
  Unit : option string;
  Frequency : option string;
  Streak : option (option Z);
  LastCheckin : option string
}.
End Properties.

(** The properties of a page as the optional chains of the GET branch read
    them: [properties['Resolution']?.title?.[0]?.plain_text],
    [properties['Category']?.select?.name], [properties['Target']?.number] and
    so on; [None] is [undefined] or [null] somewhere along the chain. *)
Module PageProperties.
Record t : Type := mk {
  Resolution : option string;
  Category : option string;
  Target : option Z;
  CurrentProgress : option Z;
  Unit : option string;
  Frequency : option string;
  Streak : option Z;
  LastCheckin : option string
}.
End PageProperties.

(** A page of the database; [properties] is [None] when the page object
    has none. *)
Record Page : Type := mkPage {
  page_id : string;
  properties : option PageProperties.t
}.

(** The requests the handler sends to Notion. *)
Inductive NotionRequest : Type :=
| QueryDatabase (database_id : string)
| UpdatePage (pageId : string) (props : Properties.t)
| CreatePage (database_id : string) (props : Properties.t)
| ArchivePage (pageId : string).

(** The body of an answer of Notion, as the handler reads it: not JSON
    ([response.json()] throws), the JSON [null] (reading a field of it throws),
    or a JSON value with its [results] array when it has one, its [id] when it
    has one, and the value itself. *)
Inductive NotionBody : Type :=
| NotJson
| JsonNull
| JsonValue (results : option (list Page)) (id : option string) (raw : Json).

(** How the one fetch of the handler ends. *)
Inductive NotionAnswer : Type :=
| Unreachable
| Answered (status : Z) (body : NotionBody).

(** [process.env]: the two variables, [None] when not set. *)
Record Config : Type := mkConfig {
  NOTION_API_KEY : option string;
  NOTION_DATABASE_ID : option string
}.

(** What goes with the [error] field of an error body. *)
Inductive ErrorInfo : Type :=
| NoInfo
| Message (m : string)
| Details (j : Json)
| ExceptionMessage.

(** The body the handler answers with. *)
Inductive ProxyBody : Type :=
| NoBody
| ErrorBody (error : string) (info : ErrorInfo)
| ResolutionsBody (resolutions : list Tracker.Resolution.t)
| SuccessBody (id : option string) (message : string).

Record ProxyResponse : Type := mkProxyResponse {
  status : Z;
  body : ProxyBody
}.

(** [response.ok] of a status. *)
Definition ok_status (s : Z) : bool := (200 <=? s) && (s <=? 299).

(** ** The mappings *)

(** [s || d] on what an optional chain gave. *)
Definition chain_text_or (o : option string) (d : string) : string :=
  match o with
  | Some s => if str_truthy s then s else d
  | None => d
  end.

(** The function given to [data.results.map] in the GET branch; [None]
    when it throws, which it does on a page without [properties]. *)
Definition transform (page : Page) : option Tracker.Resolution.t :=
  match properties page with
  | None => None
  | Some p =>
      Some (Tracker.Resolution.mk
              (page_id page)
              (chain_text_or (PageProperties.Resolution p) "Untitled")
              (chain_text_or (PageProperties.Category p) "Personal Growth")
              (default 0 (PageProperties.Target p))
              (default 0 (PageProperties.CurrentProgress p))
              (chain_text_or (PageProperties.Unit p) "times")
              (chain_text_or (PageProperties.Frequency p) "weekly")
              (default 0 (PageProperties.Streak p))
              (chain_text_or (PageProperties.LastCheckin p) empty_str)
              (Some (page_id page)))
  end.

(** [data.results.map(...)]: it throws when one page makes the function
    throw. *)
Fixpoint transform_all (pages : list Page) : option (list Tracker.Resolution.t) :=
  match pages with
  | [] => Some []
  | page :: rest =>
      match transform page, transform_all rest with
      | Some r, Some rs => Some (r :: rs)
      | _, _ => None
      end
  end.

(** [if (updates.x !== undefined) properties[...] = { number: updates.x }] *)
Definition number_property (f : Field Z) : option (option Z) :=
  match f with
  | Absent => None
  | Null => Some None
  | Val z => Some (Some z)
  end.

(** [if (updates.x) properties[...] = ...], for a string field. *)
Definition text_property (f : Field string) : option string :=
  match f with
  | Val s => if str_truthy s then Some s else None
  | _ => None
  end.

(** The [properties] object the PATCH branch builds. *)
Definition patch_properties (u : Updates.t) : Properties.t :=
  Properties.mk (text_property (Updates.title u))
                (text_property (Updates.category u))
                (number_property (Updates.target u))
                (number_property (Updates.current u))
                (text_property (Updates.unit u))
                (text_property (Updates.frequency u))
                (number_property (Updates.streak u))
                (text_property (Updates.lastCheckin u)).

(** The [properties] object the POST branch builds. *)
Definition create_properties (b : Body.t) : Properties.t :=
  Properties.mk (Some (text_or (Body.title b) empty_str))
                (Some (text_or (Body.category b) "Personal Growth"))
                (Some (Some (number_or_0 (Body.target b))))
                (Some (Some (number_or_0 (Body.current b))))
                (Some (text_or (Body.unit b) "times"))
                (Some (text_or (Body.frequency b) "weekly"))
                (Some (Some (number_or_0 (Body.streak b))))
                (text_property (Body.lastCheckin b)).

(** ** The handler *)

(** [!s], for an environment variable. *)
Definition unset (v : option string) : bool := negb (opt_str_truthy v).

Definition thrown : ProxyResponse :=
  mkProxyResponse 500 (ErrorBody "Internal server error" ExceptionMessage).

(** What follows the fetch in the PATCH, POST and DELETE branches: the
    status of Notion is passed on when it is not a success, and an exception
    (fetch rejected, body not JSON, field of [null]) ends in the [catch]. *)
Definition relay (notion : NotionAnswer) (failure : string)
  (success : NotionBody -> ProxyResponse) : ProxyResponse :=
  match notion with
  | Unreachable => thrown
  | Answered s b =>
      if ok_status s then success b
      else match b with
           | NotJson => thrown
           | JsonNull => mkProxyResponse s (ErrorBody failure (Details JNull))
           | JsonValue _ _ raw => mkProxyResponse s (ErrorBody failure (Details raw))
           end
  end.

(** [handler(req, res)]: the response, and the requests sent to Notion.
    [req_body] is [None] when [req.body] is [undefined] or [null], on which
    the destructuring of the PATCH, POST and DELETE branches throws. *)
Definition handler (cfg : Config) (method : string) (req_body : option Body.t)
  (notion : NotionAnswer) : ProxyResponse * list NotionRequest :=
  if String.eqb method "OPTIONS" then (mkProxyResponse 200 NoBody, [])
  else if unset (NOTION_API_KEY cfg) || unset (NOTION_DATABASE_ID cfg) then
    (mkProxyResponse 500
       (ErrorBody "Server configuration error"
                  (Message "Notion API key or Database ID not configured")), [])
  else
    let database := default empty_str (NOTION_DATABASE_ID cfg) in
    if String.eqb method "GET" then
      (relay notion "Failed to fetch from Notion"
         (fun b =>
            match b with
            | JsonValue (Some pages) _ _ =>
                match transform_all pages with
                | Some rs => mkProxyResponse 200 (ResolutionsBody rs)
                | None => thrown
                end
            | _ => thrown
            end),
       [QueryDatabase database])
    else if String.eqb method "PATCH" then
      match req_body with
      | None => (thrown, [])
      | Some b =>
          if negb (truthy_text (Body.pageId b)) then
            (mkProxyResponse 400 (ErrorBody "pageId is required" NoInfo), [])
          else
            match Body.updates b with
            | Nullish => (thrown, [])
            | Fields u =>
                (relay notion "Failed to update in Notion"
                   (fun nb =>
                      match nb with
                      | JsonValue _ id _ =>
                          mkProxyResponse 200
                            (SuccessBody id "Resolution updated successfully")
                      | _ => thrown
                      end),
                 [UpdatePage (text_or (Body.pageId b) empty_str) (patch_properties u)])
            end
      end
    else if String.eqb method "POST" then
      match req_body with
      | None => (thrown, [])
      | Some b =>
          if negb (truthy_text (Body.title b)) then
            (mkProxyResponse 400 (ErrorBody "title is required" NoInfo), [])
          else
            (relay notion "Failed to create in Notion"
               (fun nb =>
                  match nb with
                  | JsonValue _ id _ =>
                      mkProxyResponse 201
                        (SuccessBody id "Resolution created successfully")
                  | _ => thrown
                  end),
             [CreatePage database (create_properties b)])
      end
    else if String.eqb method "DELETE" then
      match req_body with
      | None => (thrown, [])
      | Some b =>
          if negb (truthy_text (Body.pageId b)) then
            (mkProxyResponse 400 (ErrorBody "pageId is required" NoInfo), [])
          else
            (relay notion "Failed to archive in Notion"
               (fun _ => mkProxyResponse 200
                           (SuccessBody None "Resolution archived successfully")),
             [ArchivePage (text_or (Body.pageId b) empty_str)])
      end
    else (mkProxyResponse 405 (ErrorBody "Method not allowed" NoInfo), []).

(** ** The two ends of the proxy *)

(** The [updates] object of the component, as the handler reads it from
    the body [JSON.stringify({ pageId, updates })]. *)
Definition updates_of (u : Tracker.Updates.t) : Updates.t :=
  Updates.mk (Val (Tracker.Updates.current u)) (Val (Tracker.Updates.lastCheckin u))
             Absent Absent Absent Absent Absent Absent.

(** The body of the PATCH that [notionService.updateResolution] sends. *)
Definition patch_body (pageId : string) (u : Tracker.Updates.t) : Body.t :=
  Body.mk (Val pageId) (Fields (updates_of u))
          Absent Absent Absent Absent Absent Absent Absent Absent.

(** The body of the POST that [notionService.createResolution] sends:
    [JSON.stringify(resolution)]. *)
Definition record_body (r : Tracker.Resolution.t) : Body.t :=
  Body.mk Absent Nullish
          (Val (Tracker.Resolution.title r)) (Val (Tracker.Resolution.category r))
          (Val (Tracker.Resolution.target r)) (Val (Tracker.Resolution.current r))
          (Val (Tracker.Resolution.unit r)) (Val (Tracker.Resolution.frequency r))
          (Val (Tracker.Resolution.streak r)) (Val (Tracker.Resolution.lastCheckin r)).

(** A record of the list the GET branch answers with, as JSON. *)
Definition record_json (r : Tracker.Resolution.t) : Json :=
  JObj [ ("id", JStr (Tracker.Resolution.id r));
         ("notionPageId", match Tracker.Resolution.notionPageId r with
                          | Some p => JStr p
                          | None => JNull
                          end);
         ("title", JStr (Tracker.Resolution.title r));
         ("category", JStr (Tracker.Resolution.category r));
         ("target", JNum (Tracker.Resolution.target r));
         ("current", JNum (Tracker.Resolution.current r));
         ("unit", JStr (Tracker.Resolution.unit r));
         ("frequency", JStr (Tracker.Resolution.frequency r));
         ("streak", JNum (Tracker.Resolution.streak r));
         ("lastCheckin", JStr (Tracker.Resolution.lastCheckin r)) ].

(** The JSON text of a body of the handler, parsed again: [res.json(...)]
    drops the fields that are [undefined]; a response without body gives
    [None]. [exn] is the message of the exception the [catch] reports. *)
Definition json_of_body (exn : string) (b : ProxyBody) : option Json :=
  match b with
  | NoBody => None
  | ErrorBody e info =>
      Some (JObj (("error", JStr e) ::
                  match info with
                  | NoInfo => []
                  | Message m => [("message", JStr m)]
                  | Details j => [("details", j)]
                  | ExceptionMessage => [("message", JStr exn)]
                  end))
  | ResolutionsBody rs => Some (JArr (map record_json rs))
  | SuccessBody id m =>
      Some (JObj (("success", JBool true) ::
                  match id with
                  | Some i => [("id", JStr i)]
                  | None => []
                  end ++ [("message", JStr m)]))
  end.

(** A response of the handler as the [fetch] of [notionService] receives
    it, for the methods that read a JSON object. *)
Definition seen (exn : string) (r : ProxyResponse) : Tracker.FetchOutcome Json :=
  Tracker.HttpResponse (ok_status (status r)) (json_of_body exn (body r)).

(** A response of the handler as [notionService.fetchResolutions]
    receives it. *)
Definition listed (r : ProxyResponse) : Tracker.FetchOutcome (list Tracker.Resolution.t) :=
  Tracker.HttpResponse (ok_status (status r))
    match body r with
    | ResolutionsBody rs => Some rs
    | _ => None
    end.

(** Notion, as far as the handler relies on it: a page gives back, under
    the optional chains of the GET branch, the values its properties were
    written with. *)
Definition written_number (o : option (option Z)) (before : option Z) : option Z :=
  match o with
  | None => before
  | Some n => n
  end.

Definition written_text (o : option string) (before : option string) : option string :=
  match o with
  | None => before
  | Some s => Some s
  end.

(** The properties of a page after [props] were written over [before]. *)
Definition write_properties (props : Properties.t) (before : PageProperties.t)
  : PageProperties.t :=
  PageProperties.mk
    (written_text (Properties.Resolution props) (PageProperties.Resolution before))
    (written_text (Properties.Category props) (PageProperties.Category before))
    (written_number (Properties.Target props) (PageProperties.Target before))
    (written_number (Properties.CurrentProgress props) (PageProperties.CurrentProgress before))
    (written_text (Properties.Unit props) (PageProperties.Unit before))
    (written_text (Properties.Frequency props) (PageProperties.Frequency before))
    (written_number (Properties.Streak props) (PageProperties.Streak before))
    (written_text (Properties.LastCheckin props) (PageProperties.LastCheckin before)).

Definition no_properties : PageProperties.t :=
  PageProperties.mk None None None None None None None None.

(** The page a [CreatePage] request makes, under the id Notion gives it. *)
Definition page_created (id : string) (props : Properties.t) : Page :=
  mkPage id (Some (write_properties props no_properties)).

(** A page after an [UpdatePage] request. *)
Definition page_updated (page : Page) (props : Properties.t) : Page :=
  mkPage (page_id page) (write_properties props <$> properties page).

(** ** Sample data *)

Definition sample_config : Config := mkConfig (Some "secret_key") (Some "database-1").

Definition sample_page : Page :=
  mkPage "page-1"
         (Some (PageProperties.mk (Some "Run 4x per week") (Some "Health") (Some 4)
                                  (Some 3) (Some "sessions") (Some "weekly") (Some 2)
                                  (Some "2026-01-05"))).

(** A page on which nothing is filled in, and a page without properties. *)
Definition bare_page : Page := mkPage "page-2" (Some no_properties).
Definition broken_page : Page := mkPage "page-3" None.

Definition notion_accepts : NotionAnswer :=
  Answered 200 (JsonValue None (Some "page-1") (JObj [("object", JStr "page")])).

Definition notion_refuses : NotionAnswer :=
  Answered 404 (JsonValue None None (JObj [("code", JStr "object_not_found")])).

(** A PATCH body whose [updates] is the number 5. *)
Definition primitive_updates_body : Body.t :=
  Body.mk (Val "page-1") (Fields no_fields)
          Absent Absent Absent Absent Absent Absent Absent Absent.

(** The first sample record after a click on +, and a component whose
    PATCH requests are answered by the handler over a Notion that accepts. *)
Definition clicked_update : Tracker.Updates.t := Tracker.Updates.mk 4 "2026-02-01".

Definition env_behind_proxy (notion : NotionAnswer) : Tracker.Env :=
  Tracker.mkEnv
    (fun _ => seen "fetch failed"
                   (fst (handler sample_config "PATCH"
                                 (Some (patch_body "page-1" clicked_update)) notion)))
    (fun _ => Tracker.NetworkError) false.

(** The record the sample form creates. *)
Definition sample_created : Tracker.Resolution.t :=
  Creation.new_record Creation.sample_form 1767225600000 "2026-01-01".

End Proxy.

(** * Properties of the component *)

Module TrackerFacts.
Import Tracker.

(** Unfolds the monadic primitives down to functions on [World]. *)
Ltac prim :=
  unfold exec, setResolutions, setPendingUpdates, setIsLoading, setIsSyncing,
    setSyncStatus, setSelectedResolution, setIsOnline, save_resolutions_effect,
    save_pendingUpdates_effect, notion_updateResolution, notion_fetchResolutions,
    storage_set, storage_get, send, read_env, read_state, modify_state, skip,
    mbind, M_bind, bind, mret, M_ret, ret in *; simpl in *.

#[local] Arguments fetchResolutions : simpl never.
#[local] Arguments syncPendingUpdates : simpl never.
#[local] Arguments updateProgress : simpl never.

(** Splits on the conditions the primitives leave, reducing as it goes. *)
Ltac mcases := repeat (case_match; simpl in *).

(** ** Local mutation *)






Lemma find_resolution_id rs id r :
  find_resolution rs id = Some r -> Resolution.id r = id.
Proof.
  unfold find_resolution. intros H. apply find_some in H as [_ H].
  by apply String.eqb_eq in H.
Qed.



Lemma progress_updater_find id c d prev r :
  find_resolution prev id = Some r ->
  find_resolution (progress_updater id c d prev) id
  = Some (Resolution.with_progress r c d).
Proof.
  unfold find_resolution, progress_updater.
  induction prev as [|x prev IH]; simpl; [discriminate|].
  destruct (String.eqb (Resolution.id x) id) eqn:E; simpl.
  - rewrite E. intros [= ->]. reflexivity.
  - rewrite E. exact IH.
Qed.

Lemma updateProgress_resolutions cl id increment today now w resolution :
  find_resolution (cl_resolutions cl) id = Some resolution ->
  resolutions (state (exec (updateProgress cl id increment today now) w))
  = progress_updater id (Z.max 0 (Resolution.current resolution + increment))
      today (resolutions (state w)).
Proof.
  intros Hf. unfold updateProgress. rewrite Hf.
  prim. mcases; reflexivity.
Qed.

Lemma updateProgress_not_found cl id increment today now w :
  find_resolution (cl_resolutions cl) id = None ->
  exec (updateProgress cl id increment today now) w = w.
Proof. intros Hf. unfold updateProgress. rewrite Hf. prim. by destruct w. Qed.


(** ** Remote propagation of a mutation *)

Lemma updateProgress_offline cl id increment today now w resolution pageId :
  find_resolution (cl_resolutions cl) id = Some resolution ->
  Resolution.notionPageId resolution = Some pageId ->
  str_truthy pageId = true ->
  cl_isOnline cl = false ->
  let updates := Updates.mk (Z.max 0 (Resolution.current resolution + increment)) today in
  let w' := exec (updateProgress cl id increment today now) w in
  calls w' = calls w
  /\ pendingUpdates (state w')
     = (pendingUpdates (state w) ++ [PendingUpdate.mk pageId updates now])%list
  /\ syncStatus (state w') = Offline.
Proof.
  intros Hf Hp Ht Ho. unfold updateProgress. rewrite Hf, Hp. simpl. rewrite Ht, Ho.
  prim. mcases; repeat split; congruence.
Qed.

Lemma updateProgress_online cl id increment today now w resolution pageId :
  find_resolution (cl_resolutions cl) id = Some resolution ->
  Resolution.notionPageId resolution = Some pageId ->
  str_truthy pageId = true ->
  cl_isOnline cl = true ->
  let updates := Updates.mk (Z.max 0 (Resolution.current resolution + increment)) today in
  let w' := exec (updateProgress cl id increment today now) w in
  calls w' = (calls w ++ [PatchCall pageId updates])%list
  /\ pendingUpdates (state w') = pendingUpdates (state w)
  /\ syncStatus (state w')
     = if result_truthy (json_or_null (patch_outcome (env w) (length (calls w))))
       then Synced else Error.
Proof.
  intros Hf Hp Ht Ho. unfold updateProgress. rewrite Hf, Hp. simpl. rewrite Ht, Ho.
  prim. mcases; repeat split; congruence.
Qed.

(** A mutation touches neither the loading flags nor the connectivity
    flag. *)
Lemma updateProgress_flags cl id increment today now w :
  let w' := exec (updateProgress cl id increment today now) w in
  isLoading (state w') = isLoading (state w)
  /\ isSyncing (state w') = isSyncing (state w)
  /\ isOnline (state w') = isOnline (state w)
  /\ env w' = env w.
Proof.
  unfold updateProgress. destruct (find_resolution (cl_resolutions cl) id).
  - prim. mcases; repeat split; reflexivity.
  - prim. repeat split; reflexivity.
Qed.

(** A record without a truthy remote id is mutated locally and nothing
    else: no request, no pending update. *)
Lemma updateProgress_local_only cl id increment today now w resolution :
  find_resolution (cl_resolutions cl) id = Some resolution ->
  opt_str_truthy (Resolution.notionPageId resolution) = false ->
  let w' := exec (updateProgress cl id increment today now) w in
  calls w' = calls w
  /\ pendingUpdates (state w') = pendingUpdates (state w)
  /\ syncStatus (state w') = syncStatus (state w).
Proof.
  intros Hf Hp. unfold updateProgress. rewrite Hf, Hp.
  prim. mcases; repeat split; congruence.
Qed.

Lemma call_fails_null {B : Type} (o : FetchOutcome B) :
  call_fails o -> json_or_null o = None.
Proof. intros [-> | [body ->]]; reflexivity. Qed.

(** C9, as amended. A progress mutation on a record with a remote id is
    propagated by connectivity: offline, no request is sent and one pending
    update with the mutated fields is appended to the queue; online, the
    request is sent at once and, when it fails, nothing is enqueued (the queue
    is as before) and the failure shows only in the sync status, which becomes
    [Error]. *)
Theorem C9_queued_only_when_offline :
  forall (w : World) (id : string) (increment : Z) (today : string) (now : Z)
         (resolution : Resolution.t) (pageId : string),
    find_resolution (resolutions (state w)) id = Some resolution ->
    Resolution.notionPageId resolution = Some pageId ->
    str_truthy pageId = true ->
    let updates := Updates.mk (Z.max 0 (Resolution.current resolution + increment)) today in
    let w' := exec (updateProgress (render (state w)) id increment today now) w in
    (isOnline (state w) = false ->
       calls w' = calls w
       /\ pendingUpdates (state w')
          = (pendingUpdates (state w) ++ [PendingUpdate.mk pageId updates now])%list
       /\ syncStatus (state w') = Offline)
    /\ (isOnline (state w) = true ->
        call_fails (patch_outcome (env w) (length (calls w))) ->
        calls w' = (calls w ++ [PatchCall pageId updates])%list
        /\ pendingUpdates (state w') = pendingUpdates (state w)
        /\ syncStatus (state w') = Error
        /\ isLoading (state w') = isLoading (state w)
        /\ isSyncing (state w') = isSyncing (state w)).
Proof.
  intros w id increment today now resolution pageId Hf Hp Ht updates w'. split.
  - intros Ho. by apply updateProgress_offline.
  - intros Ho Hfail.
    destruct (updateProgress_online (render (state w)) id increment today now w
                resolution pageId Hf Hp Ht Ho) as (Hc & Hq & Hs).
    rewrite (call_fails_null _ Hfail) in Hs. simpl in Hs.
    repeat split; try assumption;
      apply (updateProgress_flags (render (state w)) id increment today now w).
Qed.

(** ** Startup fetch and demo data *)

Lemma non_empty_array_false {A : Type} (data : option (list A)) :
  data = Some [] \/ data = None -> non_empty_array data = false.
Proof. intros [-> | ->]; reflexivity. Qed.

Lemma fetchResolutions_demo cl w :
  cl_isOnline cl = true ->
  non_empty_array (json_or_null (list_outcome (env w) (length (calls w)))) = false ->
  no_cached_records (stored_resolutions (localStorage w !! "resolutions")) = true ->
  let w' := exec (fetchResolutions cl) w in
  state w' = mkState getDemoData false (isSyncing (state w)) Demo
                     (selectedResolution (state w)) (isOnline (state w))
                     (pendingUpdates (state w))
  /\ calls w' = (calls w ++ [ListCall])%list
  /\ env w' = env w.
Proof.
  intros Ho Hd Hc. unfold fetchResolutions. rewrite Ho. prim.
  rewrite Hd. simpl. rewrite Hc. simpl. repeat split; reflexivity.
Qed.

Lemma getDemoData_all_local : all_local getDemoData.
Proof. unfold all_local, getDemoData. repeat constructor. Qed.

Lemma progress_updater_all_local id c d prev :
  all_local prev -> all_local (progress_updater id c d prev).
Proof.
  unfold all_local, progress_updater.
  induction 1 as [|r prev Hr _ IH]; simpl; constructor; [|exact IH].
  by destruct (String.eqb (Resolution.id r) id).
Qed.

Lemma find_resolution_In rs id r : find_resolution rs id = Some r -> In r rs.
Proof. unfold find_resolution. intros H. by apply find_some in H as [H _]. Qed.

Lemma step_local_event a ev :
  local_event ev ->
  all_local (resolutions (state (world a))) ->
  all_local (resolutions (state (world (step a ev))))
  /\ calls (world (step a ev)) = calls (world a)
  /\ pendingUpdates (state (world (step a ev))) = pendingUpdates (state (world a)).
Proof.
  intros Hev Hloc. destruct ev as [id inc today now| | |]; simpl in Hev; try contradiction.
  - unfold step. simpl.
    destruct (find_resolution (resolutions (state (world a))) id) as [r|] eqn:Hf.
    + assert (Hp : opt_str_truthy (Resolution.notionPageId r) = false).
      { apply find_resolution_In in Hf.
        unfold all_local in Hloc. rewrite Forall_forall in Hloc.
        rewrite (Hloc r); [reflexivity|]. by apply list_elem_of_In. }
      destruct (updateProgress_local_only (render (state (world a))) id inc today now
                  (world a) r Hf Hp) as (Hc & Hq & _).
      split; [|split; assumption].
      rewrite (updateProgress_resolutions (render (state (world a))) id inc today now
                 (world a) r Hf).
      by apply progress_updater_all_local.
    + rewrite updateProgress_not_found by exact Hf. done.
  - unfold step, handleOffline. prim. done.
Qed.

Lemma steps_local_events evs : forall a,
  Forall local_event evs ->
  all_local (resolutions (state (world a))) ->
  all_local (resolutions (state (world (steps a evs))))
  /\ calls (world (steps a evs)) = calls (world a)
  /\ pendingUpdates (state (world (steps a evs))) = pendingUpdates (state (world a)).
Proof.
  induction evs as [|ev evs IH]; intros a Hevs Hloc; [done|].
  apply Forall_cons in Hevs as [Hev Hevs].
  destruct (step_local_event a ev Hev Hloc) as (Hl & Hc & Hq).
  destruct (IH (step a ev) Hevs Hl) as (Hl' & Hc' & Hq').
  unfold steps in *. simpl. repeat split; [done| congruence | congruence].
Qed.

Lemma mount_world e ls navigator_onLine :
  world (mount e ls navigator_onLine)
  = exec (fetchResolutions (render (initial_state ls navigator_onLine)))
         (exec (save_resolutions_effect;; save_pendingUpdates_effect)
               (mkWorld e (initial_state ls navigator_onLine) ls [])).
Proof. reflexivity. Qed.

Lemma mount_demo e ls :
  non_empty_array (json_or_null (list_outcome e 0)) = false ->
  no_cached_records (stored_resolutions (ls !! "resolutions")) = true ->
  let a := mount e ls true in
  syncStatus (state (world a)) = Demo
  /\ resolutions (state (world a)) = getDemoData
  /\ calls (world a) = [ListCall]
  /\ pendingUpdates (state (world a))
     = default [] (stored_pendingUpdates (ls !! "pendingUpdates")).
Proof.
  intros Hd Hc a. unfold a. clear a. rewrite mount_world.
  set (s0 := initial_state ls true).
  set (w1 := exec (save_resolutions_effect;; save_pendingUpdates_effect)
                  (mkWorld e s0 ls [])).
  assert (Hw1 : state w1 = s0 /\ calls w1 = [] /\ env w1 = e
                /\ localStorage w1 !! "resolutions" = ls !! "resolutions").
  { subst w1. prim.
    assert ((0 <? length (default [] (stored_resolutions (ls !! "resolutions"))))%nat = false) as ->.
    { destruct (stored_resolutions (ls !! "resolutions")) as [l|]; [|reflexivity].
      simpl in *. apply Nat.eqb_eq in Hc. rewrite Hc. reflexivity. }
    simpl. repeat split; try reflexivity.
    destruct (setItem_throws e); [reflexivity|]. by rewrite lookup_insert_ne. }
  destruct Hw1 as (Hs & Hcl & He & Hl).
  destruct (fetchResolutions_demo (render s0) w1) as (Hst & Hca & _).
  - reflexivity.
  - by rewrite He, Hcl.
  - by rewrite Hl.
  - rewrite Hst, Hca, Hs, Hcl. repeat split; reflexivity.
Qed.

(** C5. When the component mounts online, the List call returns an empty
    array or fails, and storage holds no cached records, the startup fetch ends
    in status [Demo] with exactly the 5 records of [getDemoData], none of which
    has a remote id; whatever progress mutations follow, online or offline, the
    only request of the session stays the List call and the pending-update queue
    stays as it was: no placeholder is written back. *)
Theorem C5_demo_data_on_empty_startup :
  forall (e : Env) (ls : gmap string Stored) (evs : list Event),
    json_or_null (list_outcome e 0) = Some [] \/ json_or_null (list_outcome e 0) = None ->
    no_cached_records (stored_resolutions (ls !! "resolutions")) = true ->
    Forall local_event evs ->
    let a := mount e ls true in
    syncStatus (state (world a)) = Demo
    /\ resolutions (state (world a)) = getDemoData
    /\ length (resolutions (state (world a))) = 5%nat
    /\ Forall (fun r => Resolution.notionPageId r = None) (resolutions (state (world a)))
    /\ calls (world a) = [ListCall]
    /\ calls (world (steps a evs)) = [ListCall]
    /\ pendingUpdates (state (world (steps a evs))) = pendingUpdates (state (world a))
    /\ Forall (fun r => Resolution.notionPageId r = None)
              (resolutions (state (world (steps a evs)))).
Proof.
  intros e ls evs Hd Hc Hevs a.
  destruct (mount_demo e ls (non_empty_array_false _ Hd) Hc) as (Hs & Hr & Hca & _).
  fold a in Hs, Hr, Hca.
  assert (Hloc : all_local (resolutions (state (world a)))).
  { rewrite Hr. apply getDemoData_all_local. }
  destruct (steps_local_events evs a Hevs Hloc) as (Hl' & Hc' & Hq').
  rewrite Hr. repeat split; try assumption; try reflexivity.
  - apply getDemoData_all_local.
  - congruence.
Qed.

(** ** The storage mirror *)

(** C10, as amended. The effect on [resolutions] writes storage only for a
    non-empty list: setting the in-memory list to the empty list leaves
    storage as it was, and a storage that changed was given a non-empty list
    under the key [resolutions]. The effect on [pendingUpdates] has no such
    guard: every change of the queue, the change to the empty queue included,
    is written when [setItem] accepts the write, and it leaves the stored
    records alone. When [setItem] throws, [storage.set] swallows the exception
    and storage stays as it was, under either key. *)
Theorem C10_records_saved_when_non_empty_queue_always :
  forall (f : list Resolution.t -> list Resolution.t)
         (g : list PendingUpdate.t -> list PendingUpdate.t) (w : World),
    let w1 := exec (setResolutions f) w in
    let w2 := exec (setPendingUpdates g) w in
    (f (resolutions (state w)) = [] ->
       resolutions (state w1) = [] /\ localStorage w1 = localStorage w)
    /\ (localStorage w1 <> localStorage w ->
        f (resolutions (state w)) <> []
        /\ localStorage w1
           = <["resolutions" := StoredResolutions (f (resolutions (state w)))]>
               (localStorage w))
    /\ (setItem_throws (env w) = false ->
        localStorage w2 !! "pendingUpdates"
        = Some (StoredPendingUpdates (g (pendingUpdates (state w)))))
    /\ (setItem_throws (env w) = false -> g (pendingUpdates (state w)) = [] ->
        localStorage w2 !! "pendingUpdates" = Some (StoredPendingUpdates []))
    /\ localStorage w2 !! "resolutions" = localStorage w !! "resolutions"
    /\ (setItem_throws (env w) = true ->
        localStorage w1 = localStorage w /\ localStorage w2 = localStorage w
        /\ pendingUpdates (state w2) = g (pendingUpdates (state w))).
Proof.
  intros f g w w1 w2. subst w1 w2. prim.
  split; [|split; [|split; [|split; [|split]]]].
  - intros E. rewrite E. simpl. split; reflexivity.
  - intros Hch.
    destruct (f (resolutions (state w))) as [|r rs] eqn:E; simpl in *;
      [by contradiction Hch|].
    destruct (setItem_throws (env w)); [by contradiction Hch|].
    split; [discriminate|reflexivity].
  - intros ->. by rewrite lookup_insert_eq.
  - intros -> ->. by rewrite lookup_insert_eq.
  - destruct (setItem_throws (env w)); [reflexivity|]. by rewrite lookup_insert_ne.
  - intros Ht. split; [|split].
    + destruct (f (resolutions (state w))) as [|r rs]; simpl; rewrite ?Ht; reflexivity.
    + simpl. rewrite ?Ht. reflexivity.
    + reflexivity.
Qed.

(** ** Replay of the queue *)

(** Against the proxy of the repository, the replays reported as failed
    are the calls that failed. *)
Lemma replay_fails_proxy e n :
  proxy_answer (patch_outcome e n) ->
  replay_fails e n = true <-> call_fails (patch_outcome e n).
Proof.
  unfold replay_fails, proxy_answer, call_fails.
  destruct (patch_outcome e n) as [|ok body]; simpl.
  - intros _. split; [by left | reflexivity].
  - intros [fields ->]. destruct ok; simpl.
    + split; [discriminate|]. intros [H | [b H]]; discriminate H.
    + split; [|reflexivity]. intros _. right. by eexists.
Qed.

Lemma failed_updates_cons e base u queue :
  failed_updates e base (u :: queue)
  = ((if replay_fails e base then [u] else []) ++ failed_updates e (S base) queue)%list.
Proof. unfold failed_updates. simpl. by destruct (replay_fails e base). Qed.

Lemma failed_updates_sublist e queue : forall base,
  sublist (failed_updates e base queue) queue.
Proof.
  induction queue as [|u queue IH]; intros base; [constructor|].
  rewrite failed_updates_cons. destruct (replay_fails e base); simpl.
  - by apply sublist_skip.
  - by apply sublist_cons.
Qed.

Lemma failed_updates_nil_iff e queue : forall base,
  failed_updates e base queue = []
  <-> forall i, (i < length queue)%nat -> replay_fails e (base + i) = false.
Proof.
  induction queue as [|u queue IH]; intros base.
  - split; [intros _ i Hi; simpl in Hi; lia | reflexivity].
  - rewrite failed_updates_cons. split.
    + intros H i Hi. apply app_eq_nil in H as [H1 H2].
      destruct i as [|i].
      * rewrite Nat.add_0_r. by destruct (replay_fails e base).
      * replace (base + S i)%nat with (S base + i)%nat by lia.
        apply (proj1 (IH (S base)) H2). simpl in Hi. lia.
    + intros H. pose proof (H 0%nat ltac:(simpl; lia)) as H0.
      rewrite Nat.add_0_r in H0. rewrite H0. simpl.
      apply IH. intros i Hi.
      replace (S base + i)%nat with (base + S i)%nat by lia.
      apply H. simpl. lia.
Qed.

Lemma replay_run queue : forall failed w,
  run (replay queue failed) w
  = ((failed ++ failed_updates (env w) (length (calls w)) queue)%list,
     mkWorld (env w) (state w) (localStorage w)
             (calls w ++ map patch_call queue)%list).
Proof.
  induction queue as [|u queue IH]; intros failed w.
  - simpl. rewrite !app_nil_r. by destruct w.
  - rewrite failed_updates_cons. simpl.
    unfold mbind, M_bind, bind. simpl.
    fold (replay_fails (env w) (length (calls w))).
    destruct (replay_fails (env w) (length (calls w))); simpl;
      rewrite IH; simpl; rewrite length_app; simpl;
      rewrite Nat.add_1_r, <- !app_assoc; reflexivity.
Qed.

(** [fetchResolutions] sends PATCH to nobody and leaves the queue alone. *)
Lemma fetchResolutions_frame cl w :
  let w' := exec (fetchResolutions cl) w in
  pendingUpdates (state w') = pendingUpdates (state w)
  /\ isOnline (state w') = isOnline (state w)
  /\ env w' = env w
  /\ (calls w' = calls w \/ calls w' = (calls w ++ [ListCall])%list).
Proof.
  unfold fetchResolutions. prim. mcases; repeat split; auto.
Qed.

#[local] Opaque fetchResolutions.

(** What [syncPendingUpdates] leaves when the queue it holds is not empty. *)
Lemma syncPendingUpdates_run cl w :
  cl_pendingUpdates cl <> [] ->
  let queue := cl_pendingUpdates cl in
  let failed := failed_updates (env w) (length (calls w)) queue in
  let w' := exec (syncPendingUpdates cl) w in
  pendingUpdates (state w') = failed
  /\ (failed <> [] ->
      syncStatus (state w') = Error
      /\ calls w' = (calls w ++ map patch_call queue)%list
      /\ isSyncing (state w') = false
      /\ resolutions (state w') = resolutions (state w)
      /\ isOnline (state w') = isOnline (state w))
  /\ (failed = [] ->
      let w1 := mkWorld (env w)
                  (mkState (resolutions (state w)) (isLoading (state w)) false Synced
                           (selectedResolution (state w)) (isOnline (state w)) [])
                  (if setItem_throws (env w) then localStorage w
                   else <["pendingUpdates" := StoredPendingUpdates []]> (localStorage w))
                  (calls w ++ map patch_call queue)%list in
      w' = exec (fetchResolutions cl) w1).
Proof.
  intros Hne queue failed w'. subst w'. unfold syncPendingUpdates.
  destruct (length (cl_pendingUpdates cl) =? 0)%nat eqn:Hlen.
  { apply Nat.eqb_eq, length_zero_iff_nil in Hlen. by contradiction Hne. }
  unfold exec, mbind, M_bind, bind. simpl run.
  unfold setIsSyncing, setSyncStatus, modify_state. simpl run.
  rewrite replay_run. simpl fst. simpl snd. simpl env. simpl calls.
  fold queue. fold failed.
  destruct failed as [|x failed'] eqn:Hfl.
  - split; [|split; [intros H; by contradiction H|]].
    + simpl. pose proof (fetchResolutions_frame cl) as Hfr. simpl in Hfr.
      unfold exec in Hfr. rewrite (proj1 (Hfr _)). reflexivity.
    + intros _. reflexivity.
  - split; [reflexivity|]. split; [|intros H; discriminate H].
    intros _. simpl. repeat split; reflexivity.
Qed.

#[local] Transparent fetchResolutions.

(** A drain in which some replay fails. *)
Lemma syncPendingUpdates_partial_failure cl w :
  (exists i, (i < length (cl_pendingUpdates cl))%nat
             /\ replay_fails (env w) (length (calls w) + i) = true) ->
  let w' := exec (syncPendingUpdates cl) w in
  pendingUpdates (state w') = failed_updates (env w) (length (calls w)) (cl_pendingUpdates cl)
  /\ pendingUpdates (state w') <> []
  /\ syncStatus (state w') = Error
  /\ isSyncing (state w') = false
  /\ calls w' = (calls w ++ map patch_call (cl_pendingUpdates cl))%list
  /\ resolutions (state w') = resolutions (state w)
  /\ isOnline (state w') = isOnline (state w).
Proof.
  intros (i & Hi & Hfail) w'.
  assert (Hne : cl_pendingUpdates cl <> []).
  { intros E. rewrite E in Hi. simpl in Hi. lia. }
  assert (Hf : failed_updates (env w) (length (calls w)) (cl_pendingUpdates cl) <> []).
  { intros E. rewrite failed_updates_nil_iff in E.
    rewrite (E i Hi) in Hfail. discriminate. }
  destruct (syncPendingUpdates_run cl w Hne) as (Hq & Herr & _).
  fold w' in Hq, Herr.
  destruct (Herr Hf) as (Hs & Hc & Hsy & Hr & Ho).
  rewrite Hq. repeat split; assumption.
Qed.

(** One drain in which at least one replay fails (its [updateResolution]
    returns [null]) leaves as the queue exactly the updates whose replay
    failed, in their order in the drained queue; the sync status is [Error]
    whatever the number of successes; every update was sent once, in order,
    and the succeeded ones are gone from the queue. *)
Lemma one_drain_keeps_the_failed_updates :
  forall (cl : Closure) (w : World),
    let queue := cl_pendingUpdates cl in
    (exists i, (i < length queue)%nat
               /\ replay_fails (env w) (length (calls w) + i) = true) ->
    let w' := exec (syncPendingUpdates cl) w in
    pendingUpdates (state w') = failed_updates (env w) (length (calls w)) queue
    /\ sublist (pendingUpdates (state w')) queue
    /\ pendingUpdates (state w') <> []
    /\ syncStatus (state w') = Error
    /\ isSyncing (state w') = false
    /\ calls w' = (calls w ++ map patch_call queue)%list.
Proof.
  intros cl w queue Hfail w'.
  destruct (syncPendingUpdates_partial_failure cl w Hfail)
    as (Hq & Hne & Hs & Hsy & Hc & _).
  fold w' in Hq, Hne, Hs, Hsy, Hc.
  repeat split; try assumption.
  rewrite Hq. apply failed_updates_sublist.
Qed.

(** The same at the [online] event, for the queue the listener holds. *)
Lemma handleOnline_partial_failure first w :
  (exists i, (i < length (cl_pendingUpdates first))%nat
             /\ replay_fails (env w) (length (calls w) + i) = true) ->
  let w' := exec (handleOnline first) w in
  pendingUpdates (state w')
  = failed_updates (env w) (length (calls w)) (cl_pendingUpdates first)
  /\ syncStatus (state w') = Error
  /\ isOnline (state w') = true.
Proof.
  intros Hfail w'.
  destruct (syncPendingUpdates_partial_failure first (exec (setIsOnline true) w) Hfail)
    as (Hq & _ & Hs & _ & _ & _ & Ho).
  repeat split; assumption.
Qed.

(** A fully successful drain by the function of a render that holds the
    whole queue: every update is sent, in order, and the queue ends empty. *)
Lemma syncPendingUpdates_all_succeed cl w :
  cl_pendingUpdates cl <> [] ->
  (forall i, (i < length (cl_pendingUpdates cl))%nat ->
             replay_fails (env w) (length (calls w) + i) = false) ->
  let w' := exec (syncPendingUpdates cl) w in
  pendingUpdates (state w') = []
  /\ exists rest, calls w' = (calls w ++ map patch_call (cl_pendingUpdates cl) ++ rest)%list.
Proof.
  intros Hne Hall w'.
  destruct (syncPendingUpdates_run cl w Hne) as (Hq & _ & Hok).
  apply failed_updates_nil_iff in Hall. fold w' in Hq, Hok.
  split; [by rewrite Hq|].
  rewrite (Hok Hall).
  destruct (fetchResolutions_frame cl
    (mkWorld (env w)
       (mkState (resolutions (state w)) (isLoading (state w)) false Synced
                (selectedResolution (state w)) (isOnline (state w)) [])
       (if setItem_throws (env w) then localStorage w
        else <["pendingUpdates" := StoredPendingUpdates []]> (localStorage w))
       (calls w ++ map patch_call (cl_pendingUpdates cl))%list))
    as (_ & _ & _ & [Hc | Hc]); rewrite Hc; simpl.
  - exists []. by rewrite app_nil_r.
  - exists [ListCall]. by rewrite <- app_assoc.
Qed.

(** The [online] listener replays the queue of the first render. When
    that queue is empty it returns at once: the live queue, whatever it holds,
    is neither sent nor emptied. *)
Lemma handleOnline_empty_first_queue first w :
  cl_pendingUpdates first = [] ->
  let w' := exec (handleOnline first) w in
  pendingUpdates (state w') = pendingUpdates (state w)
  /\ calls w' = calls w
  /\ syncStatus (state w') = syncStatus (state w)
  /\ isOnline (state w') = true.
Proof.
  intros Hq. unfold handleOnline, syncPendingUpdates. rewrite Hq. prim.
  repeat split; reflexivity.
Qed.

(** ** Storage follows the state in every reachable world *)

Lemma preserves_bind {A B : Type} (I : World -> Prop) (m : M A) (k : A -> M B) :
  preserves I m -> (forall a, preserves I (k a)) -> preserves I (m ≫= k).
Proof. intros Hm Hk w Hw. apply (Hk (fst (run m w)) (exec m w)), Hm, Hw. Qed.

Lemma preserves_ret {A : Type} (I : World -> Prop) (a : A) : preserves I (mret a).
Proof. intros [] Hw. exact Hw. Qed.

Lemma preserves_skip (I : World -> Prop) : preserves I skip.
Proof. intros [] Hw. exact Hw. Qed.

Lemma mirrored_setResolutions f : preserves mirrored (setResolutions f).
Proof.
  intros w (Ht & Hq & Hr). unfold mirrored. prim.
  destruct (0 <? length (f (resolutions (state w))))%nat eqn:E; simpl; rewrite Ht.
  - repeat split; [by rewrite lookup_insert_ne | intros _; by rewrite lookup_insert_eq].
  - repeat split; [exact Hq|]. intros Hne.
    destruct (f (resolutions (state w))); [by contradiction Hne | discriminate E].
Qed.

Lemma mirrored_setPendingUpdates g : preserves mirrored (setPendingUpdates g).
Proof.
  intros w (Ht & Hq & Hr). unfold mirrored. prim. rewrite Ht.
  repeat split; [by rewrite lookup_insert_eq|].
  intros Hne. rewrite lookup_insert_ne by done. by apply Hr.
Qed.

Lemma mirrored_modify_flags f :
  (forall s, resolutions (f s) = resolutions s) ->
  (forall s, pendingUpdates (f s) = pendingUpdates s) ->
  preserves mirrored (modify_state f).
Proof.
  intros Hr Hq w (Ht & Hsq & Hsr). unfold mirrored. prim.
  rewrite Hr, Hq. done.
Qed.

Lemma mirrored_send c : preserves mirrored (send c).
Proof. intros w H. exact H. Qed.

Lemma mirrored_read_env : preserves mirrored read_env.
Proof. intros [] H. exact H. Qed.

Lemma mirrored_storage_get k : preserves mirrored (storage_get k).
Proof. intros [] H. exact H. Qed.

(** Takes a handler apart along its binds and its conditions. *)
Ltac pres :=
  repeat first
    [ apply preserves_skip
    | apply preserves_ret
    | apply mirrored_setResolutions
    | apply mirrored_setPendingUpdates
    | apply mirrored_send
    | apply mirrored_read_env
    | apply mirrored_storage_get
    | (apply mirrored_modify_flags; intros; reflexivity)
    | (apply preserves_bind; [|intros ?])
    | match goal with
      | |- preserves _ (if ?c then _ else _) => destruct c
      | |- preserves _ (match ?c with _ => _ end) => destruct c
      end ].

Lemma mirrored_fetchResolutions cl : preserves mirrored (fetchResolutions cl).
Proof.
  unfold fetchResolutions, notion_fetchResolutions, setIsLoading, setSyncStatus.
  pres.
Qed.

Lemma mirrored_replay queue : forall failed, preserves mirrored (replay queue failed).
Proof.
  induction queue as [|u queue IH]; intros failed; simpl.
  - apply preserves_ret.
  - unfold notion_updateResolution. pres; apply IH.
Qed.

Lemma mirrored_syncPendingUpdates cl : preserves mirrored (syncPendingUpdates cl).
Proof.
  unfold syncPendingUpdates, setIsSyncing, setSyncStatus.
  pres; try apply mirrored_replay; try apply mirrored_fetchResolutions.
Qed.

Lemma mirrored_updateProgress cl id increment today now :
  preserves mirrored (updateProgress cl id increment today now).
Proof.
  unfold updateProgress, notion_updateResolution, setSelectedResolution, setSyncStatus.
  pres.
Qed.

Lemma mirrored_step a ev : mirrored (world a) -> mirrored (world (step a ev)).
Proof.
  intros H. unfold step. cbn [world].
  destruct ev.
  - by apply mirrored_updateProgress.
  - by apply mirrored_fetchResolutions.
  - revert H. generalize (world a). change (preserves mirrored (handleOnline (first_render a))).
    unfold handleOnline, setIsOnline. pres. apply mirrored_syncPendingUpdates.
  - revert H. generalize (world a). change (preserves mirrored handleOffline).
    unfold handleOffline, setIsOnline, setSyncStatus. pres.
Qed.

Lemma mirrored_mount e ls navigator_onLine :
  setItem_throws e = false -> mirrored (world (mount e ls navigator_onLine)).
Proof.
  intros Ht. rewrite mount_world. apply mirrored_fetchResolutions.
  unfold mirrored. prim.
  destruct (0 <? length (default [] (stored_resolutions (ls !! "resolutions"))))%nat eqn:E;
    simpl; rewrite Ht; simpl.
  - repeat split; [by rewrite lookup_insert_eq|].
    intros _. rewrite lookup_insert_ne by done. by rewrite lookup_insert_eq.
  - repeat split; [by rewrite lookup_insert_eq|].
    intros Hne.
    destruct (default [] (stored_resolutions (ls !! "resolutions")));
      [by contradiction Hne | discriminate E].
Qed.

(** Whatever happens to a mounted component whose storage accepts writes,
    the stored queue is the queue in memory, the empty queue included, and the
    stored records are the records in memory whenever there are some. *)
Lemma reachable_mirrored e ls navigator_onLine evs :
  setItem_throws e = false ->
  mirrored (world (steps (mount e ls navigator_onLine) evs)).
Proof.
  intros Ht. pose proof (mirrored_mount e ls navigator_onLine Ht) as H.
  revert H. generalize (mount e ls navigator_onLine).
  induction evs as [|ev evs IH]; intros a Ha; [exact Ha|].
  apply (IH (step a ev)), mirrored_step, Ha.
Qed.

End TrackerFacts.

(** * Properties of the service worker *)

Module ServiceWorkerFacts.
Import ServiceWorker.

(** ** Lists searched and filtered *)

Lemma find_filter_kept {A : Type} (p q : A -> bool) (l : list A) :
  (forall x, p x = true -> q x = true) ->
  List.find p (List.filter q l) = List.find p l.
Proof.
  intros Hpq. induction l as [|x l IH]; simpl; [reflexivity|].
  destruct (q x) eqn:Hq; simpl.
  - destruct (p x); [reflexivity | exact IH].
  - destruct (p x) eqn:Hp; [|exact IH].
    rewrite (Hpq x Hp) in Hq. discriminate.
Qed.

Lemma find_filter_dropped {A : Type} (p q : A -> bool) (l : list A) :
  (forall x, p x = true -> q x = false) ->
  List.find p (List.filter q l) = None.
Proof.
  intros Hpq. induction l as [|x l IH]; simpl; [reflexivity|].
  destruct (q x) eqn:Hq; simpl; [|exact IH].
  destruct (p x) eqn:Hp; [|exact IH].
  rewrite (Hpq x Hp) in Hq. discriminate.
Qed.

Lemma filter_filter {A : Type} (p q : A -> bool) (l : list A) :
  List.filter p (List.filter q l) = List.filter (fun x => q x && p x) l.
Proof.
  induction l as [|x l IH]; simpl; [reflexivity|].
  destruct (q x); simpl; [|exact IH].
  destruct (p x); [by rewrite IH | exact IH].
Qed.

(** ** Activation *)

(** Deleting a list of names one by one keeps the generations that bear
    none of them. *)
Lemma delete_all names : forall cs,
  fold_left caches_delete names cs
  = List.filter (fun g => negb (existsb (String.eqb (fst g)) names)) cs.
Proof.
  induction names as [|n names IH]; intros cs; simpl.
  - induction cs as [|g cs IHcs]; simpl; [reflexivity | by rewrite <- IHcs].
  - rewrite IH. unfold caches_delete. rewrite filter_filter.
    apply filter_ext. intros g. by rewrite negb_orb.
Qed.

Lemma existsb_stale_names (cs : CacheStorage) (g : string * Cache) :
  In g cs ->
  existsb (String.eqb (fst g)) (List.filter stale_name (caches_keys cs))
  = stale_name (fst g).
Proof.
  intros Hin. destruct (stale_name (fst g)) eqn:Hs.
  - apply existsb_exists. exists (fst g). split; [|apply String.eqb_refl].
    apply filter_In. split; [|exact Hs]. unfold caches_keys. by apply in_map.
  - apply not_true_is_false. intros H.
    apply existsb_exists in H as (n & Hn & He).
    apply filter_In in Hn as [_ Hn]. apply String.eqb_eq in He. subst n. congruence.
Qed.

Lemma activate_filter (cs : CacheStorage) :
  activate cs = List.filter (fun g => negb (stale_name (fst g))) cs.
Proof.
  unfold activate. rewrite delete_all. apply filter_ext_in.
  intros g Hin. by rewrite existsb_stale_names.
Qed.

Lemma stale_name_true name :
  name <> STATIC_CACHE -> name <> DYNAMIC_CACHE -> stale_name name = true.
Proof.
  intros Hs Hd. unfold stale_name.
  apply String.eqb_neq in Hs, Hd. by rewrite Hs, Hd.
Qed.

Lemma caches_match_origin (cs : CacheStorage) u r :
  caches_match cs u = Some r ->
  exists name c, In (name, c) cs /\ cache_match c u = Some r.
Proof.
  induction cs as [|[n c] cs IH]; simpl; [discriminate|].
  destruct (cache_match c u) as [r'|] eqn:Hm.
  - intros [= ->]. exists n, c. split; [by left | exact Hm].
  - intros H. destruct (IH H) as (name & c' & Hin & Hc).
    exists name, c'. split; [by right | exact Hc].
Qed.

(** C8. After the [activate] listener has run, a generation whose name is
    neither the static nor the dynamic one no longer exists, so no entry of it
    can be matched: what [caches.match] still finds is an entry of one of the
    two current generations, and these two are as they were. *)
Theorem C8_activate_deletes_superseded_generations :
  forall (cs : CacheStorage),
    (forall name,
        name <> STATIC_CACHE -> name <> DYNAMIC_CACHE ->
        caches_lookup (activate cs) name = None
        /\ ~ In name (caches_keys (activate cs)))
    /\ (forall u r,
          caches_match (activate cs) u = Some r ->
          exists name c,
            In (name, c) cs
            /\ (name = STATIC_CACHE \/ name = DYNAMIC_CACHE)
            /\ cache_match c u = Some r)
    /\ caches_lookup (activate cs) STATIC_CACHE = caches_lookup cs STATIC_CACHE
    /\ caches_lookup (activate cs) DYNAMIC_CACHE = caches_lookup cs DYNAMIC_CACHE
    /\ activate cs = List.filter (fun g => negb (stale_name (fst g))) cs.
Proof.
  intros cs. rewrite activate_filter. split; [|split; [|split; [|split]]].
  - intros name Hs Hd. pose proof (stale_name_true name Hs Hd) as Hst. split.
    + unfold caches_lookup. rewrite find_filter_dropped; [reflexivity|].
      intros g Hg. apply String.eqb_eq in Hg. by rewrite Hg, Hst.
    + unfold caches_keys. intros Hin. apply in_map_iff in Hin as (g & Hg & Hin).
      apply filter_In in Hin as [_ Hk]. rewrite Hg, Hst in Hk. discriminate.
  - intros u r Hm. apply caches_match_origin in Hm as (name & c & Hin & Hc).
    apply filter_In in Hin as [Hin Hk]. exists name, c.
    split; [exact Hin|]. split; [|exact Hc].
    simpl in Hk. unfold stale_name in Hk.
    destruct (String.eqb name STATIC_CACHE) eqn:E1.
    + left. by apply String.eqb_eq.
    + destruct (String.eqb name DYNAMIC_CACHE) eqn:E2; [|discriminate].
      right. by apply String.eqb_eq.
  - unfold caches_lookup. rewrite find_filter_kept; [reflexivity|].
    intros g Hg. apply String.eqb_eq in Hg. by rewrite Hg.
  - unfold caches_lookup. rewrite find_filter_kept; [reflexivity|].
    intros g Hg. apply String.eqb_eq in Hg. by rewrite Hg.
  - reflexivity.
Qed.

(** ** Routing *)

Lemma select_strategy_non_get request :
  method request <> "GET" -> select_strategy request = None.
Proof.
  intros H. unfold select_strategy. apply String.eqb_neq in H. by rewrite H.
Qed.

Lemma select_strategy_api request :
  method request = "GET" ->
  (exists endpoint, In endpoint API_ENDPOINTS
                    /\ starts_with (pathname request) endpoint = true) ->
  select_strategy request = Some NetworkFirst.
Proof.
  intros Hm Hapi.
  assert (Hex : existsb (fun endpoint => starts_with (pathname request) endpoint)
                        API_ENDPOINTS = true).
  { apply existsb_exists. exact Hapi. }
  unfold select_strategy. rewrite Hm, String.eqb_refl. cbn [negb].
  by rewrite Hex.
Qed.

(** C6. A GET request whose path starts with one of [API_ENDPOINTS] is
    answered by [networkFirst], whatever the rest of the path (its extension
    included) and whatever its accept header; a request whose method is not GET
    is left to the browser: no strategy runs and the caches are unchanged. *)
Theorem C6_api_prefix_network_first_non_get_untouched :
  forall (origin : string) (request : Request) (net : FetchResult) (cs : CacheStorage),
    (method request = "GET" ->
     (exists endpoint, In endpoint API_ENDPOINTS
                       /\ starts_with (pathname request) endpoint = true) ->
     select_strategy request = Some NetworkFirst
     /\ fetch_listener origin request net cs
        = (RespondedWith NetworkFirst (fst (networkFirst origin request net cs)),
           snd (networkFirst origin request net cs)))
    /\ (method request <> "GET" ->
        select_strategy request = None
        /\ fetch_listener origin request net cs = (PassedThrough, cs)).
Proof.
  intros origin request net cs. split.
  - intros Hm Hapi. pose proof (select_strategy_api request Hm Hapi) as Hs.
    split; [exact Hs|]. unfold fetch_listener. rewrite Hs. reflexivity.
  - intros Hm. pose proof (select_strategy_non_get request Hm) as Hs.
    split; [exact Hs|]. unfold fetch_listener. rewrite Hs. reflexivity.
Qed.

(** ** Network-first without network *)

(** What [networkFirst] answers when the fetch is rejected and the request
    has no cached entry. *)
Lemma networkFirst_offline_uncached origin request cs :
  caches_match cs (url request) = None ->
  networkFirst origin request Rejected cs
  = (if accepts_html request
     then caches_match cs (absolute origin "/offline.html")
     else Some (mkResponse 503 offline_json (Some "application/json")),
     cs).
Proof.
  intros Hm. unfold networkFirst. rewrite Hm. by destruct (accepts_html request).
Qed.

(** ** The offline document *)

Lemma substring_all b : String.substring 0 (String.length b) b = b.
Proof. induction b as [|c b IH]; simpl; [reflexivity | by rewrite IH]. Qed.

Lemma substring_append a b :
  String.substring (String.length a) (String.length b) (a +:+ b) = b.
Proof. induction a as [|c a IH]; simpl; [apply substring_all | exact IH]. Qed.

Lemma length_app_string a b :
  String.length (a +:+ b) = (String.length a + String.length b)%nat.
Proof. induction a as [|c a IH]; simpl; [reflexivity | by rewrite IH]. Qed.

Lemma ends_with_append a b : ends_with (a +:+ b) b = true.
Proof.
  unfold ends_with. rewrite length_app_string.
  replace (String.length a + String.length b - String.length b)%nat
    with (String.length a) by lia.
  rewrite substring_append, String.eqb_refl.
  apply andb_true_iff. split; [apply Nat.leb_le; lia | reflexivity].
Qed.

Lemma append_cancel_l a b c : a +:+ b = a +:+ c -> b = c.
Proof. induction a as [|x a IH]; simpl; [done|]. intros [= H]. by apply IH. Qed.

Lemma cache_match_absent (c : Cache) u :
  ~ In u (map fst c) -> cache_match c u = None.
Proof.
  intros Hn. unfold cache_match.
  destruct (List.find (fun e => String.eqb (fst e) u) c) as [e|] eqn:Hf; [|reflexivity].
  apply find_some in Hf as [Hin He]. apply String.eqb_eq in He.
  exfalso. apply Hn. rewrite <- He. by apply in_map.
Qed.

Lemma cache_put_keys (c : Cache) u r k :
  In k (map fst (cache_put c u r)) -> k = u \/ In k (map fst c).
Proof.
  unfold cache_put. rewrite map_app, in_app_iff. intros [H | H].
  - right. apply in_map_iff in H as (e & He & Hin).
    apply filter_In in Hin as [Hin _]. rewrite <- He. by apply in_map.
  - left. simpl in H. by destruct H.
Qed.

Lemma addAll_keys origin fetch assets : forall c c' k,
  addAll origin fetch assets c = Some c' ->
  In k (map fst c') ->
  In k (map fst c) \/ In k (map (absolute origin) assets).
Proof.
  induction assets as [|a assets IH]; intros c c' k; simpl.
  - intros [= ->] Hk. by left.
  - destruct (fetch (absolute origin a)) as [|r]; [discriminate|].
    destruct (ok r); [|discriminate].
    intros Ha Hk. destruct (IH _ _ _ Ha Hk) as [H | H].
    + apply cache_put_keys in H as [-> | H]; [right; by left | by left].
    + right. by right.
Qed.

Lemma offline_page_not_in_manifest origin :
  ~ In (absolute origin "/offline.html") (map (absolute origin) STATIC_ASSETS).
Proof.
  unfold STATIC_ASSETS. simpl. unfold absolute. simpl.
  intros H. repeat (destruct H as [H | H]; [try (apply append_cancel_l in H; discriminate H)|]).
  - pose proof (ends_with_append origin "/offline.html") as He.
    rewrite <- H in He. vm_compute in He. discriminate He.
  - exact H.
Qed.

(** Whatever the origin and the network, the caches that [install] leaves
    from an empty storage hold no entry for [/offline.html]. *)
Lemma install_lacks_offline_page origin fetch :
  caches_match (snd (install origin fetch [])) (absolute origin "/offline.html") = None.
Proof.
  assert (E : install origin fetch []
              = match addAll origin fetch STATIC_ASSETS [] with
                | None => (false, [(STATIC_CACHE, [])])
                | Some c => (true, [(STATIC_CACHE, c)])
                end) by reflexivity.
  rewrite E. clear E.
  destruct (addAll origin fetch STATIC_ASSETS []) as [c|] eqn:Ha; [|reflexivity].
  cbn [snd caches_match].
  rewrite cache_match_absent; [reflexivity|].
  intros Hin. destruct (addAll_keys _ _ _ _ _ _ Ha Hin) as [H | H]; [exact H|].
  by apply (offline_page_not_in_manifest origin).
Qed.

(** ** Background sync *)

Lemma sync_loop_all_resolved answers pending : forall n store,
  (forall k, answers k <> Rejected) ->
  sync_loop pending answers n store
  = (List.filter (fun u => negb (existsb (Z.eqb (SyncRecord.id u))
                                         (map SyncRecord.id pending))) store,
     SyncComplete).
Proof.
  induction pending as [|p pending IH]; intros n store Hres; simpl.
  - f_equal. induction store as [|u store IHs]; simpl; [reflexivity | by rewrite <- IHs].
  - destruct (answers n) eqn:Ha; [by destruct (Hres n)|].
    rewrite IH by exact Hres. unfold db_delete. rewrite filter_filter.
    f_equal. apply filter_ext. intros u. by rewrite negb_orb.
Qed.

(** Whenever every PATCH of the sync resolves, with whatever status, the
    object store ends empty. *)
Lemma syncResolutions_all_resolved store answers :
  (forall k, answers k <> Rejected) ->
  syncResolutions (Some store) answers = (Some [], SyncComplete).
Proof.
  intros Hres. unfold syncResolutions. rewrite sync_loop_all_resolved by exact Hres.
  simpl. do 2 f_equal.
  assert (H : forall u, In u store ->
            negb (existsb (Z.eqb (SyncRecord.id u)) (map SyncRecord.id store)) = false).
  { intros u Hin. apply negb_false_iff, existsb_exists.
    exists (SyncRecord.id u). split; [by apply in_map | apply Z.eqb_refl]. }
  revert H. generalize (map SyncRecord.id store). intros ids H.
  induction store as [|u store IH]; simpl; [reflexivity|].
  rewrite (H u (or_introl eq_refl)). apply IH. intros v Hv. apply H. by right.
Qed.

End ServiceWorkerFacts.

(** * Runs of the component *)

Module TrackerRuns.
Import Tracker TrackerFacts.

(** Each offline mutation of a record with a remote id appends one pending
    update whose [current] is the value the record now shows. *)
Lemma offline_click_enqueues_local_value w id increment today now resolution pageId :
  find_resolution (resolutions (state w)) id = Some resolution ->
  Resolution.notionPageId resolution = Some pageId ->
  str_truthy pageId = true ->
  isOnline (state w) = false ->
  let w' := exec (updateProgress (render (state w)) id increment today now) w in
  exists u r',
    pendingUpdates (state w') = (pendingUpdates (state w) ++ [u])%list
    /\ PendingUpdate.pageId u = pageId
    /\ find_resolution (resolutions (state w')) id = Some r'
    /\ Updates.current (PendingUpdate.updates u) = Resolution.current r'
    /\ calls w' = calls w.
Proof.
  intros Hf Hp Ht Ho w'.
  destruct (updateProgress_offline (render (state w)) id increment today now w
              resolution pageId Hf Hp Ht Ho) as (Hc & Hq & _).
  eexists _, _. split; [exact Hq|]. split; [reflexivity|]. split.
  - unfold w'.
    rewrite (updateProgress_resolutions (render (state w)) id increment today now
               w resolution Hf).
    by apply progress_updater_find.
  - split; [reflexivity | exact Hc].
Qed.

(** C1, at the failing input. After two offline increments (3 to 5) and the
    [online] event, with a proxy that would accept every PATCH: no request was
    sent and the two pending updates are still queued, in memory and in
    storage. The listener ran [syncPendingUpdates] of the first render, whose
    queue is the empty one read at mount. *)
Theorem C1_online_listener_drains_first_render_queue :
  let w := world reconnect_run in
  map Resolution.current (resolutions (state w)) = [5; 0]
  /\ isOnline (state w) = true
  /\ calls w = []
  /\ pendingUpdates (state w) = [sample_update 4 1000; sample_update 5 2000]
  /\ localStorage w !! "pendingUpdates"
     = Some (StoredPendingUpdates [sample_update 4 1000; sample_update 5 2000])
  /\ syncStatus (state w) = Offline
  /\ cl_pendingUpdates (first_render reconnect_run) = [].
Proof. vm_compute. repeat split; reflexivity. Qed.

(** The same listener over a queue stored by an earlier session: the stored
    update is replayed, and the update of this session is dropped from the queue
    without having been sent. *)
Example online_listener_drops_session_updates :
  let a := steps (mount env_patch_ok
                    (<["pendingUpdates" := StoredPendingUpdates [sample_update 3 500]]>
                       sample_storage) false)
                 [ ProgressClick "res-1" 1 "2026-02-01" 1000; WindowOnline ] in
  map Resolution.current (resolutions (state (world a))) = [4; 0]
  /\ calls (world a) = [PatchCall "page-1" (Updates.mk 3 "2026-02-01")]
  /\ pendingUpdates (state (world a)) = [].
Proof. vm_compute. repeat split; reflexivity. Qed.

(** What the function does when it is the one of a render that holds the live
    queue: a drain after offline clicks sends the last local value last and
    empties the queue. *)
Example fresh_closure_drains_the_queue :
  let a := steps (mount env_patch_ok sample_storage false)
                 [ ProgressClick "res-1" 1 "2026-02-01" 1000;
                   ProgressClick "res-1" 1 "2026-02-01" 2000 ] in
  let w := exec (syncPendingUpdates (render (state (world a)))) (world a) in
  calls w = [PatchCall "page-1" (Updates.mk 4 "2026-02-01");
             PatchCall "page-1" (Updates.mk 5 "2026-02-01")]
  /\ pendingUpdates (state w) = [].
Proof. vm_compute. repeat split; reflexivity. Qed.

(** C2, at the failing input. A component opened offline over a stored
    queue of two updates, a proxy that answers the second request of the
    session with status 500. At the [online] event the drain does what the
    claim says: both updates are sent, the first succeeds, the second fails
    and is the only one left in the queue, the status is [Error]. But the
    update that succeeded is applied again: when connectivity is lost and
    returns, the listener replays the queue of the first render, which still
    holds both updates, and the PATCH with [current] 4 is sent a second
    time. *)
Theorem C2_succeeded_update_is_sent_again :
  let first := PatchCall "page-1" (Updates.mk 4 "2026-02-01") in
  let second := PatchCall "page-1" (Updates.mk 5 "2026-02-01") in
  let a1 := step (mount env_second_rejected Creation.storage_with_queue false)
                 WindowOnline in
  let a2 := steps a1 [WindowOffline; WindowOnline] in
  replay_fails env_second_rejected 0 = false
  /\ replay_fails env_second_rejected 1 = true
  /\ calls (world a1) = [first; second]
  /\ pendingUpdates (state (world a1)) = [sample_update 5 2000]
  /\ syncStatus (state (world a1)) = Error
  /\ cl_pendingUpdates (first_render a1) = [sample_update 4 1000; sample_update 5 2000]
  /\ calls (world a2) = [first; second; first; second]
  /\ pendingUpdates (state (world a2)) = [].
Proof. vm_compute. repeat split; reflexivity. Qed.

(** One drain by itself: a queue of two updates whose second replay is
    answered 500. *)
Example drain_with_second_replay_rejected :
  let cl := mkClosure [sample_record; sample_at_zero] None true
                      [sample_update 4 1000; sample_update 5 2000] in
  let w := online_world env_second_rejected in
  let w' := exec (syncPendingUpdates cl) w in
  pendingUpdates (state w') = [sample_update 5 2000]
  /\ syncStatus (state w') = Error
  /\ calls w' = [PatchCall "page-1" (Updates.mk 4 "2026-02-01");
                 PatchCall "page-1" (Updates.mk 5 "2026-02-01")].
Proof.
  intros cl w w'.
  destruct (one_drain_keeps_the_failed_updates cl w) as (Hq & _ & _ & Hs & _ & Hc).
  - exists 1%nat. split; [simpl; lia | reflexivity].
  - split; [exact Hq | split; [exact Hs | exact Hc]].
Qed.


(** The stored value stays above the target while the percentage is
    capped: the fourth demo record, at 7 of 7, incremented. *)
Example demo_record_above_target :
  let w := mkWorld env_unreachable (mkState getDemoData false false Demo None true [])
                   ∅ [] in
  let w' := exec (updateProgress (render (state w)) "demo-4" 1 "2026-02-01" 1000) w in
  option_map (fun r => (Resolution.current r, Resolution.target r, getProgress r))
             (find_resolution (resolutions (state w')) "demo-4")
  = Some (8, 7, Fin (Qmin (inject_Z 8 / inject_Z 7 * 100) 100)).
Proof. reflexivity. Qed.

(** Witness of C5: an empty storage and a proxy that lists nothing. *)
Lemma C5_witness :
  let a := mount env_empty_list ∅ true in
  syncStatus (state (world a)) = Demo
  /\ length (resolutions (state (world a))) = 5%nat
  /\ calls (world (steps a [ProgressClick "demo-1" 1 "2026-02-01" 1000;
                            WindowOffline;
                            ProgressClick "demo-2" (-1) "2026-02-01" 2000]))
     = [ListCall].
Proof.
  intros a.
  destruct (C5_demo_data_on_empty_startup env_empty_list ∅
              [ProgressClick "demo-1" 1 "2026-02-01" 1000;
               WindowOffline;
               ProgressClick "demo-2" (-1) "2026-02-01" 2000])
    as (Hs & _ & Hl & _ & _ & Hc & _).
  - left. reflexivity.
  - reflexivity.
  - repeat constructor.
  - split; [exact Hs | split; [exact Hl | exact Hc]].
Defined.

(** C9, as stated, fails: the component is online, the PATCH of the
    mutation is rejected by the network, and the queue stays empty; only the
    status tells. *)
Lemma C9_failed_online_call_is_not_queued :
  let w := online_world env_unreachable in
  let w' := exec (updateProgress (render (state w)) "res-1" 1 "2026-02-01" 1000) w in
  isOnline (state w) = true
  /\ Resolution.notionPageId sample_record = Some "page-1"
  /\ call_fails (patch_outcome (env w) (length (calls w)))
  /\ calls w' = [PatchCall "page-1" (Updates.mk 4 "2026-02-01")]
  /\ pendingUpdates (state w') = []
  /\ ~ (exists u, In u (pendingUpdates (state w')))
  /\ syncStatus (state w') = Error.
Proof.
  vm_compute. repeat split; try reflexivity.
  - left. reflexivity.
  - intros [u []].
Qed.

(** Witness of C9 as amended: the same mutation offline, then online
    against an unreachable proxy. *)
Lemma C9_witness :
  let w := online_world env_unreachable in
  let w_off := exec handleOffline w in
  let u := Updates.mk 4 "2026-02-01" in
  pendingUpdates (state (exec (updateProgress (render (state w_off)) "res-1" 1
                                 "2026-02-01" 1000) w_off))
  = [PendingUpdate.mk "page-1" u 1000]
  /\ pendingUpdates (state (exec (updateProgress (render (state w)) "res-1" 1
                                    "2026-02-01" 1000) w))
     = [].
Proof.
  intros w w_off u. split.
  - destruct (C9_queued_only_when_offline w_off "res-1" 1 "2026-02-01" 1000
                sample_record "page-1" eq_refl eq_refl eq_refl) as [Hoff _].
    destruct (Hoff eq_refl) as (_ & Hq & _). exact Hq.
  - destruct (C9_queued_only_when_offline w "res-1" 1 "2026-02-01" 1000
                sample_record "page-1" eq_refl eq_refl eq_refl) as [_ Hon].
    destruct (Hon eq_refl (or_introl eq_refl)) as (_ & Hq & _). exact Hq.
Defined.

(** C10, as stated, fails when [localStorage] refuses the write: the queue
    is emptied in memory and the update stays in storage, so the stored queue
    is not the queue. Over a whole session: a component opened offline over
    two stored updates replays them at the [online] event, the queue ends empty
    in memory, storage still holds both, and the next session starts with them
    queued again. *)
Lemma C10_stored_queue_is_stale_when_setItem_throws :
  let w := mkWorld Creation.env_storage_full
             (mkState [sample_record; sample_at_zero] false false Offline None false
                      [sample_update 4 1000])
             (<["pendingUpdates" := StoredPendingUpdates [sample_update 4 1000]]>
                sample_storage) [] in
  let w' := exec (setPendingUpdates (fun _ => [])) w in
  let session := world (step (mount Creation.env_storage_full
                                    Creation.storage_with_queue false) WindowOnline) in
  setItem_throws (env w) = true
  /\ pendingUpdates (state w') = []
  /\ localStorage w' !! "pendingUpdates"
     = Some (StoredPendingUpdates [sample_update 4 1000])
  /\ localStorage w' !! "pendingUpdates"
     <> Some (StoredPendingUpdates (pendingUpdates (state w')))
  /\ pendingUpdates (state session) = []
  /\ localStorage session !! "pendingUpdates"
     = Some (StoredPendingUpdates Creation.stored_queue)
  /\ pendingUpdates (state (world (mount Creation.env_storage_full
                                         (localStorage session) false)))
     = Creation.stored_queue.
Proof.
  vm_compute. repeat split; try reflexivity.
  intros H. discriminate H.
Qed.

(** Witness of C10: over a storage that holds two records and one update,
    the records are set to the empty list, the records are set to one record,
    the queue gets a second update, the queue is emptied. *)
Lemma C10_witness :
  let w := mkWorld env_patch_ok
             (mkState [sample_record; sample_at_zero] false false Offline None false
                      [sample_update 4 1000])
             (<["pendingUpdates" := StoredPendingUpdates [sample_update 4 1000]]>
                sample_storage) [] in
  localStorage (exec (setResolutions (fun _ => [])) w) = localStorage w
  /\ localStorage (exec (setResolutions (fun _ => [sample_at_zero])) w)
     = <["resolutions" := StoredResolutions [sample_at_zero]]> (localStorage w)
  /\ localStorage (exec (setPendingUpdates (fun q => q ++ [sample_update 5 2000])%list) w)
       !! "pendingUpdates"
     = Some (StoredPendingUpdates [sample_update 4 1000; sample_update 5 2000])
  /\ localStorage (exec (setPendingUpdates (fun _ => [])) w) !! "pendingUpdates"
     = Some (StoredPendingUpdates []).
Proof.
  intros w.
  destruct (C10_records_saved_when_non_empty_queue_always
              (fun _ => []) (fun _ => []) w) as (He & _ & _ & Hq & _).
  destruct (C10_records_saved_when_non_empty_queue_always
              (fun _ => [sample_at_zero])
              (fun q => q ++ [sample_update 5 2000])%list w) as (_ & Hch & Hm & _).
  split; [exact (proj2 (He eq_refl))|].
  split.
  - apply Hch. intros H.
    apply (f_equal (fun m : gmap string Stored => m !! "resolutions")) in H.
    vm_compute in H. discriminate H.
  - split; [exact (Hm eq_refl) | exact (Hq eq_refl eq_refl)].
Defined.

End TrackerRuns.

(** * Runs of the service worker *)

Module ServiceWorkerRuns.
Import ServiceWorker ServiceWorkerFacts.

(** C3, at the failing input. The background sync sends the one queued
    update, the server answers 500, and the update is deleted from the object
    store all the same: [syncResolutions] looks at no status, only a rejected
    fetch keeps an update queued. *)
Theorem C3_sync_deletes_update_answered_500 :
  ok (mkResponse 500 "Internal Server Error" None) = false
  /\ syncResolutions (Some queued_store) always_500 = (Some [], SyncComplete)
  /\ sync_listener "sync-resolutions" (Some queued_store) always_500
     = Some (Some [], SyncComplete).
Proof. repeat split; reflexivity. Qed.

(** A rejected fetch, for comparison, leaves the object store as it is and
    asks for a retry. *)
Example sync_keeps_update_when_fetch_rejects :
  syncResolutions (Some queued_store) (fun _ => Rejected)
  = (Some queued_store, SyncRetry).
Proof. reflexivity. Qed.

(** Witness of C6: an API path that ends in [.js] and asks for HTML, and a
    PATCH. *)
Lemma C6_witness :
  select_strategy api_script = Some NetworkFirst
  /\ fetch_listener sample_origin patch_request Rejected installed_caches
     = (PassedThrough, installed_caches).
Proof.
  split.
  - refine (proj1 (proj1 (C6_api_prefix_network_first_non_get_untouched
                            sample_origin api_script Rejected installed_caches)
                         eq_refl _)).
    exists "/api/resolutions". split; [by left | reflexivity].
  - refine (proj2 (proj2 (C6_api_prefix_network_first_non_get_untouched
                            sample_origin patch_request Rejected installed_caches)
                         _)).
    discriminate.
Defined.

(** C7, at the failing input. On a first visit the caches hold the
    manifest, which does not list [/offline.html]. A navigation that asks for
    HTML, is not cached and cannot reach the network is routed to
    [networkFirst], which answers with [undefined]: no offline document. *)
Theorem C7_offline_document_is_not_in_the_caches :
  caches_keys installed_caches = [STATIC_CACHE]
  /\ select_strategy history_page = Some NetworkFirst
  /\ accepts_html history_page = true
  /\ caches_match installed_caches (url history_page) = None
  /\ networkFirst sample_origin history_page Rejected installed_caches
     = (None, installed_caches)
  /\ fetch_listener sample_origin history_page Rejected installed_caches
     = (RespondedWith NetworkFirst None, installed_caches).
Proof. vm_compute. repeat split; reflexivity. Qed.

(** The other half of the claim holds: a request that does not ask for
    HTML gets the JSON body with status 503. *)
Example network_first_json_503 :
  let request := mkRequest "GET" "https://tracker.example/api/user" "/api/user"
                           (Some "application/json") in
  fst (fetch_listener sample_origin request Rejected installed_caches)
  = RespondedWith NetworkFirst
      (Some (mkResponse 503 offline_json (Some "application/json"))).
Proof. reflexivity. Qed.

(** Witness of C8: the caches after a redeployment. *)
Lemma C8_witness :
  caches_lookup (activate redeployed_caches) "static-v0" = None
  /\ caches_lookup (activate redeployed_caches) CACHE_NAME = None
  /\ caches_keys (activate redeployed_caches) = [STATIC_CACHE; DYNAMIC_CACHE]
  /\ exists name c,
       In (name, c) redeployed_caches
       /\ (name = STATIC_CACHE \/ name = DYNAMIC_CACHE)
       /\ cache_match c "https://tracker.example/app.js"
          = Some (mkResponse 200 "new" None).
Proof.
  split; [|split; [|split]].
  - refine (proj1 (proj1 (C8_activate_deletes_superseded_generations redeployed_caches)
                         "static-v0" _ _)); discriminate.
  - refine (proj1 (proj1 (C8_activate_deletes_superseded_generations redeployed_caches)
                         CACHE_NAME _ _)); discriminate.
  - reflexivity.
  - refine (proj1 (proj2 (C8_activate_deletes_superseded_generations redeployed_caches))
                  "https://tracker.example/app.js" (mkResponse 200 "new" None) _).
    reflexivity.
Defined.

End ServiceWorkerRuns.

(** * More properties of the service worker *)

Module ServiceWorkerMore.
Import ServiceWorker ServiceWorkerFacts Traffic.

(** ** Entries put and matched *)

Lemma cache_put_match (c : Cache) u r : cache_match (cache_put c u r) u = Some r.
Proof.
  unfold cache_match, cache_put.
  induction c as [|[k v] c IH]; simpl.
  - by rewrite String.eqb_refl.
  - destruct (String.eqb k u) eqn:E; simpl; [exact IH|]. rewrite E. exact IH.
Qed.

Lemma cache_put_match_other (c : Cache) u r v :
  v <> u -> cache_match (cache_put c u r) v = cache_match c v.
Proof.
  intros Hne. unfold cache_match, cache_put.
  induction c as [|[k w] c IH]; simpl.
  - apply String.eqb_neq in Hne. rewrite String.eqb_sym in Hne. by rewrite Hne.
  - destruct (String.eqb k u) eqn:E; simpl.
    + apply String.eqb_eq in E. subst k.
      apply String.eqb_neq in Hne. rewrite String.eqb_sym in Hne. rewrite Hne.
      exact IH.
    + destruct (String.eqb k v); [reflexivity | exact IH].
Qed.

Lemma caches_put_lookup (cs : CacheStorage) name u r :
  caches_lookup (caches_put cs name u r) name
  = Some (cache_put (default [] (caches_lookup cs name)) u r).
Proof.
  unfold caches_lookup.
  induction cs as [|[n c] cs IH]; simpl.
  - by rewrite String.eqb_refl.
  - destruct (String.eqb n name) eqn:E; simpl; rewrite E; [reflexivity | exact IH].
Qed.

Lemma caches_put_lookup_other (cs : CacheStorage) name u r other :
  other <> name ->
  caches_lookup (caches_put cs name u r) other = caches_lookup cs other.
Proof.
  intros Hne. unfold caches_lookup. apply String.eqb_neq in Hne.
  induction cs as [|[n c] cs IH]; simpl.
  - rewrite String.eqb_sym in Hne. by rewrite Hne.
  - destruct (String.eqb n name) eqn:E; simpl.
    + apply String.eqb_eq in E. subst n. rewrite String.eqb_sym in Hne.
      by rewrite Hne.
    + destruct (String.eqb n other); [reflexivity | exact IH].
Qed.

Lemma caches_put_keys (cs : CacheStorage) name u r :
  caches_keys (caches_put cs name u r)
  = if existsb (String.eqb name) (caches_keys cs) then caches_keys cs
    else (caches_keys cs ++ [name])%list.
Proof.
  unfold caches_keys.
  induction cs as [|[n c] cs IH]; simpl; [reflexivity|].
  rewrite (String.eqb_sym name n).
  destruct (String.eqb n name) eqn:E; simpl; [reflexivity|].
  rewrite IH. by destruct (existsb (String.eqb name) (map fst cs)).
Qed.

Lemma caches_put_match_other (cs : CacheStorage) name u r v :
  v <> u -> caches_match (caches_put cs name u r) v = caches_match cs v.
Proof.
  intros Hne.
  induction cs as [|[n c] cs IH]; simpl.
  - rewrite cache_put_match_other by exact Hne. reflexivity.
  - destruct (String.eqb n name); simpl.
    + by rewrite cache_put_match_other.
    + by rewrite IH.
Qed.

(** An entry put under a URL that no generation held is the one matched
    afterwards. *)
Lemma caches_put_match_fresh (cs : CacheStorage) name u r :
  caches_match cs u = None -> caches_match (caches_put cs name u r) u = Some r.
Proof.
  induction cs as [|[n c] cs IH]; simpl.
  - intros _. by rewrite cache_put_match.
  - destruct (cache_match c u) eqn:Hc; [discriminate|]. intros Hrest.
    destruct (String.eqb n name); simpl.
    + by rewrite cache_put_match.
    + rewrite Hc. by apply IH.
Qed.

(** Putting twice under a URL that no generation held: the second
    response replaces the first. *)
Lemma caches_put_twice_match (cs : CacheStorage) name u r1 r2 :
  caches_match cs u = None ->
  caches_match (caches_put (caches_put cs name u r1) name u r2) u = Some r2.
Proof.
  induction cs as [|[n c] cs IH]; simpl.
  - intros _. rewrite String.eqb_refl. simpl. by rewrite cache_put_match.
  - destruct (cache_match c u) eqn:Hc; [discriminate|]. intros Hrest.
    destruct (String.eqb n name) eqn:E; simpl; rewrite E; simpl.
    + by rewrite cache_put_match.
    + rewrite Hc. by apply IH.
Qed.

(** Opening a generation adds no entry. *)
Lemma caches_match_app_empty (cs : CacheStorage) name u :
  caches_match (cs ++ [(name, [])])%list u = caches_match cs u.
Proof.
  induction cs as [|[n c] cs IH]; simpl; [reflexivity|].
  destruct (cache_match c u); [reflexivity | exact IH].
Qed.

Lemma caches_open_match (cs : CacheStorage) name u :
  caches_match (caches_open cs name) u = caches_match cs u.
Proof.
  unfold caches_open. destruct (caches_lookup cs name); [reflexivity|].
  apply caches_match_app_empty.
Qed.

Lemma caches_lookup_None_keys (cs : CacheStorage) name :
  caches_lookup cs name = None <-> existsb (String.eqb name) (caches_keys cs) = false.
Proof.
  unfold caches_lookup, caches_keys.
  induction cs as [|[n c] cs IH]; simpl; [done|].
  rewrite (String.eqb_sym name n).
  destruct (String.eqb n name); simpl; [split; discriminate | exact IH].
Qed.

Lemma caches_open_keys (cs : CacheStorage) name :
  caches_keys (caches_open cs name)
  = if existsb (String.eqb name) (caches_keys cs) then caches_keys cs
    else (caches_keys cs ++ [name])%list.
Proof.
  unfold caches_open.
  destruct (caches_lookup cs name) as [c|] eqn:E.
  - destruct (existsb (String.eqb name) (caches_keys cs)) eqn:Ek; [reflexivity|].
    apply caches_lookup_None_keys in Ek. congruence.
  - rewrite (proj1 (caches_lookup_None_keys cs name) E).
    unfold caches_keys. by rewrite map_app.
Qed.

Lemma caches_open_lookup_other (cs : CacheStorage) name other :
  other <> name -> caches_lookup (caches_open cs name) other = caches_lookup cs other.
Proof.
  intros Hne. unfold caches_open.
  destruct (caches_lookup cs name) as [c|] eqn:E; [reflexivity|].
  apply String.eqb_neq in Hne.
  unfold caches_lookup. clear E.
  induction cs as [|[n d] cs IH]; simpl.
  - rewrite String.eqb_sym in Hne. by rewrite Hne.
  - destruct (String.eqb n other); [reflexivity | exact IH].
Qed.

(** ** The strategies, with and without network *)

Lemma apply_strategy_offline_cached s origin request r cs :
  caches_match cs (url request) = Some r ->
  apply_strategy s origin request Rejected cs = (Some r, cs).
Proof.
  intros Hm.
  destruct s; simpl; unfold cacheFirst, networkFirst, staleWhileRevalidate;
    rewrite Hm; reflexivity.
Qed.

Lemma select_strategy_get request :
  method request = "GET" -> exists s, select_strategy request = Some s.
Proof.
  intros Hm. unfold select_strategy. rewrite Hm, String.eqb_refl. cbn [negb].
  repeat match goal with |- context [if ?b then _ else _] => destruct b end; eauto.
Qed.

(** Offline, a request that some generation holds is answered with the
    entry [caches.match] finds, by every strategy, and nothing is written: a
    GET request of a cached URL never fails for lack of network, whichever
    branch of the listener it takes. *)
Theorem offline_cached_request_is_served_from_cache :
  forall (origin : string) (request : Request) (r : Response) (cs : CacheStorage),
    caches_match cs (url request) = Some r ->
    (forall s, apply_strategy s origin request Rejected cs = (Some r, cs))
    /\ (method request = "GET" ->
        exists s, fetch_listener origin request Rejected cs
                  = (RespondedWith s (Some r), cs)).
Proof.
  intros origin request r cs Hm. split.
  - intros s. by apply apply_strategy_offline_cached.
  - intros Hg. destruct (select_strategy_get request Hg) as [s Hs]. exists s.
    unfold fetch_listener. rewrite Hs.
    by rewrite (apply_strategy_offline_cached s origin request r cs Hm).
Qed.

(** A response whose status is not a success is never stored, by any
    strategy; [networkFirst] hands it to the page even when a cached copy
    exists, while the two other strategies prefer the cached copy. *)
Theorem error_response_is_never_cached :
  forall (origin : string) (request : Request) (r : Response) (cs : CacheStorage),
    ok r = false ->
    (forall s, snd (apply_strategy s origin request (Resolved r) cs) = cs)
    /\ snd (fetch_listener origin request (Resolved r) cs) = cs
    /\ fst (networkFirst origin request (Resolved r) cs) = Some r
    /\ fst (cacheFirst request (Resolved r) cs)
       = Some (default r (caches_match cs (url request)))
    /\ fst (staleWhileRevalidate request (Resolved r) cs)
       = Some (default r (caches_match cs (url request))).
Proof.
  intros origin request r cs Hok.
  assert (Hs : forall s, snd (apply_strategy s origin request (Resolved r) cs) = cs).
  { intros s. destruct s; simpl;
      unfold cacheFirst, networkFirst, staleWhileRevalidate; rewrite ?Hok;
      try reflexivity.
    destruct (caches_match cs (url request)); simpl; by rewrite ?Hok. }
  split; [exact Hs|]. split.
  - unfold fetch_listener. destruct (select_strategy request); [apply Hs | reflexivity].
  - unfold networkFirst, cacheFirst, staleWhileRevalidate. rewrite Hok.
    destruct (caches_match cs (url request)); repeat split; reflexivity.
Qed.

(** What a strategy can do to the caches: nothing, open the dynamic
    generation, or put one entry under the URL of the request. *)
Lemma apply_strategy_writes s origin request net cs :
  snd (apply_strategy s origin request net cs) = cs
  \/ snd (apply_strategy s origin request net cs) = caches_open cs DYNAMIC_CACHE
  \/ exists name r,
       (name = STATIC_CACHE \/ name = DYNAMIC_CACHE)
       /\ snd (apply_strategy s origin request net cs)
          = caches_put cs name (url request) r.
Proof.
  destruct s; simpl; unfold cacheFirst, networkFirst, staleWhileRevalidate.
  - destruct (caches_match cs (url request)); [by left|].
    destruct net as [|r]; [by left|]. simpl.
    destruct (ok r); [|by left]. right. right. exists STATIC_CACHE, r.
    split; [by left | reflexivity].
  - destruct net as [|r]; simpl.
    + destruct (caches_match cs (url request)); [by left|].
      destruct (accepts_html request); by left.
    + destruct (ok r); [|by left]. right. right. exists DYNAMIC_CACHE, r.
      split; [by right | reflexivity].
  - destruct net as [|r]; [by left|]. simpl.
    destruct (ok r); [|by left].
    destruct (caches_match cs (url request)); [|right; by left].
    right. right. exists DYNAMIC_CACHE, r. split; [by right | reflexivity].
Qed.

Lemma fetch_listener_writes origin request net cs :
  snd (fetch_listener origin request net cs) = cs
  \/ snd (fetch_listener origin request net cs) = caches_open cs DYNAMIC_CACHE
  \/ exists name r,
       (name = STATIC_CACHE \/ name = DYNAMIC_CACHE)
       /\ snd (fetch_listener origin request net cs)
          = caches_put cs name (url request) r.
Proof.
  unfold fetch_listener. destruct (select_strategy request) as [s|]; [|by left].
  apply apply_strategy_writes.
Qed.

Lemma existsb_eqb_In name (l : list string) :
  existsb (String.eqb name) l = true <-> In name l.
Proof.
  rewrite existsb_exists. split.
  - intros (x & Hin & He). apply String.eqb_eq in He. by subst.
  - intros Hin. exists name. split; [exact Hin | apply String.eqb_refl].
Qed.

(** Handling a request touches at most the entry of that request in the
    static or the dynamic generation: no generation disappears, no generation
    of another name appears or changes, and the entries of other URLs are
    matched as before. *)
Theorem fetch_listener_touches_one_entry :
  forall (origin : string) (request : Request) (net : FetchResult) (cs : CacheStorage),
    let cs' := snd (fetch_listener origin request net cs) in
    (forall name, In name (caches_keys cs) -> In name (caches_keys cs'))
    /\ (forall name, In name (caches_keys cs') ->
          In name (caches_keys cs) \/ name = STATIC_CACHE \/ name = DYNAMIC_CACHE)
    /\ (forall name, name <> STATIC_CACHE -> name <> DYNAMIC_CACHE ->
          caches_lookup cs' name = caches_lookup cs name)
    /\ (forall u, u <> url request -> caches_match cs' u = caches_match cs u).
Proof.
  intros origin request net cs cs'.
  destruct (fetch_listener_writes origin request net cs)
    as [E | [E | (name & r & Hn & E)]]; fold cs' in E; rewrite E.
  - repeat split; auto.
  - rewrite caches_open_keys. repeat split.
    + intros n Hin.
      destruct (existsb (String.eqb DYNAMIC_CACHE) (caches_keys cs)); [exact Hin|].
      apply in_or_app. by left.
    + intros n Hin.
      destruct (existsb (String.eqb DYNAMIC_CACHE) (caches_keys cs)); [by left|].
      apply in_app_or in Hin as [Hin | [<- | []]]; [by left | right; by right].
    + intros n _ Hd. by apply caches_open_lookup_other.
    + intros u _. apply caches_open_match.
  - rewrite caches_put_keys. repeat split.
    + intros n Hin. destruct (existsb (String.eqb name) (caches_keys cs)); [exact Hin|].
      apply in_or_app. by left.
    + intros n Hin. destruct (existsb (String.eqb name) (caches_keys cs)); [by left|].
      apply in_app_or in Hin as [Hin | [<- | []]]; [by left | by right].
    + intros n Hs Hd. apply caches_put_lookup_other. destruct Hn; congruence.
    + intros u Hu. by apply caches_put_match_other.
Qed.

(** Cache-first sticks: once the response of a successful fetch is stored,
    it is the answer to every later request of the same URL, whatever the
    network holds by then, and nothing is written any more. *)
Theorem cacheFirst_keeps_first_response :
  forall (request : Request) (r : Response) (cs : CacheStorage),
    caches_match cs (url request) = None ->
    ok r = true ->
    let first := cacheFirst request (Resolved r) cs in
    fst first = Some r
    /\ forall (again : Request) (net : FetchResult),
         url again = url request ->
         cacheFirst again net (snd first) = (Some r, snd first).
Proof.
  intros request r cs Hm Hok first.
  assert (E : first = (Some r, caches_put cs STATIC_CACHE (url request) r)).
  { subst first. unfold cacheFirst. by rewrite Hm, Hok. }
  rewrite E. cbn [fst snd]. split; [reflexivity|].
  intros again net Hu. unfold cacheFirst. rewrite Hu.
  by rewrite (caches_put_match_fresh cs STATIC_CACHE (url request) r Hm).
Qed.

(** Network-first refreshes: of two successful fetches of a URL that no
    generation held, the second response is the one served when the network is
    gone. *)
Theorem networkFirst_falls_back_to_latest :
  forall (origin : string) (request : Request) (r1 r2 : Response) (cs : CacheStorage),
    caches_match cs (url request) = None ->
    ok r1 = true -> ok r2 = true ->
    let cs1 := snd (networkFirst origin request (Resolved r1) cs) in
    let cs2 := snd (networkFirst origin request (Resolved r2) cs1) in
    fst (networkFirst origin request (Resolved r2) cs1) = Some r2
    /\ networkFirst origin request Rejected cs2 = (Some r2, cs2).
Proof.
  intros origin request r1 r2 cs Hm Hok1 Hok2 cs1 cs2.
  subst cs2 cs1. unfold networkFirst. rewrite Hok1, Hok2. simpl.
  split; [reflexivity|].
  by rewrite (caches_put_twice_match cs DYNAMIC_CACHE (url request) r1 r2 Hm).
Qed.

Lemma revisit_uncached request nets : forall cs,
  caches_match cs (url request) = None ->
  fst (revisit request nets cs) = map network_answer nets
  /\ forall u, caches_match (snd (revisit request nets cs)) u = caches_match cs u.
Proof.
  induction nets as [|net nets IH]; intros cs Hm; [by split|].
  cbn [revisit fst snd map].
  assert (Ha : fst (staleWhileRevalidate request net cs) = network_answer net
               /\ forall u, caches_match (snd (staleWhileRevalidate request net cs)) u
                            = caches_match cs u).
  { unfold staleWhileRevalidate. rewrite Hm. destruct net as [|r]; [by split|].
    cbn [fst snd]. split; [reflexivity|]. intros u.
    destruct (ok r); [apply caches_open_match | reflexivity]. }
  destruct Ha as (Hf & Hk).
  destruct (IH (snd (staleWhileRevalidate request net cs))) as (Hfs & Hks).
  { by rewrite Hk. }
  split; [by rewrite Hf, Hfs|].
  intros u. by rewrite Hks, Hk.
Qed.

(** Stale-while-revalidate never caches a URL by itself. For a URL that no
    generation holds, however often it is requested and whatever the fetches
    give, every answer is the one of the network ([undefined] when the fetch
    rejects) and no entry is added to any generation, so the URL is never
    served offline. Only a URL that some generation already holds is
    revalidated: the cached entry is the answer and a successful response is
    stored in the dynamic generation. *)
Theorem staleWhileRevalidate_never_caches_a_new_url :
  forall (request : Request) (cs : CacheStorage),
    (caches_match cs (url request) = None ->
     forall nets : list FetchResult,
       fst (revisit request nets cs) = map network_answer nets
       /\ (forall u, caches_match (snd (revisit request nets cs)) u = caches_match cs u)
       /\ staleWhileRevalidate request Rejected (snd (revisit request nets cs))
          = (None, snd (revisit request nets cs)))
    /\ (forall (cached r : Response),
          caches_match cs (url request) = Some cached ->
          ok r = true ->
          staleWhileRevalidate request (Resolved r) cs
          = (Some cached, caches_put cs DYNAMIC_CACHE (url request) r)).
Proof.
  intros request cs. split.
  - intros Hm nets.
    destruct (revisit_uncached request nets cs Hm) as (Hf & Hk).
    split; [exact Hf|]. split; [exact Hk|].
    unfold staleWhileRevalidate. by rewrite Hk, Hm.
  - intros cached r Hm Hok. unfold staleWhileRevalidate. by rewrite Hm, Hok.
Qed.

(** ** Generations over time *)

Lemma activate_keys (cs : CacheStorage) : current_only (activate cs).
Proof.
  intros name Hin. rewrite activate_filter in Hin. unfold caches_keys in Hin.
  apply in_map_iff in Hin as (g & <- & Hg). apply filter_In in Hg as [_ Hk].
  unfold stale_name in Hk.
  destruct (String.eqb (fst g) STATIC_CACHE) eqn:E1.
  - left. by apply String.eqb_eq.
  - destruct (String.eqb (fst g) DYNAMIC_CACHE) eqn:E2; [|discriminate].
    right. by apply String.eqb_eq.
Qed.

Lemma current_only_activate (cs : CacheStorage) : current_only cs -> activate cs = cs.
Proof.
  intros Hc. rewrite activate_filter.
  induction cs as [|g cs IH]; simpl; [reflexivity|].
  assert (Hg : stale_name (fst g) = false).
  { destruct (Hc (fst g)) as [-> | ->]; [by left | reflexivity | reflexivity]. }
  rewrite Hg. simpl. f_equal. apply IH. intros name Hin. apply Hc. by right.
Qed.

Lemma current_only_fetch_listener origin request net cs :
  current_only cs -> current_only (snd (fetch_listener origin request net cs)).
Proof.
  intros Hc name.
  destruct (fetch_listener_writes origin request net cs)
    as [-> | [-> | (n & r & Hn & ->)]]; [apply Hc | |].
  - rewrite caches_open_keys.
    destruct (existsb (String.eqb DYNAMIC_CACHE) (caches_keys cs)); [apply Hc|].
    intros Hin. apply in_app_or in Hin as [Hin | [<- | []]]; [by apply Hc | by right].
  - rewrite caches_put_keys.
    destruct (existsb (String.eqb n) (caches_keys cs)); [apply Hc|].
    intros Hin. apply in_app_or in Hin as [Hin | [<- | []]]; [by apply Hc | exact Hn].
Qed.

Lemma current_only_serve origin traffic : forall cs,
  current_only cs -> current_only (serve origin cs traffic).
Proof.
  induction traffic as [|t traffic IH]; intros cs Hc; [exact Hc|].
  apply IH. by apply current_only_fetch_listener.
Qed.

(** Once the worker has activated, the storage holds only the static and
    the dynamic generation, whatever requests it handles afterwards; a second
    activation then finds nothing to delete. *)
Theorem no_generation_but_the_current_two_after_activation :
  forall (origin : string) (cs : CacheStorage) (traffic : list (Request * FetchResult)),
    let cs' := serve origin (activate cs) traffic in
    current_only cs'
    /\ activate cs' = cs'
    /\ activate (activate cs) = activate cs.
Proof.
  intros origin cs traffic cs'.
  assert (Hc : current_only cs') by apply current_only_serve, activate_keys.
  split; [exact Hc|]. split; [by apply current_only_activate|].
  apply current_only_activate, activate_keys.
Qed.

(** ** Installation *)

Lemma addAll_stores origin fetch assets : forall c c',
  addAll origin fetch assets c = Some c' ->
  (forall a, In a assets ->
     exists r, fetch (absolute origin a) = Resolved r /\ ok r = true
               /\ cache_match c' (absolute origin a) = Some r)
  /\ (forall u r, cache_match c u = Some r ->
        fetch u = Resolved r -> cache_match c' u = Some r).
Proof.
  induction assets as [|a assets IH]; intros c c'; simpl.
  - intros [= <-]. split; [intros a []|]. auto.
  - destruct (fetch (absolute origin a)) as [|r] eqn:Hf; [discriminate|].
    destruct (ok r) eqn:Hok; [|discriminate].
    intros Ha. destruct (IH _ _ Ha) as (Hall & Hkeep). split.
    + intros b [<- | Hb]; [|by apply Hall].
      exists r. repeat split; try assumption.
      apply Hkeep; [apply cache_put_match | exact Hf].
    + intros u r' Hm Hu. apply Hkeep; [|exact Hu].
      destruct (string_dec u (absolute origin a)) as [-> | Hne].
      * rewrite cache_put_match. congruence.
      * by rewrite cache_put_match_other.
Qed.

Lemma lookup_map_replace (cs : CacheStorage) name (c : Cache) :
  caches_lookup
    (map (fun g => if String.eqb (fst g) name then (fst g, c) else g) cs) name
  = (fun _ => c) <$> caches_lookup cs name.
Proof.
  unfold caches_lookup. induction cs as [|[n d] cs IH]; simpl; [reflexivity|].
  destruct (String.eqb n name) eqn:E; simpl; rewrite E; [reflexivity | exact IH].
Qed.

Lemma lookup_map_replace_other (cs : CacheStorage) name (c : Cache) other :
  other <> name ->
  caches_lookup
    (map (fun g => if String.eqb (fst g) name then (fst g, c) else g) cs) other
  = caches_lookup cs other.
Proof.
  intros Hne. unfold caches_lookup. apply String.eqb_neq in Hne.
  induction cs as [|[n d] cs IH]; simpl; [reflexivity|].
  destruct (String.eqb n name) eqn:E; simpl.
  - apply String.eqb_eq in E. subst n. rewrite String.eqb_sym in Hne. by rewrite Hne.
  - destruct (String.eqb n other); [reflexivity | exact IH].
Qed.

Lemma lookup_app_new (cs : CacheStorage) name (c : Cache) other :
  caches_lookup cs name = None ->
  caches_lookup (cs ++ [(name, c)])%list other
  = if String.eqb name other then
      match caches_lookup cs other with Some d => Some d | None => Some c end
    else caches_lookup cs other.
Proof.
  unfold caches_lookup. intros Hn.
  induction cs as [|[n d] cs IH]; simpl in *.
  - by destruct (String.eqb name other).
  - destruct (String.eqb n name) eqn:E; [discriminate|].
    destruct (String.eqb n other) eqn:E2; simpl.
    + by destruct (String.eqb name other).
    + by apply IH.
Qed.

(** Installation is all or nothing. When it succeeds, the static
    generation holds every asset of the manifest with the successful response
    the network gave for it; when one asset cannot be fetched with a successful
    status, the static generation holds exactly what it held before (nothing,
    when it is new). No other generation is touched in either case. *)
Theorem install_is_all_or_nothing :
  forall (origin : string) (fetch : string -> FetchResult) (cs : CacheStorage),
    let done := fst (install origin fetch cs) in
    let cs' := snd (install origin fetch cs) in
    (done = true ->
       exists c, caches_lookup cs' STATIC_CACHE = Some c
         /\ forall a, In a STATIC_ASSETS ->
              exists r, fetch (absolute origin a) = Resolved r /\ ok r = true
                        /\ cache_match c (absolute origin a) = Some r)
    /\ (done = false ->
        caches_lookup cs' STATIC_CACHE
        = Some (default [] (caches_lookup cs STATIC_CACHE)))
    /\ (forall name, name <> STATIC_CACHE ->
          caches_lookup cs' name = caches_lookup cs name).
Proof.
  intros origin fetch cs done cs'. subst done cs'. unfold install.
  set (cs1 := match caches_lookup cs STATIC_CACHE with
              | Some _ => cs
              | None => (cs ++ [(STATIC_CACHE, [])])%list
              end).
  assert (H1 : caches_lookup cs1 STATIC_CACHE
               = Some (default [] (caches_lookup cs STATIC_CACHE))).
  { subst cs1. destruct (caches_lookup cs STATIC_CACHE) as [c|] eqn:E; [by rewrite E|].
    rewrite lookup_app_new by exact E. by rewrite String.eqb_refl, E. }
  assert (H2 : forall name, name <> STATIC_CACHE ->
                 caches_lookup cs1 name = caches_lookup cs name).
  { intros name Hne. subst cs1.
    destruct (caches_lookup cs STATIC_CACHE) as [c|] eqn:E; [reflexivity|].
    rewrite lookup_app_new by exact E.
    apply String.eqb_neq in Hne. rewrite String.eqb_sym in Hne. by rewrite Hne. }
  destruct (addAll origin fetch STATIC_ASSETS (default [] (caches_lookup cs1 STATIC_CACHE)))
    as [c|] eqn:Ha; cbn [fst snd].
  - split; [|split; [discriminate|]].
    + intros _. exists c. split.
      * rewrite lookup_map_replace, H1. reflexivity.
      * apply (addAll_stores _ _ _ _ _ Ha).
    + intros name Hne. rewrite lookup_map_replace_other by exact Hne. by apply H2.
  - split; [discriminate|]. split; [intros _; exact H1 | exact H2].
Qed.

Lemma install_empty origin fetch :
  install origin fetch []
  = match addAll origin fetch STATIC_ASSETS [] with
    | None => (false, [(STATIC_CACHE, [])])
    | Some c => (true, [(STATIC_CACHE, c)])
    end.
Proof. reflexivity. Qed.

(** After a first visit whose installation succeeded, every GET request
    for an asset of the manifest is answered offline with the response fetched
    at installation, and the caches stay as they are. *)
Theorem manifest_is_served_offline_after_first_visit :
  forall (origin : string) (fetch : string -> FetchResult) (request : Request)
         (a : string),
    fst (first_visit origin fetch) = true ->
    In a STATIC_ASSETS ->
    method request = "GET" ->
    url request = absolute origin a ->
    let cs := snd (first_visit origin fetch) in
    exists s r,
      fetch (absolute origin a) = Resolved r
      /\ ok r = true
      /\ fetch_listener origin request Rejected cs = (RespondedWith s (Some r), cs).
Proof.
  intros origin fetch request a Hdone Ha Hm Hu cs.
  unfold first_visit in *. cbn [fst snd] in *.
  rewrite install_empty in Hdone. subst cs. rewrite install_empty.
  destruct (addAll origin fetch STATIC_ASSETS []) as [c|] eqn:Hadd;
    [|discriminate Hdone].
  cbn [snd].
  change (activate [(STATIC_CACHE, c)]) with [(STATIC_CACHE, c)].
  set (cs := [(STATIC_CACHE, c)]).
  destruct (proj1 (addAll_stores _ _ _ _ _ Hadd) a Ha) as (r & Hf & Hr & Hmatch).
  assert (Hcm : caches_match cs (url request) = Some r).
  { subst cs. rewrite Hu. simpl. by rewrite Hmatch. }
  destruct (select_strategy_get request Hm) as [s Hs].
  exists s, r. repeat split; try assumption.
  unfold fetch_listener. rewrite Hs.
  by rewrite (apply_strategy_offline_cached s origin request r cs Hcm).
Qed.

(** ** Background sync, interrupted *)

Lemma db_delete_other (store : list SyncRecord.t) key :
  ~ In key (map SyncRecord.id store) -> db_delete store key = store.
Proof.
  unfold db_delete. induction store as [|u store IH]; simpl; [reflexivity|].
  intros Hn. destruct (SyncRecord.id u =? key)%Z eqn:E.
  - apply Z.eqb_eq in E. exfalso. apply Hn. by left.
  - simpl. f_equal. apply IH. intros H. apply Hn. by right.
Qed.

Lemma sync_loop_rejected answers pending : forall n k store rest,
  NoDup (map SyncRecord.id (pending ++ rest)) ->
  store = (pending ++ rest)%list ->
  (k < length pending)%nat ->
  answers (n + k)%nat = Rejected ->
  (forall j, (j < k)%nat -> answers (n + j)%nat <> Rejected) ->
  sync_loop pending answers n store = (drop k pending ++ rest, SyncRetry)%list.
Proof.
  induction pending as [|p pending IH]; intros n k store rest Hnd -> Hk Hrej Hbefore.
  - simpl in Hk. lia.
  - simpl. destruct k as [|k].
    + rewrite Nat.add_0_r in Hrej. rewrite Hrej. reflexivity.
    + destruct (answers n) eqn:Ha.
      { exfalso. apply (Hbefore 0%nat); [lia|]. by rewrite Nat.add_0_r. }
      simpl in Hnd. apply NoDup_cons in Hnd as [Hp Hnd].
      unfold db_delete at 1. simpl. rewrite Z.eqb_refl. simpl.
      fold (db_delete (pending ++ rest) (SyncRecord.id p)).
      rewrite db_delete_other.
      * apply IH; try assumption; try reflexivity.
        -- simpl in Hk. lia.
        -- by replace (S n + k)%nat with (n + S k)%nat by lia.
        -- intros j Hj. replace (S n + j)%nat with (n + S j)%nat by lia.
           apply Hbefore. lia.
      * intros Hin. apply Hp. by apply list_elem_of_In.
Qed.

(** A sync that is interrupted keeps what it has not sent: when the fetch
    of the update of rank [k] is the first to be rejected, the updates before it
    are deleted, that update and those after it stay in the object store, in
    order, and the sync asks to be retried. *)
Theorem interrupted_sync_keeps_the_unsent_updates :
  forall (store : list SyncRecord.t) (answers : nat -> FetchResult) (k : nat),
    NoDup (map SyncRecord.id store) ->
    (k < length store)%nat ->
    answers k = Rejected ->
    (forall j, (j < k)%nat -> answers j <> Rejected) ->
    syncResolutions (Some store) answers = (Some (drop k store), SyncRetry).
Proof.
  intros store answers k Hnd Hk Hrej Hbefore. unfold syncResolutions.
  rewrite (sync_loop_rejected answers store 0 k store []);
    rewrite ?app_nil_r; try assumption; try reflexivity.
Qed.

End ServiceWorkerMore.

(** * More properties of the component *)

Module TrackerMore.
Import Tracker TrackerFacts Creation.

#[local] Arguments fetchResolutions : simpl never.
#[local] Arguments syncPendingUpdates : simpl never.
#[local] Arguments updateProgress : simpl never.
#[local] Arguments addResolution : simpl never.

(** ** Refresh *)

(** The cases of a refresh. *)
Lemma fetchResolutions_cases :
  forall (cl : Closure) (w : World),
    let data := json_or_null (list_outcome (env w) (length (calls w))) in
    let w' := exec (fetchResolutions cl) w in
    pendingUpdates (state w') = pendingUpdates (state w)
    /\ isLoading (state w') = false
    /\ (cl_isOnline cl = false ->
        calls w' = calls w
        /\ resolutions (state w') = resolutions (state w)
        /\ localStorage w' = localStorage w
        /\ syncStatus (state w') = Offline)
    /\ (cl_isOnline cl = true ->
        calls w' = (calls w ++ [ListCall])%list
        /\ (non_empty_array data = true ->
            resolutions (state w') = default [] data
            /\ syncStatus (state w') = Synced)
        /\ (non_empty_array data = false ->
            no_cached_records (stored_resolutions (localStorage w !! "resolutions")) = true ->
            resolutions (state w') = getDemoData
            /\ syncStatus (state w') = Demo)
        /\ (non_empty_array data = false ->
            no_cached_records (stored_resolutions (localStorage w !! "resolutions")) = false ->
            resolutions (state w') = resolutions (state w)
            /\ localStorage w' = localStorage w
            /\ syncStatus (state w') = Offline)).
Proof.
  intros cl w data w'. subst data w'. unfold fetchResolutions.
  destruct (cl_isOnline cl); prim.
  - split; [mcases; reflexivity|]. split; [mcases; reflexivity|].
    split; [discriminate|]. intros _. split; [mcases; reflexivity|].
    split; [|split].
    + intros ->. simpl. mcases; split; reflexivity.
    + intros Hd Hc. rewrite Hd. simpl. rewrite Hc. simpl. split; reflexivity.
    + intros Hd Hc. rewrite Hd. simpl. rewrite Hc. simpl. repeat split; reflexivity.
  - repeat split; try reflexivity; discriminate.
Qed.

(** What a refresh does, case by case. Offline it sends nothing and only
    sets the status. Online it sends one List request; a non-empty answer
    replaces the records wholesale (status [Synced]); otherwise the records in
    memory are kept (status [Offline]) unless storage holds none, in which case
    the demo data replace them (status [Demo]). The queue is never touched. *)
Theorem refresh_outcomes :
  forall (cl : Closure) (w : World),
    let data := json_or_null (list_outcome (env w) (length (calls w))) in
    let w' := exec (fetchResolutions cl) w in
    pendingUpdates (state w') = pendingUpdates (state w)
    /\ isLoading (state w') = false
    /\ (cl_isOnline cl = false ->
        calls w' = calls w
        /\ resolutions (state w') = resolutions (state w)
        /\ localStorage w' = localStorage w
        /\ syncStatus (state w') = Offline)
    /\ (cl_isOnline cl = true ->
        calls w' = (calls w ++ [ListCall])%list
        /\ (non_empty_array data = true ->
            resolutions (state w') = default [] data
            /\ syncStatus (state w') = Synced)
        /\ (non_empty_array data = false ->
            no_cached_records (stored_resolutions (localStorage w !! "resolutions")) = true ->
            resolutions (state w') = getDemoData
            /\ syncStatus (state w') = Demo)
        /\ (non_empty_array data = false ->
            no_cached_records (stored_resolutions (localStorage w !! "resolutions")) = false ->
            resolutions (state w') = resolutions (state w)
            /\ localStorage w' = localStorage w
            /\ syncStatus (state w') = Offline)).
Proof.
  intros cl w. exact (fetchResolutions_cases cl w).
Qed.

Lemma fetchResolutions_keeps_records cl w :
  resolutions (state w) <> [] ->
  resolutions (state (exec (fetchResolutions cl) w)) <> [].
Proof.
  intros Hne.
  destruct (fetchResolutions_cases cl w) as (_ & _ & Hoff & Hon).
  destruct (cl_isOnline cl).
  - destruct (Hon eq_refl) as (_ & Hdata & Hdemo & Hkeep).
    destruct (non_empty_array (json_or_null (list_outcome (env w) (length (calls w)))))
      eqn:Hd.
    + destruct (Hdata eq_refl) as [-> _].
      destruct (json_or_null (list_outcome (env w) (length (calls w)))) as [[|x l]|];
        simpl in *; discriminate.
    + destruct (no_cached_records (stored_resolutions (localStorage w !! "resolutions")))
        eqn:Hc.
      * destruct (Hdemo eq_refl eq_refl) as [-> _]. discriminate.
      * destruct (Hkeep eq_refl eq_refl) as (-> & _). exact Hne.
  - destruct (Hoff eq_refl) as (_ & -> & _). exact Hne.
Qed.

(** ** Creation *)

#[local] Opaque fetchResolutions.

Lemma addResolution_blank cl modal now today created w :
  js_blank (NewResolution.title (newResolution modal)) = true ->
  run (addResolution cl modal now today created) w = ((modal, []), w).
Proof. intros Hb. unfold addResolution. rewrite Hb. by destruct w. Qed.

Lemma addResolution_offline cl modal now today created w :
  js_blank (NewResolution.title (newResolution modal)) = false ->
  cl_isOnline cl = false ->
  let res := run (addResolution cl modal now today created) w in
  fst res = (mkModal false blank_form, [])
  /\ resolutions (state (snd res))
     = (resolutions (state w) ++ [new_record (newResolution modal) now today])%list
  /\ calls (snd res) = calls w
  /\ pendingUpdates (state (snd res)) = pendingUpdates (state w)
  /\ syncStatus (state (snd res)) = syncStatus (state w).
Proof.
  intros Hb Ho. unfold addResolution. rewrite Hb, Ho. prim.
  mcases; repeat split; reflexivity.
Qed.

Lemma addResolution_failed cl modal now today created w :
  js_blank (NewResolution.title (newResolution modal)) = false ->
  cl_isOnline cl = true ->
  has_truthy_id (json_or_null created) = false ->
  let res := run (addResolution cl modal now today created) w in
  fst res = (mkModal false blank_form, [new_record (newResolution modal) now today])
  /\ resolutions (state (snd res))
     = (resolutions (state w) ++ [new_record (newResolution modal) now today])%list
  /\ calls (snd res) = calls w
  /\ pendingUpdates (state (snd res)) = pendingUpdates (state w)
  /\ syncStatus (state (snd res)) = Error.
Proof.
  intros Hb Ho Hid. unfold addResolution. rewrite Hb, Ho, Hid. prim.
  mcases; repeat split; reflexivity.
Qed.

Lemma addResolution_created cl modal now today created w :
  js_blank (NewResolution.title (newResolution modal)) = false ->
  cl_isOnline cl = true ->
  has_truthy_id (json_or_null created) = true ->
  let res := run (addResolution cl modal now today created) w in
  let resolution := new_record (newResolution modal) now today in
  let data := json_or_null (list_outcome (env w) (length (calls w))) in
  fst res = (mkModal false blank_form, [resolution])
  /\ syncStatus (state (snd res)) = Synced
  /\ calls (snd res) = (calls w ++ [ListCall])%list
  /\ pendingUpdates (state (snd res)) = pendingUpdates (state w)
  /\ (non_empty_array data = true -> resolutions (state (snd res)) = default [] data)
  /\ (non_empty_array data = false -> setItem_throws (env w) = false ->
      resolutions (state (snd res)) = (resolutions (state w) ++ [resolution])%list).
Proof.
  intros Hb Ho Hid res resolution data. subst res.
  unfold addResolution. rewrite Hb, Ho, Hid.
  fold resolution.
  set (w1 := exec (setResolutions (fun prev => (prev ++ [resolution])%list);;
                   setSyncStatus Syncing) w).
  assert (Hw1 : calls w1 = calls w /\ env w1 = env w
                /\ pendingUpdates (state w1) = pendingUpdates (state w)
                /\ resolutions (state w1) = (resolutions (state w) ++ [resolution])%list
                /\ (setItem_throws (env w) = false ->
                    localStorage w1 !! "resolutions"
                    = Some (StoredResolutions (resolutions (state w) ++ [resolution])%list))).
  { subst w1. prim.
    assert ((0 <? length (resolutions (state w) ++ [resolution]))%nat = true) as ->.
    { rewrite length_app. simpl. apply Nat.ltb_lt. lia. }
    simpl. repeat split. intros ->. by rewrite lookup_insert_eq. }
  destruct Hw1 as (Hc1 & He1 & Hq1 & Hr1 & Hl1).
  destruct (fetchResolutions_cases cl w1) as (Hq & _ & _ & Hon).
  destruct (Hon Ho) as (Hc & Hdata & _ & Hkeep).
  rewrite He1, Hc1 in Hdata, Hkeep. fold data in Hdata, Hkeep.
  assert (E : run (setResolutions (fun prev => (prev ++ [resolution])%list);;
                   (setSyncStatus Syncing;;
                    (fetchResolutions cl;; (setSyncStatus Synced;;
                     mret (mkModal false blank_form, [resolution]))))) w
              = ((mkModal false blank_form, [resolution]),
                 exec (setSyncStatus Synced) (exec (fetchResolutions cl) w1))).
  { reflexivity. }
  rewrite E. cbn [fst snd]. prim.
  unfold exec in Hq, Hc, Hdata, Hkeep.
  repeat split.
  - rewrite Hc. by rewrite Hc1.
  - rewrite Hq. exact Hq1.
  - intros Hd. exact (proj1 (Hdata Hd)).
  - intros Hd Ht. rewrite <- Hr1. apply Hkeep; [exact Hd|].
    rewrite (Hl1 Ht). simpl. rewrite length_app. simpl.
    apply Nat.eqb_neq. lia.
Qed.

#[local] Transparent fetchResolutions.

(** Creation is local first and is never queued. A blank title does
    nothing at all. Otherwise the dialog closes, the form is reset and the new
    record, which has no remote id, is appended; offline nothing else
    happens: no request is sent and no pending update is created, so the
    record stays local. In no case does [addResolution] touch the queue. *)
Theorem creation_is_local_first_and_never_queued :
  forall (cl : Closure) (modal : Modal) (now : Z) (today : string)
         (created : FetchOutcome Json) (w : World),
    let res := run (addResolution cl modal now today created) w in
    let resolution := new_record (newResolution modal) now today in
    pendingUpdates (state (snd res)) = pendingUpdates (state w)
    /\ Resolution.notionPageId resolution = None
    /\ (js_blank (NewResolution.title (newResolution modal)) = true ->
        res = ((modal, []), w))
    /\ (js_blank (NewResolution.title (newResolution modal)) = false ->
        cl_isOnline cl = false ->
        fst res = (mkModal false blank_form, [])
        /\ resolutions (state (snd res)) = (resolutions (state w) ++ [resolution])%list
        /\ calls (snd res) = calls w
        /\ syncStatus (state (snd res)) = syncStatus (state w)).
Proof.
  intros cl modal now today created w res resolution. subst res.
  split; [|split; [reflexivity|split]].
  - destruct (js_blank (NewResolution.title (newResolution modal))) eqn:Hb.
    { by rewrite addResolution_blank. }
    destruct (cl_isOnline cl) eqn:Ho.
    + destruct (has_truthy_id (json_or_null created)) eqn:Hid.
      * by destruct (addResolution_created cl modal now today created w Hb Ho Hid)
          as (_ & _ & _ & Hq & _).
      * by destruct (addResolution_failed cl modal now today created w Hb Ho Hid)
          as (_ & _ & _ & Hq & _).
    + by destruct (addResolution_offline cl modal now today created w Hb Ho)
        as (_ & _ & _ & Hq & _).
  - intros Hb. by apply addResolution_blank.
  - intros Hb Ho.
    destruct (addResolution_offline cl modal now today created w Hb Ho)
      as (Hm & Hr & Hc & _ & Hs).
    repeat split; assumption.
Qed.

(** A creation the proxy does not confirm (the POST fails, or its answer
    has no [id]) leaves the record in the list without remote id and shows
    [Error]; it is posted once and not kept for a retry. *)
Theorem failed_creation_keeps_the_record_local :
  forall (cl : Closure) (modal : Modal) (now : Z) (today : string)
         (created : FetchOutcome Json) (w : World),
    js_blank (NewResolution.title (newResolution modal)) = false ->
    cl_isOnline cl = true ->
    has_truthy_id (json_or_null created) = false ->
    let res := run (addResolution cl modal now today created) w in
    let resolution := new_record (newResolution modal) now today in
    fst res = (mkModal false blank_form, [resolution])
    /\ resolutions (state (snd res)) = (resolutions (state w) ++ [resolution])%list
    /\ calls (snd res) = calls w
    /\ pendingUpdates (state (snd res)) = pendingUpdates (state w)
    /\ syncStatus (state (snd res)) = Error.
Proof.
  intros cl modal now today created w Hb Ho Hid.
  exact (addResolution_failed cl modal now today created w Hb Ho Hid).
Qed.

(** A creation the proxy confirms is followed by one refresh, and the
    status ends as [Synced] whatever the refresh did: a non-empty list replaces
    the records, and when the List request fails the records in memory, the new
    one included, stay as they are under a status that still says [Synced]. *)
Theorem confirmed_creation_ends_synced_whatever_the_refresh :
  forall (cl : Closure) (modal : Modal) (now : Z) (today : string)
         (created : FetchOutcome Json) (w : World),
    js_blank (NewResolution.title (newResolution modal)) = false ->
    cl_isOnline cl = true ->
    has_truthy_id (json_or_null created) = true ->
    let res := run (addResolution cl modal now today created) w in
    let resolution := new_record (newResolution modal) now today in
    let data := json_or_null (list_outcome (env w) (length (calls w))) in
    fst res = (mkModal false blank_form, [resolution])
    /\ syncStatus (state (snd res)) = Synced
    /\ calls (snd res) = (calls w ++ [ListCall])%list
    /\ (non_empty_array data = true -> resolutions (state (snd res)) = default [] data)
    /\ (non_empty_array data = false -> setItem_throws (env w) = false ->
        resolutions (state (snd res)) = (resolutions (state w) ++ [resolution])%list).
Proof.
  intros cl modal now today created w Hb Ho Hid.
  destruct (addResolution_created cl modal now today created w Hb Ho Hid)
    as (Hm & Hs & Hc & _ & Hd & Hk).
  repeat split; assumption.
Qed.

(** ** Mutations in sequence *)

Lemma progress_updater_shape id c d prev :
  Forall2 (fun r r' => r' = r \/ (Resolution.id r = id
                                  /\ r' = Resolution.with_progress r c d))
          prev (progress_updater id c d prev).
Proof.
  unfold progress_updater. induction prev as [|r prev IH]; simpl; constructor;
    [|exact IH].
  destruct (String.eqb (Resolution.id r) id) eqn:E; [|by left].
  right. split; [by apply String.eqb_eq | reflexivity].
Qed.

(** A progress mutation changes nothing but [current] and [lastCheckin] of
    the records that bear the id: the list keeps its length, its order and its
    ids, and title, category, target, unit, frequency, streak and remote id of
    every record stay as they were. An id that no record bears changes
    nothing at all. *)
Theorem progress_mutation_changes_two_fields_only :
  forall (w : World) (id : string) (increment : Z) (today : string) (now : Z),
    let w' := exec (updateProgress (render (state w)) id increment today now) w in
    Forall2 (fun r r' =>
               r' = r
               \/ (Resolution.id r = id
                   /\ exists c, r' = Resolution.with_progress r c today))
            (resolutions (state w)) (resolutions (state w'))
    /\ map Resolution.id (resolutions (state w')) = map Resolution.id (resolutions (state w))
    /\ map Resolution.streak (resolutions (state w'))
       = map Resolution.streak (resolutions (state w))
    /\ map Resolution.notionPageId (resolutions (state w'))
       = map Resolution.notionPageId (resolutions (state w))
    /\ (find_resolution (resolutions (state w)) id = None -> w' = w).
Proof.
  intros w id increment today now w'.
  assert (Hshape : Forall2 (fun r r' =>
               r' = r
               \/ (Resolution.id r = id
                   /\ exists c, r' = Resolution.with_progress r c today))
            (resolutions (state w)) (resolutions (state w'))).
  { subst w'.
    destruct (find_resolution (resolutions (state w)) id) as [r|] eqn:Hf.
    - rewrite (updateProgress_resolutions (render (state w)) id increment today now w r Hf).
      eapply Forall2_impl; [apply progress_updater_shape|].
      intros x y [H | [H1 H2]]; [by left | right; eauto].
    - rewrite updateProgress_not_found by exact Hf.
      apply Forall2_same_length_lookup_2; [reflexivity|].
      intros i x y Hx Hy. left. congruence. }
  split; [exact Hshape|].
  assert (Hmap : forall (B : Type) (f : Resolution.t -> B),
            (forall r c, f (Resolution.with_progress r c today) = f r) ->
            map f (resolutions (state w')) = map f (resolutions (state w))).
  { intros B f Hfp. induction Hshape as [|r r' l l' Hr _ IH]; simpl; [reflexivity|].
    f_equal; [|exact IH]. destruct Hr as [-> | (_ & c & ->)]; [reflexivity | apply Hfp]. }
  repeat split; try (apply Hmap; reflexivity).
  intros Hf. subst w'. by apply updateProgress_not_found.
Qed.

(** A record that has no remote id is mutated in memory and nowhere else:
    no request is sent, no pending update is created and the status is left
    alone, online or offline. *)
Theorem local_record_is_mutated_locally_only :
  forall (w : World) (id : string) (increment : Z) (today : string) (now : Z)
         (resolution : Resolution.t),
    find_resolution (resolutions (state w)) id = Some resolution ->
    opt_str_truthy (Resolution.notionPageId resolution) = false ->
    let w' := exec (updateProgress (render (state w)) id increment today now) w in
    find_resolution (resolutions (state w')) id
      = Some (Resolution.with_progress resolution
                (Z.max 0 (Resolution.current resolution + increment)) today)
    /\ calls w' = calls w
    /\ pendingUpdates (state w') = pendingUpdates (state w)
    /\ syncStatus (state w') = syncStatus (state w).
Proof.
  intros w id increment today now resolution Hf Hp w'.
  destruct (updateProgress_local_only (render (state w)) id increment today now w
              resolution Hf Hp) as (Hc & Hq & Hs).
  split; [|repeat split; assumption].
  subst w'.
  rewrite (updateProgress_resolutions (render (state w)) id increment today now w
             resolution Hf).
  by apply progress_updater_find.
Qed.

Lemma last_cons {A : Type} (x : A) (l : list A) (d : A) :
  List.last (x :: l) d = List.last l x.
Proof.
  revert x d. induction l as [|y l IH]; intros x d; [reflexivity|].
  change (List.last (x :: y :: l) d) with (List.last (y :: l) d).
  by rewrite (IH y d), (IH y x).
Qed.

Lemma offline_click_step a id c r p :
  find_resolution (resolutions (state (world a))) id = Some r ->
  Resolution.notionPageId r = Some p ->
  str_truthy p = true ->
  isOnline (state (world a)) = false ->
  let a' := step a (click id c) in
  let v := Z.max 0 (Resolution.current r + fst (fst c)) in
  find_resolution (resolutions (state (world a'))) id
    = Some (Resolution.with_progress r v (snd (fst c)))
  /\ isOnline (state (world a')) = false
  /\ calls (world a') = calls (world a)
  /\ pendingUpdates (state (world a'))
     = (pendingUpdates (state (world a))
        ++ [PendingUpdate.mk p (Updates.mk v (snd (fst c))) (snd c)])%list.
Proof.
  intros Hf Hp Ht Ho a' v. subst a'. unfold step, click. cbn [world].
  destruct (updateProgress_offline (render (state (world a))) id (fst (fst c))
              (snd (fst c)) (snd c) (world a) r p Hf Hp Ht Ho) as (Hc & Hq & _).
  destruct (updateProgress_flags (render (state (world a))) id (fst (fst c))
              (snd (fst c)) (snd c) (world a)) as (_ & _ & Hon & _).
  split; [|split; [congruence | split; assumption]].
  rewrite (updateProgress_resolutions (render (state (world a))) id (fst (fst c))
             (snd (fst c)) (snd c) (world a) r Hf).
  by apply progress_updater_find.
Qed.

(** Offline, the queue records the running value of a counter. After any
    sequence of clicks on a record that has a remote id, no request was sent
    and the queue has grown by one update per click, in click order, each
    carrying the page id, the time of its click and the absolute value the
    counter had after it; the record shows the last of these values. *)
Theorem offline_clicks_queue_the_running_values :
  forall (clicks : list (Z * string * Z)) (a : App) (id : string)
         (r : Resolution.t) (p : string),
    find_resolution (resolutions (state (world a))) id = Some r ->
    Resolution.notionPageId r = Some p ->
    str_truthy p = true ->
    isOnline (state (world a)) = false ->
    let a' := steps a (map (click id) clicks) in
    let values := running (Resolution.current r) (map (fun c => fst (fst c)) clicks) in
    calls (world a') = calls (world a)
    /\ (exists queued,
          pendingUpdates (state (world a'))
          = (pendingUpdates (state (world a)) ++ queued)%list
          /\ map (fun u => Updates.current (PendingUpdate.updates u)) queued = values
          /\ map PendingUpdate.timestamp queued = map snd clicks
          /\ Forall (fun u => PendingUpdate.pageId u = p) queued)
    /\ (exists r',
          find_resolution (resolutions (state (world a'))) id = Some r'
          /\ Resolution.current r' = List.last values (Resolution.current r)).
Proof.
  induction clicks as [|c clicks IH]; intros a id r p Hf Hp Ht Ho a' values.
  - subst a' values. simpl. split; [reflexivity|]. split.
    + exists []. rewrite app_nil_r. repeat split; constructor.
    + exists r. split; [exact Hf | reflexivity].
  - destruct (offline_click_step a id c r p Hf Hp Ht Ho) as (Hf1 & Ho1 & Hc1 & Hq1).
    set (v := Z.max 0 (Resolution.current r + fst (fst c))) in *.
    specialize (IH (step a (click id c)) id
                   (Resolution.with_progress r v (snd (fst c))) p Hf1 Hp Ht Ho1).
    cbn zeta in IH. destruct IH as (Hc & (queued & Hq & Hv & Hts & Hpg) & (r' & Hf' & Hr')).
    subst a' values. unfold steps in *. simpl map. simpl fold_left.
    split; [congruence|]. split.
    + exists (PendingUpdate.mk p (Updates.mk v (snd (fst c))) (snd c) :: queued).
      split; [rewrite Hq, Hq1, <- app_assoc; reflexivity|].
      simpl. fold v. split; [by rewrite Hv|]. split; [by rewrite Hts|].
      by constructor.
    + exists r'. split; [exact Hf'|]. rewrite Hr'. simpl running. fold v.
      by rewrite last_cons.
Qed.

(** ** The list never empties *)

Lemma step_keeps_records a ev :
  resolutions (state (world a)) <> [] ->
  resolutions (state (world (step a ev))) <> [].
Proof.
  intros Hne. unfold step. cbn [world]. destruct ev as [id inc today now| | |].
  - destruct (find_resolution (resolutions (state (world a))) id) as [r|] eqn:Hf.
    + rewrite (updateProgress_resolutions (render (state (world a))) id inc today now
                 (world a) r Hf).
      unfold progress_updater. intros E. apply map_eq_nil in E. by apply Hne.
    + by rewrite updateProgress_not_found.
  - by apply fetchResolutions_keeps_records.
  - unfold handleOnline.
    change (exec (setIsOnline true;; syncPendingUpdates (first_render a)) (world a))
      with (exec (syncPendingUpdates (first_render a)) (exec (setIsOnline true) (world a))).
    set (w1 := exec (setIsOnline true) (world a)).
    assert (Hr1 : resolutions (state w1) = resolutions (state (world a))) by reflexivity.
    destruct (cl_pendingUpdates (first_render a)) as [|u q] eqn:Hq.
    + unfold syncPendingUpdates. rewrite Hq. simpl. exact Hne.
    + destruct (syncPendingUpdates_run (first_render a) w1) as (_ & Hfail & Hok).
      { rewrite Hq. discriminate. }
      destruct (failed_updates (env w1) (length (calls w1)) (cl_pendingUpdates (first_render a)))
        eqn:Hfl.
      * rewrite (Hok eq_refl). apply fetchResolutions_keeps_records. exact Hne.
      * destruct (Hfail ltac:(discriminate)) as (_ & _ & _ & Hr & _).
        rewrite Hr, Hr1. exact Hne.
  - unfold handleOffline. prim. exact Hne.
Qed.

(** No event empties the list of records: once the component shows at
    least one record it shows at least one after every click, refresh and
    connectivity event, so the guard of the storage effect never holds back a
    write from then on. *)
Theorem records_never_vanish :
  forall (evs : list Event) (a : App),
    resolutions (state (world a)) <> [] ->
    resolutions (state (world (steps a evs))) <> [].
Proof.
  induction evs as [|ev evs IH]; intros a Hne; [exact Hne|].
  apply (IH (step a ev)), step_keeps_records, Hne.
Qed.

(** ** Across sessions *)

Lemma mount_offline e ls :
  let w := world (mount e ls false) in
  resolutions (state w) = default [] (stored_resolutions (ls !! "resolutions"))
  /\ pendingUpdates (state w) = default [] (stored_pendingUpdates (ls !! "pendingUpdates"))
  /\ calls w = []
  /\ syncStatus (state w) = Offline
  /\ isOnline (state w) = false
  /\ env w = e.
Proof.
  intros w. subst w. rewrite mount_world.
  set (w1 := exec (save_resolutions_effect;; save_pendingUpdates_effect)
                  (mkWorld e (initial_state ls false) ls [])).
  assert (Hw1 : state w1 = initial_state ls false /\ calls w1 = [] /\ env w1 = e).
  { subst w1. prim. mcases; repeat split; reflexivity. }
  destruct Hw1 as (Hs1 & Hc1 & He1).
  destruct (fetchResolutions_cases (render (initial_state ls false)) w1)
    as (Hq & _ & Hoff & _).
  destruct (Hoff eq_refl) as (Hc & Hr & _ & Hst).
  destruct (fetchResolutions_frame (render (initial_state ls false)) w1)
    as (_ & Ho & He & _).
  rewrite Hr, Hq, Hc, Hst, Ho, He, Hs1, Hc1, He1. repeat split; reflexivity.
Qed.

(** Nothing is lost by closing the application. Whatever happened during
    a session whose storage accepts writes, opening the application again
    offline over the storage the session left starts with the same queue of
    pending updates and, when the session showed records, with the same
    records; no request is sent. *)
Theorem reload_restores_the_session :
  forall (e : Env) (ls : gmap string Stored) (navigator_onLine : bool)
         (evs : list Event) (e' : Env),
    setItem_throws e = false ->
    let before := world (steps (mount e ls navigator_onLine) evs) in
    let after := world (mount e' (localStorage before) false) in
    pendingUpdates (state after) = pendingUpdates (state before)
    /\ (resolutions (state before) <> [] ->
        resolutions (state after) = resolutions (state before))
    /\ calls after = [].
Proof.
  intros e ls b evs e' Ht before after.
  destruct (reachable_mirrored e ls b evs Ht) as (_ & Hq & Hr). fold before in Hq, Hr.
  destruct (mount_offline e' (localStorage before)) as (Hres & Hpq & Hc & _).
  fold after in Hres, Hpq, Hc.
  split; [by rewrite Hpq, Hq|]. split; [|exact Hc].
  intros Hne. by rewrite Hres, (Hr Hne).
Qed.

#[local] Opaque fetchResolutions.

(** Updates queued by an earlier session are replayed when connectivity
    returns. A component opened offline over a stored queue sends, at the
    [online] event, one PATCH per stored update, in order and nothing else; when
    none of them fails the queue ends empty, in memory and in storage. The
    refresh that follows is the one of the first render: it sends no request and
    leaves the status at [Offline] although the component is online. *)
Theorem stored_queue_is_replayed_when_connectivity_returns :
  forall (e : Env) (ls : gmap string Stored) (q : list PendingUpdate.t),
    stored_pendingUpdates (ls !! "pendingUpdates") = Some q ->
    q <> [] ->
    (forall i, (i < length q)%nat -> replay_fails e i = false) ->
    let w := world (step (mount e ls false) WindowOnline) in
    calls w = map patch_call q
    /\ pendingUpdates (state w) = []
    /\ isOnline (state w) = true
    /\ syncStatus (state w) = Offline
    /\ (setItem_throws e = false ->
        localStorage w !! "pendingUpdates" = Some (StoredPendingUpdates [])).
Proof.
  intros e ls q Hst Hne Hall w. subst w. unfold step. cbn [world first_render].
  set (first := first_render (mount e ls false)).
  assert (Hfirst : cl_pendingUpdates first = q /\ cl_isOnline first = false).
  { subst first. unfold mount. cbn [first_render]. unfold render, initial_state. simpl.
    by rewrite Hst. }
  destruct Hfirst as (Hfq & Hfo).
  destruct (mount_offline e ls) as (_ & _ & Hc0 & _ & _ & He0).
  set (w0 := world (mount e ls false)) in *.
  unfold handleOnline.
  change (exec (setIsOnline true;; syncPendingUpdates first) w0)
    with (exec (syncPendingUpdates first) (exec (setIsOnline true) w0)).
  set (w1 := exec (setIsOnline true) w0).
  assert (Hw1 : calls w1 = [] /\ env w1 = e /\ isOnline (state w1) = true).
  { subst w1. prim. by rewrite Hc0, He0. }
  destruct Hw1 as (Hc1 & He1 & Ho1).
  destruct (syncPendingUpdates_run first w1) as (_ & _ & Hok).
  { rewrite Hfq. exact Hne. }
  rewrite Hfq, He1, Hc1 in Hok. simpl length in Hok.
  assert (Hnil : failed_updates e 0 q = []).
  { apply failed_updates_nil_iff. intros i Hi. by apply Hall. }
  rewrite (Hok Hnil).
  match goal with |- context [exec (fetchResolutions first) ?x] => set (w2 := x) end.
  destruct (fetchResolutions_cases first w2) as (Hq & _ & Hoff & _).
  destruct (Hoff Hfo) as (Hc & _ & Hls & Hs).
  destruct (fetchResolutions_frame first w2) as (_ & Ho & _).
  rewrite Hc, Hq, Ho, Hs, Hls. subst w2. simpl.
  repeat split; try assumption.
  intros Ht. rewrite Ht. by rewrite lookup_insert_eq.
Qed.

#[local] Transparent fetchResolutions.

(** ** Statistics *)

Lemma getProgress_complete_iff r :
  0 < Resolution.target r ->
  js_ge (getProgress r) 100 = true <-> Resolution.target r <= Resolution.current r.
Proof.
  intros Ht. unfold getProgress, js_div.
  destruct (Resolution.target r =? 0) eqn:E; [apply Z.eqb_eq in E; lia|].
  simpl. rewrite Qle_bool_iff.
  destruct (Resolution.target r) as [|t|t] eqn:Et; try lia.
  rewrite Q.min_glb_iff.
  split.
  - intros [H _]. unfold Qle, Qdiv, Qmult, Qinv, inject_Z in H. simpl in H. nia.
  - intros H. split; [|apply Qle_refl].
    unfold Qle, Qdiv, Qmult, Qinv, inject_Z. simpl. nia.
Qed.

(** With positive targets, the records counted as completed are exactly
    those whose [current] has reached the target; going beyond the target
    neither adds nor removes a record from the count. *)
Theorem completed_means_target_reached :
  forall (rs : list Resolution.t),
    Forall (fun r => 0 < Resolution.target r) rs ->
    completedCount rs
    = length (List.filter (fun r => Resolution.target r <=? Resolution.current r) rs)
    /\ (completedCount rs <= length rs)%nat.
Proof.
  intros rs Hpos. unfold completedCount. split.
  - f_equal. apply filter_ext_in. intros r Hin.
    rewrite Forall_forall in Hpos.
    pose proof (getProgress_complete_iff r (Hpos r (proj2 (list_elem_of_In _ _) Hin))) as H.
    destruct (js_ge (getProgress r) 100).
    + symmetry. apply Z.leb_le, H. reflexivity.
    + symmetry. apply Z.leb_gt. destruct (Z.le_gt_cases (Resolution.target r)
                                            (Resolution.current r)) as [Hle | Hgt];
        [apply H in Hle; discriminate | lia].
  - apply List.filter_length_le.
Qed.

Lemma fold_max_ge (l : list Z) : forall z, z <= fold_left Z.max l z.
Proof.
  induction l as [|x l IH]; intros z; simpl; [lia|].
  etransitivity; [|apply IH]. lia.
Qed.

Lemma fold_max_bound (l : list Z) : forall z x, In x l -> x <= fold_left Z.max l z.
Proof.
  induction l as [|y l IH]; intros z x; simpl; [intros []|].
  intros [-> | Hin]; [|by apply IH].
  etransitivity; [|apply fold_max_ge]. lia.
Qed.

Lemma fold_max_attained (l : list Z) : forall z,
  fold_left Z.max l z = z \/ In (fold_left Z.max l z) l.
Proof.
  induction l as [|y l IH]; intros z; simpl; [by left|].
  destruct (IH (Z.max z y)) as [H | H]; [|right; by right].
  rewrite H. destruct (Z.max_spec z y) as [[_ ->] | [_ ->]]; [right; by left | by left].
Qed.

(** The longest streak shown is the streak of some record and no record
    has a longer one; it is 0 when there is no record. *)
Theorem maxStreak_is_the_longest_streak :
  forall (rs : list Resolution.t),
    (forall r, In r rs -> Resolution.streak r <= maxStreak rs)
    /\ (rs <> [] -> exists r, In r rs /\ Resolution.streak r = maxStreak rs)
    /\ (rs = [] -> maxStreak rs = 0).
Proof.
  intros rs. destruct rs as [|r0 rest]; simpl.
  - split; [intros r []|]. split; [intros H; by contradiction H | reflexivity].
  - split; [|split; [|discriminate]].
    + intros r [<- | Hin]; [apply fold_max_ge|].
      apply fold_max_bound. by apply in_map.
    + intros _.
      destruct (fold_max_attained (map Resolution.streak rest) (Resolution.streak r0))
        as [H | H].
      * exists r0. split; [by left | by rewrite H].
      * apply in_map_iff in H as (r & Hr & Hin). exists r. split; [by right | exact Hr].
Qed.

End TrackerMore.

(** * Properties of the proxy *)

Module ProxyFacts.
Import Proxy.

(** ** Validation *)

(** The handler sends at most one request to Notion, and none for a
    request it can refuse by itself: a preflight, a missing configuration, a
    PATCH or a DELETE without [pageId], a POST without [title], an unknown
    method. A PATCH with a [pageId] whose [updates] is [undefined] or [null]
    is not refused as a bad request: reading [updates.current] throws and it
    ends in the [catch], with status 500 and nothing sent. Any other
    [updates] passes: the page is updated with the properties built from the
    fields that are there, so a PATCH whose [updates] is a number, a string, a
    boolean or an empty object reaches Notion with no property at all. *)
Theorem invalid_requests_never_reach_notion :
  forall (cfg : Config) (method : string) (req_body : option Body.t)
         (notion : NotionAnswer),
    let r := handler cfg method req_body notion in
    (length (snd r) <= 1)%nat
    /\ (method = "OPTIONS" -> r = (mkProxyResponse 200 NoBody, []))
    /\ (method <> "OPTIONS" ->
        unset (NOTION_API_KEY cfg) || unset (NOTION_DATABASE_ID cfg) = true ->
        status (fst r) = 500 /\ snd r = [])
    /\ (unset (NOTION_API_KEY cfg) || unset (NOTION_DATABASE_ID cfg) = false ->
        (forall b, (method = "PATCH" \/ method = "DELETE") -> req_body = Some b ->
                   truthy_text (Body.pageId b) = false ->
                   status (fst r) = 400 /\ snd r = [])
        /\ (forall b, method = "POST" -> req_body = Some b ->
                      truthy_text (Body.title b) = false ->
                      status (fst r) = 400 /\ snd r = [])
        /\ (forall b, method = "PATCH" -> req_body = Some b ->
                      truthy_text (Body.pageId b) = true -> Body.updates b = Nullish ->
                      status (fst r) = 500 /\ snd r = [])
        /\ (method <> "GET" -> method <> "PATCH" -> method <> "POST" ->
            method <> "DELETE" -> method <> "OPTIONS" ->
            status (fst r) = 405 /\ snd r = [])
        /\ (forall b u, method = "PATCH" -> req_body = Some b ->
                        truthy_text (Body.pageId b) = true ->
                        Body.updates b = Fields u ->
                        snd r = [UpdatePage (text_or (Body.pageId b) empty_str)
                                            (patch_properties u)])
        /\ patch_properties no_fields
           = Properties.mk None None None None None None None None).
Proof.
  intros cfg method req_body notion r. subst r. unfold handler.
  split; [|split; [|split; [|]]].
  - repeat match goal with
           | |- context [if ?c then _ else _] => destruct c
           | |- context [match ?o with Some _ => _ | None => _ end] => destruct o
           | |- context [match ?o with Nullish => _ | Fields _ => _ end] => destruct o
           end; simpl; lia.
  - intros ->. reflexivity.
  - intros Hm Hu. apply String.eqb_neq in Hm. rewrite Hm, Hu. split; reflexivity.
  - intros Hu. rewrite Hu.
    split; [|split; [|split; [|split; [|split]]]].
    + intros b [-> | ->] -> Hp; simpl; rewrite Hp; split; reflexivity.
    + intros b -> -> Ht. simpl. rewrite Ht. split; reflexivity.
    + intros b -> -> Hp Hup. simpl. rewrite Hp, Hup. split; reflexivity.
    + intros H1 H2 H3 H4 H5.
      apply String.eqb_neq in H1, H2, H3, H4, H5. rewrite H1, H2, H3, H4, H5.
      split; reflexivity.
    + intros b u -> -> Hp Hup. simpl. rewrite Hp, Hup. reflexivity.
    + reflexivity.
Qed.

(** ** Updates *)

Lemma configured cfg :
  unset (NOTION_API_KEY cfg) || unset (NOTION_DATABASE_ID cfg) = false ->
  exists key db, NOTION_API_KEY cfg = Some key /\ NOTION_DATABASE_ID cfg = Some db
                 /\ str_truthy key = true /\ str_truthy db = true.
Proof.
  unfold unset. intros H. apply orb_false_iff in H as [H1 H2].
  apply negb_false_iff in H1, H2.
  destruct (NOTION_API_KEY cfg) as [key|]; [|discriminate].
  destruct (NOTION_DATABASE_ID cfg) as [db|]; [|discriminate].
  by exists key, db.
Qed.

Lemma patch_request_sent cfg pageId u notion :
  unset (NOTION_API_KEY cfg) || unset (NOTION_DATABASE_ID cfg) = false ->
  str_truthy pageId = true ->
  snd (handler cfg "PATCH" (Some (patch_body pageId u)) notion)
  = [ UpdatePage pageId
        (Properties.mk None None None
                       (Some (Some (Tracker.Updates.current u)))
                       None None None
                       (if str_truthy (Tracker.Updates.lastCheckin u)
                        then Some (Tracker.Updates.lastCheckin u) else None)) ].
Proof.
  intros Hc Hp. unfold handler. rewrite Hc. simpl.
  rewrite Hp. simpl. reflexivity.
Qed.

(** How the component reads the answer to one of its own updates. *)
Lemma patch_answer_truthy cfg pageId u notion exn :
  unset (NOTION_API_KEY cfg) || unset (NOTION_DATABASE_ID cfg) = false ->
  str_truthy pageId = true ->
  Tracker.result_truthy
    (Tracker.json_or_null
       (seen exn (fst (handler cfg "PATCH" (Some (patch_body pageId u)) notion))))
  = match notion with
    | Answered s (JsonValue _ _ _) => ok_status s
    | _ => false
    end.
Proof.
  intros Hc Hp. unfold handler. rewrite Hc. simpl. rewrite Hp. simpl.
  unfold relay. destruct notion as [|s nb]; [reflexivity|].
  destruct (ok_status s) eqn:Hs.
  - destruct nb as [| |results id raw]; reflexivity.
  - destruct nb as [| |results id raw]; unfold seen; simpl; rewrite ?Hs; reflexivity.
Qed.

Lemma post_request_sent cfg r notion :
  unset (NOTION_API_KEY cfg) || unset (NOTION_DATABASE_ID cfg) = false ->
  str_truthy (Tracker.Resolution.title r) = true ->
  snd (handler cfg "POST" (Some (record_body r)) notion)
  = [ CreatePage (default empty_str (NOTION_DATABASE_ID cfg))
                 (create_properties (record_body r)) ].
Proof.
  intros Hc Ht. unfold handler. rewrite Hc. simpl. rewrite Ht. reflexivity.
Qed.

(** How the component reads the answer to one of its own creations. *)
Lemma post_answer_id cfg r notion exn :
  unset (NOTION_API_KEY cfg) || unset (NOTION_DATABASE_ID cfg) = false ->
  str_truthy (Tracker.Resolution.title r) = true ->
  Creation.has_truthy_id
    (Tracker.json_or_null
       (seen exn (fst (handler cfg "POST" (Some (record_body r)) notion))))
  = match notion with
    | Answered s (JsonValue _ (Some i) _) => ok_status s && str_truthy i
    | _ => false
    end.
Proof.
  intros Hc Ht. unfold handler. rewrite Hc. simpl. rewrite Ht. simpl.
  unfold relay. destruct notion as [|s nb]; [reflexivity|].
  destruct (ok_status s) eqn:Hs.
  - destruct nb as [| |results [i|] raw]; try reflexivity.
  - destruct nb as [| |results [i|] raw]; unfold seen; simpl; rewrite ?Hs; reflexivity.
Qed.

(** The component is told that an update succeeded exactly when Notion
    accepted it: the result of [notionService.updateResolution] on the answer
    of the handler is truthy if and only if the proxy is configured, the body
    has a [pageId] and an [updates] that is neither [undefined] nor [null]
    (an object, but also a number, a string or a boolean, which update the
    page with no property), and Notion answered with a success status and a
    JSON value. Whatever happens, the answer to a PATCH carries a JSON
    object. *)
Theorem update_is_confirmed_iff_notion_accepted :
  forall (cfg : Config) (req_body : option Body.t) (notion : NotionAnswer)
         (exn : string),
    let answer := seen exn (fst (handler cfg "PATCH" req_body notion)) in
    Tracker.proxy_answer answer
    /\ (Tracker.result_truthy (Tracker.json_or_null answer) = true
        <-> unset (NOTION_API_KEY cfg) || unset (NOTION_DATABASE_ID cfg) = false
            /\ (exists b u, req_body = Some b
                            /\ truthy_text (Body.pageId b) = true
                            /\ Body.updates b = Fields u)
            /\ (exists s results id raw,
                  notion = Answered s (JsonValue results id raw)
                  /\ ok_status s = true)).
Proof.
  intros cfg req_body notion exn answer. subst answer. unfold handler. simpl.
  destruct (unset (NOTION_API_KEY cfg) || unset (NOTION_DATABASE_ID cfg)) eqn:Hc.
  { split; [simpl; eauto|]. split; [discriminate|]. intros [H _]. discriminate. }
  destruct req_body as [b|].
  2:{ split; [simpl; eauto|]. split; [discriminate|].
      intros (_ & (b & u & H & _) & _). discriminate. }
  destruct (truthy_text (Body.pageId b)) eqn:Hp; simpl.
  2:{ split; [eauto|]. split; [discriminate|].
      intros (_ & (b' & u & [= <-] & H & _) & _). congruence. }
  destruct (Body.updates b) as [|u] eqn:Hu.
  { split; [simpl; eauto|]. split; [discriminate|].
    intros (_ & (b' & u & [= <-] & _ & H) & _). congruence. }
  unfold relay. destruct notion as [|s nb].
  { split; [simpl; eauto|]. split; [discriminate|].
    intros (_ & _ & (s & results & id & raw & H & _)). discriminate. }
  destruct (ok_status s) eqn:Hs.
  - destruct nb as [| |results id raw]; simpl.
    + split; [eauto|]. split; [discriminate|].
      intros (_ & _ & (s' & results & id & raw & H & _)). discriminate.
    + split; [eauto|]. split; [discriminate|].
      intros (_ & _ & (s' & results & id & raw & H & _)). discriminate.
    + split; [destruct id; eauto|]. split.
      * intros _. split; [reflexivity|]. split; [by exists b, u|].
        by exists s, results, id, raw.
      * intros _. reflexivity.
  - destruct nb as [| |results id raw]; unfold seen; simpl; rewrite ?Hs; simpl.
    + split; [eauto|]. split; [discriminate|].
      intros (_ & _ & (s' & results & id & raw & H & _)). discriminate.
    + split; [eauto|]. split; [discriminate|].
      intros (_ & _ & (s' & results & id & raw & H & _)). discriminate.
    + split; [eauto|]. split; [discriminate|].
      intros (_ & _ & (s' & results' & id' & raw' & [= -> _ _ _] & H)). congruence.
Qed.

(** ** Listing *)

Lemma transform_all_spec pages :
  match transform_all pages with
  | Some rs =>
      Forall (fun p => properties p <> None) pages
      /\ map Tracker.Resolution.id rs = map page_id pages
      /\ Forall (fun r => Tracker.Resolution.notionPageId r
                          = Some (Tracker.Resolution.id r)) rs
  | None => Exists (fun p => properties p = None) pages
  end.
Proof.
  induction pages as [|p pages IH]; simpl.
  - repeat split; constructor.
  - unfold transform at 1. destruct (properties p) as [pp|] eqn:Hp.
    + destruct (transform_all pages) as [rs|].
      * destruct IH as (Hall & Hid & Hn). simpl. repeat split.
        -- constructor; [congruence | exact Hall].
        -- by rewrite Hid.
        -- by constructor.
      * by apply Exists_cons_tl.
    + by apply Exists_cons_hd.
Qed.

(** Listing answers with one record per page, in the order of Notion, each
    carrying the page id both as its id and as its remote id; what a page
    leaves empty is filled with the defaults. One page without a [properties]
    object, however, makes the whole listing fail with status 500. *)
Theorem listing_gives_one_record_per_page :
  forall (cfg : Config) (req_body : option Body.t) (s : Z) (pages : list Page)
         (id : option string) (raw : Json),
    unset (NOTION_API_KEY cfg) || unset (NOTION_DATABASE_ID cfg) = false ->
    ok_status s = true ->
    let r := fst (handler cfg "GET" req_body (Answered s (JsonValue (Some pages) id raw))) in
    (Forall (fun p => properties p <> None) pages ->
       exists rs,
         r = mkProxyResponse 200 (ResolutionsBody rs)
         /\ Tracker.json_or_null (listed r) = Some rs
         /\ map Tracker.Resolution.id rs = map page_id pages
         /\ Forall (fun x => Tracker.Resolution.notionPageId x
                             = Some (Tracker.Resolution.id x)) rs)
    /\ (Exists (fun p => properties p = None) pages -> r = thrown)
    /\ (forall p, transform (mkPage p (Some no_properties))
                   = Some (Tracker.Resolution.mk p "Untitled" "Personal Growth" 0 0
                                                 "times" "weekly" 0 empty_str (Some p))).
Proof.
  intros cfg req_body s pages id raw Hc Hs r. subst r. unfold handler.
  rewrite Hc. simpl. rewrite Hs.
  pose proof (transform_all_spec pages) as Hspec.
  destruct (transform_all pages) as [rs|].
  - destruct Hspec as (Hall & Hid & Hn). split; [|split; [|reflexivity]].
    + intros _. exists rs. repeat split; assumption.
    + intros Hex. exfalso. rewrite Forall_forall in Hall.
      apply Exists_exists in Hex as (p & Hin & Hp). by apply (Hall p).
  - split; [|split; [|reflexivity]].
    + intros Hall. exfalso. rewrite Forall_forall in Hall.
      apply Exists_exists in Hspec as (p & Hin & Hp). by apply (Hall p).
    + intros _. reflexivity.
Qed.

(** ** Round trips through Notion *)

Lemma chain_text_or_truthy s d : str_truthy s = true -> chain_text_or (Some s) d = s.
Proof. intros H. simpl. by rewrite H. Qed.

(** What the component creates is what it lists afterwards, provided
    Notion gives back a property as it was written ([page_created]). A record
    whose title, category, unit and frequency are not empty, posted to the
    handler, is written to Notion with properties from which the GET branch
    builds the same record again, now with the page id as id and as remote
    id. *)
Theorem created_record_is_listed_as_it_was_posted :
  forall (cfg : Config) (r : Tracker.Resolution.t) (notion : NotionAnswer)
         (id : string),
    unset (NOTION_API_KEY cfg) || unset (NOTION_DATABASE_ID cfg) = false ->
    str_truthy (Tracker.Resolution.title r) = true ->
    str_truthy (Tracker.Resolution.category r) = true ->
    str_truthy (Tracker.Resolution.unit r) = true ->
    str_truthy (Tracker.Resolution.frequency r) = true ->
    exists database props,
      snd (handler cfg "POST" (Some (record_body r)) notion) = [CreatePage database props]
      /\ NOTION_DATABASE_ID cfg = Some database
      /\ transform (page_created id props)
         = Some (Tracker.Resolution.mk id
                   (Tracker.Resolution.title r) (Tracker.Resolution.category r)
                   (Tracker.Resolution.target r) (Tracker.Resolution.current r)
                   (Tracker.Resolution.unit r) (Tracker.Resolution.frequency r)
                   (Tracker.Resolution.streak r) (Tracker.Resolution.lastCheckin r)
                   (Some id)).
Proof.
  intros cfg r notion id Hc Ht Hcat Hu Hf.
  destruct (configured cfg Hc) as (key & db & Hk & Hdb & _ & _).
  exists db, (create_properties (record_body r)).
  split; [|split; [exact Hdb|]].
  - unfold handler. rewrite Hc. simpl. rewrite Ht. simpl. by rewrite Hdb.
  - unfold transform, page_created, create_properties, record_body. simpl.
    rewrite Ht, Hcat, Hu, Hf. simpl. rewrite Ht, Hcat, Hu, Hf.
    destruct (Tracker.Resolution.lastCheckin r) as [|c d] eqn:E; simpl; by rewrite ?E.
Qed.

(** What the component shows after a click is what a refresh gives once
    the update has reached Notion, provided Notion gives back a property as it
    was written ([page_updated]): the page of a listed record, rewritten with
    the properties of a progress update whose day is not empty, is listed as
    that record with the new [current] and [lastCheckin] and nothing else
    changed. *)
Theorem updated_page_is_listed_with_the_optimistic_values :
  forall (page : Page) (r : Tracker.Resolution.t) (u : Tracker.Updates.t),
    transform page = Some r ->
    str_truthy (Tracker.Updates.lastCheckin u) = true ->
    transform (page_updated page (patch_properties (updates_of u)))
    = Some (Tracker.Resolution.with_progress r (Tracker.Updates.current u)
                                             (Tracker.Updates.lastCheckin u)).
Proof.
  intros page r u Ht Hd. unfold transform in *.
  destruct page as [pid [pp|]]; simpl in *; [|discriminate].
  injection Ht as <-. rewrite Hd. simpl. rewrite Hd.
  reflexivity.
Qed.

End ProxyFacts.

(** * The component and the proxy together *)

Module EndToEnd.
Import Tracker TrackerFacts Creation TrackerMore.

#[local] Arguments fetchResolutions : simpl never.
#[local] Arguments updateProgress : simpl never.
#[local] Arguments addResolution : simpl never.
#[local] Arguments Proxy.handler : simpl never.

Lemma js_blank_truthy s : js_blank s = false -> str_truthy s = true.
Proof. by destruct s. Qed.

(** An online click, followed through the proxy to Notion. When the
    PATCH of the click is answered by the handler, Notion is asked to write, on
    the page of the record, the clamped counter and the day of the click and no
    other property; the status shown becomes [Synced] exactly when Notion
    answered with a success status and a JSON value, and [Error] otherwise. The
    queue is left alone either way. *)
Theorem online_click_reaches_notion_with_the_clamped_value :
  forall (cfg : Proxy.Config) (notion : Proxy.NotionAnswer) (exn : string)
         (w : World) (id : string) (increment : Z) (today : string) (now : Z)
         (resolution : Resolution.t) (pageId : string),
    Proxy.unset (Proxy.NOTION_API_KEY cfg) || Proxy.unset (Proxy.NOTION_DATABASE_ID cfg)
    = false ->
    find_resolution (resolutions (state w)) id = Some resolution ->
    Resolution.notionPageId resolution = Some pageId ->
    str_truthy pageId = true ->
    isOnline (state w) = true ->
    let newCurrent := Z.max 0 (Resolution.current resolution + increment) in
    let updates := Updates.mk newCurrent today in
    let answer := Proxy.handler cfg "PATCH" (Some (Proxy.patch_body pageId updates)) notion in
    patch_outcome (env w) (length (calls w)) = Proxy.seen exn (fst answer) ->
    let w' := exec (updateProgress (render (state w)) id increment today now) w in
    calls w' = (calls w ++ [PatchCall pageId updates])%list
    /\ snd answer
       = [ Proxy.UpdatePage pageId
             (Proxy.Properties.mk None None None (Some (Some newCurrent)) None None None
                                  (if str_truthy today then Some today else None)) ]
    /\ syncStatus (state w')
       = match notion with
         | Proxy.Answered s (Proxy.JsonValue _ _ _) =>
             if Proxy.ok_status s then Synced else Error
         | _ => Error
         end
    /\ pendingUpdates (state w') = pendingUpdates (state w).
Proof.
  intros cfg notion exn w id increment today now resolution pageId Hc Hf Hp Ht Ho
         newCurrent updates answer Hout w'.
  destruct (updateProgress_online (render (state w)) id increment today now w
              resolution pageId Hf Hp Ht Ho) as (Hcalls & Hq & Hs).
  fold newCurrent updates w' in Hcalls, Hq, Hs.
  split; [exact Hcalls|]. split; [|split; [|exact Hq]].
  - subst answer. by rewrite ProxyFacts.patch_request_sent.
  - rewrite Hs, Hout. subst answer.
    rewrite (ProxyFacts.patch_answer_truthy cfg pageId updates notion exn Hc Ht).
    destruct notion as [|s [| |results i raw]]; try reflexivity.
Qed.

(** A creation, followed through the proxy to Notion. A title the dialog
    accepts is a title the handler accepts, so the record always reaches
    Notion as one [CreatePage] request built from it; the status ends as
    [Synced] exactly when Notion answered with a success status and a page id
    that is not empty, and as [Error] otherwise. *)
Theorem online_creation_reaches_notion :
  forall (cfg : Proxy.Config) (notion : Proxy.NotionAnswer) (exn : string)
         (cl : Closure) (modal : Modal) (now : Z) (today : string) (w : World),
    Proxy.unset (Proxy.NOTION_API_KEY cfg) || Proxy.unset (Proxy.NOTION_DATABASE_ID cfg)
    = false ->
    js_blank (NewResolution.title (newResolution modal)) = false ->
    cl_isOnline cl = true ->
    let resolution := new_record (newResolution modal) now today in
    let answer := Proxy.handler cfg "POST" (Some (Proxy.record_body resolution)) notion in
    let res := run (addResolution cl modal now today (Proxy.seen exn (fst answer))) w in
    fst res = (mkModal false blank_form, [resolution])
    /\ snd answer
       = [ Proxy.CreatePage (default empty_str (Proxy.NOTION_DATABASE_ID cfg))
                            (Proxy.create_properties (Proxy.record_body resolution)) ]
    /\ syncStatus (state (snd res))
       = match notion with
         | Proxy.Answered s (Proxy.JsonValue _ (Some i) _) =>
             if Proxy.ok_status s && str_truthy i then Synced else Error
         | _ => Error
         end.
Proof.
  intros cfg notion exn cl modal now today w Hc Hb Ho resolution answer res.
  assert (Ht : str_truthy (Resolution.title resolution) = true).
  { apply js_blank_truthy. exact Hb. }
  pose proof (ProxyFacts.post_answer_id cfg resolution notion exn Hc Ht) as Hid.
  pose proof (ProxyFacts.post_request_sent cfg resolution notion Hc Ht) as Hreq.
  subst res answer.
  set (created := Proxy.seen exn
                    (fst (Proxy.handler cfg "POST"
                            (Some (Proxy.record_body resolution)) notion))) in *.
  split; [|split; [exact Hreq|]].
  - destruct (has_truthy_id (json_or_null created)) eqn:E.
    + by destruct (addResolution_created cl modal now today created w Hb Ho E) as (Hm & _).
    + by destruct (addResolution_failed cl modal now today created w Hb Ho E) as (Hm & _).
  - destruct (has_truthy_id (json_or_null created)) eqn:E.
    + destruct (addResolution_created cl modal now today created w Hb Ho E)
        as (_ & Hs & _).
      rewrite Hs.
      destruct notion as [|s [| |results [i|] raw]]; try discriminate Hid.
      by rewrite <- Hid.
    + destruct (addResolution_failed cl modal now today created w Hb Ho E)
        as (_ & _ & _ & _ & Hs).
      rewrite Hs.
      destruct notion as [|s [| |results [i|] raw]]; try reflexivity.
      by rewrite <- Hid.
Qed.

End EndToEnd.

(** * Runs of the service worker *)

Module ServiceWorkerMoreRuns.
Import ServiceWorker ServiceWorkerFacts Traffic ServiceWorkerMore.

(** The start page, cached at installation, is answered offline. *)
Lemma offline_cached_request_witness :
  exists s,
    fetch_listener sample_origin index_page Rejected installed_caches
    = (RespondedWith s (Some (mkResponse 200 "https://tracker.example/index.html" None)),
       installed_caches).
Proof.
  refine (proj2 (offline_cached_request_is_served_from_cache
                   sample_origin index_page
                   (mkResponse 200 "https://tracker.example/index.html" None)
                   installed_caches _) _); reflexivity.
Defined.

(** A 500 for a page leaves the caches of a first visit as they are. *)
Lemma error_response_witness :
  snd (fetch_listener sample_origin report_page (Resolved server_error) installed_caches)
  = installed_caches.
Proof.
  refine (proj1 (proj2 (error_response_is_never_cached
                          sample_origin report_page server_error installed_caches _))).
  reflexivity.
Defined.

(** A script fetched once is served from the static generation although
    the network has gone. *)
Lemma cacheFirst_witness :
  let first := cacheFirst vendor_script (Resolved (version 1)) installed_caches in
  cacheFirst vendor_script Rejected (snd first) = (Some (version 1), snd first).
Proof.
  refine (proj2 (cacheFirst_keeps_first_response vendor_script (version 1)
                   installed_caches _ _) vendor_script Rejected _); reflexivity.
Defined.

(** A page fetched in two versions: the second is the offline copy. *)
Lemma networkFirst_witness :
  let cs1 := snd (networkFirst sample_origin report_page (Resolved (version 1))
                               installed_caches) in
  let cs2 := snd (networkFirst sample_origin report_page (Resolved (version 2)) cs1) in
  networkFirst sample_origin report_page Rejected cs2 = (Some (version 2), cs2).
Proof.
  refine (proj2 (networkFirst_falls_back_to_latest sample_origin report_page
                   (version 1) (version 2) installed_caches _ _ _)); reflexivity.
Defined.

(** Three visits of a data URL under the default strategy, the last one
    offline. *)
Lemma staleWhileRevalidate_witness :
  fst (revisit report_data [Resolved (version 1); Resolved (version 2); Rejected]
               installed_caches)
  = [Some (version 1); Some (version 2); None].
Proof.
  refine (proj1 (proj1 (staleWhileRevalidate_never_caches_a_new_url
                          report_data installed_caches) _
                       [Resolved (version 1); Resolved (version 2); Rejected])).
  reflexivity.
Defined.

(** The manifest after a first visit on a network that serves everything. *)
Lemma manifest_witness :
  exists s r,
    serve_all (absolute sample_origin "/index.html") = Resolved r
    /\ ok r = true
    /\ fetch_listener sample_origin index_page Rejected
         (snd (first_visit sample_origin serve_all))
       = (RespondedWith s (Some r), snd (first_visit sample_origin serve_all)).
Proof.
  refine (manifest_is_served_offline_after_first_visit sample_origin serve_all
            index_page "/index.html" _ _ _ _);
    try reflexivity.
  right. left. reflexivity.
Defined.

(** Three queued updates, the third rejected: it stays. *)
Lemma interrupted_sync_witness :
  syncResolutions (Some three_queued) third_rejected
  = (Some [SyncRecord.mk 3 "third"], SyncRetry).
Proof.
  refine (interrupted_sync_keeps_the_unsent_updates three_queued third_rejected 2 _ _ _ _).
  - apply (bool_decide_unpack _). vm_compute. exact I.
  - simpl. lia.
  - reflexivity.
  - intros j Hj. destruct j as [|[|j]]; [discriminate | discriminate | lia].
Defined.

End ServiceWorkerMoreRuns.

(** * Runs of the component: creation, sessions, statistics *)

Module TrackerMoreRuns.
Import Tracker TrackerFacts Creation TrackerMore.

(** A creation while the proxy cannot be reached. *)
Lemma failed_creation_witness :
  syncStatus (state (snd (run (addResolution (render (state (online_world env_unreachable)))
                                             open_modal 1767225600000 "2026-01-01"
                                             NetworkError)
                              (online_world env_unreachable))))
  = Error.
Proof.
  refine (proj2 (proj2 (proj2 (proj2
            (failed_creation_keeps_the_record_local
               (render (state (online_world env_unreachable))) open_modal
               1767225600000 "2026-01-01" NetworkError
               (online_world env_unreachable) _ _ _))))); reflexivity.
Defined.

(** A creation the proxy confirms, followed by a refresh that lists one
    record. *)
Lemma confirmed_creation_witness :
  let res := run (addResolution (render (state (online_world env_lists_one)))
                                open_modal 1767225600000 "2026-01-01" created_ok)
                 (online_world env_lists_one) in
  syncStatus (state (snd res)) = Synced
  /\ resolutions (state (snd res)) = [sample_record].
Proof.
  pose proof (confirmed_creation_ends_synced_whatever_the_refresh
                (render (state (online_world env_lists_one))) open_modal
                1767225600000 "2026-01-01" created_ok (online_world env_lists_one)
                eq_refl eq_refl eq_refl) as (_ & Hs & _ & Hd & _).
  split; [exact Hs | exact (Hd eq_refl)].
Defined.

(** A click on a demo record. *)
Lemma local_record_witness :
  let w' := exec (updateProgress (render (state demo_world)) "demo-1" 1 "2026-02-01" 1000)
                 demo_world in
  calls w' = [] /\ pendingUpdates (state w') = [] /\ syncStatus (state w') = Demo.
Proof.
  refine (proj2 (local_record_is_mutated_locally_only
                   demo_world "demo-1" 1 "2026-02-01" 1000
                   (Resolution.mk "demo-1" "Read 24 books" "Personal Growth" 24 3 "books"
                                  "yearly" 12 "2026-01-05" None) _ _)); reflexivity.
Defined.

(** Two offline clicks, one up and one down, on a cached record. *)
Lemma offline_clicks_witness :
  let a := mount env_patch_ok sample_storage false in
  calls (world (steps a (map (click "res-1") up_and_down))) = calls (world a).
Proof.
  refine (proj1 (offline_clicks_queue_the_running_values
                   up_and_down (mount env_patch_ok sample_storage false) "res-1"
                   sample_record "page-1" _ _ _ _)); reflexivity.
Defined.

(** A session of four events over two cached records. *)
Lemma records_never_vanish_witness :
  resolutions (state (world (steps (mount env_unreachable sample_storage false)
                                   [ ProgressClick "res-1" 1 "2026-02-01" 1000;
                                     RefreshClick; WindowOnline; WindowOffline ])))
  <> [].
Proof.
  refine (records_never_vanish _ (mount env_unreachable sample_storage false) _).
  vm_compute. discriminate.
Defined.

(** The demo data: one record has reached its target. *)
Lemma completed_witness :
  completedCount getDemoData
  = length (List.filter (fun r => Resolution.target r <=? Resolution.current r) getDemoData).
Proof.
  refine (proj1 (completed_means_target_reached getDemoData _)).
  repeat constructor.
Defined.

(** An offline session of two clicks, then the application is opened
    again. *)
Lemma reload_witness :
  let before := world (steps (mount env_patch_ok sample_storage false)
                             (map (click "res-1") up_and_down)) in
  let after := world (mount env_unreachable (localStorage before) false) in
  pendingUpdates (state after) = pendingUpdates (state before).
Proof.
  refine (proj1 (reload_restores_the_session env_patch_ok sample_storage false
                   (map (click "res-1") up_and_down) env_unreachable _)).
  reflexivity.
Defined.

(** Two stored updates and a proxy that accepts every PATCH. *)
Lemma stored_queue_witness :
  let w := world (step (mount env_patch_ok storage_with_queue false) WindowOnline) in
  calls w = map patch_call stored_queue /\ pendingUpdates (state w) = [].
Proof.
  pose proof (stored_queue_is_replayed_when_connectivity_returns
                env_patch_ok storage_with_queue stored_queue) as H.
  destruct H as (Hc & Hq & _).
  - reflexivity.
  - discriminate.
  - intros i _. reflexivity.
  - split; [exact Hc | exact Hq].
Defined.

End TrackerMoreRuns.

(** * Runs of the proxy, alone and behind the component *)

Module ProxyRuns.
Import Proxy ProxyFacts.

(** A PATCH whose [updates] is the number 5: no property is built, the
    page is updated with none, and the component is told of a success. *)
Lemma primitive_updates_witness :
  snd (handler sample_config "PATCH" (Some primitive_updates_body) notion_accepts)
  = [UpdatePage "page-1" (Properties.mk None None None None None None None None)].
Proof.
  pose proof (proj2 (proj2 (proj2 (invalid_requests_never_reach_notion
                                     sample_config "PATCH" (Some primitive_updates_body)
                                     notion_accepts))) eq_refl)
    as (_ & _ & _ & _ & Hsent & _).
  exact (Hsent primitive_updates_body no_fields eq_refl eq_refl eq_refl eq_refl).
Defined.

(** The same PATCH, as [notionService.updateResolution] reads its answer. *)
Lemma primitive_updates_confirmed_witness :
  Tracker.result_truthy
    (Tracker.json_or_null
       (seen "fetch failed"
             (fst (handler sample_config "PATCH" (Some primitive_updates_body)
                           notion_accepts))))
  = true.
Proof.
  apply (proj2 (update_is_confirmed_iff_notion_accepted
                  sample_config (Some primitive_updates_body) notion_accepts
                  "fetch failed")).
  split; [reflexivity|]. split.
  - exists primitive_updates_body, no_fields. repeat split; reflexivity.
  - exists 200, None, (Some "page-1"), (JObj [("object", JStr "page")]).
    split; reflexivity.
Defined.

(** A database of two pages, one of them with nothing filled in. *)
Lemma listing_witness :
  exists rs,
    fst (handler sample_config "GET" None
                 (Answered 200 (JsonValue (Some [sample_page; bare_page]) None JNull)))
    = mkProxyResponse 200 (ResolutionsBody rs)
    /\ map Tracker.Resolution.id rs = ["page-1"; "page-2"].
Proof.
  destruct (proj1 (listing_gives_one_record_per_page
                     sample_config None 200 [sample_page; bare_page] None JNull
                     eq_refl eq_refl)) as (rs & Hr & _ & Hid & _).
  - repeat constructor; discriminate.
  - exists rs. split; [exact Hr | exact Hid].
Defined.

(** The record of the sample form, created under the page id [page-9]. *)
Lemma created_record_witness :
  exists database props,
    snd (handler sample_config "POST" (Some (record_body sample_created)) notion_accepts)
    = [CreatePage database props]
    /\ NOTION_DATABASE_ID sample_config = Some database
    /\ transform (page_created "page-9" props)
       = Some (Tracker.Resolution.mk "page-9" "Call home" "Relationships" 2 0 "calls"
                                     "weekly" 0 "2026-01-01" (Some "page-9")).
Proof.
  refine (created_record_is_listed_as_it_was_posted
            sample_config sample_created notion_accepts "page-9" _ _ _ _ _);
    reflexivity.
Defined.

(** The sample page after the update of a click. *)
Lemma updated_page_witness :
  transform (page_updated sample_page (patch_properties (updates_of clicked_update)))
  = Some (Tracker.Resolution.mk "page-1" "Run 4x per week" "Health" 4 4 "sessions"
                                "weekly" 2 "2026-02-01" (Some "page-1")).
Proof.
  refine (updated_page_is_listed_with_the_optimistic_values
            sample_page
            (Tracker.Resolution.mk "page-1" "Run 4x per week" "Health" 4 3 "sessions"
                                   "weekly" 2 "2026-01-05" (Some "page-1"))
            clicked_update _ _); reflexivity.
Defined.

End ProxyRuns.

Module EndToEndRuns.
Import Tracker Creation EndToEnd.

(** A click on + of the first sample record, with Notion accepting and
    with Notion refusing. *)
Lemma online_click_witness :
  syncStatus (state (exec (updateProgress
                             (render (state (online_world (Proxy.env_behind_proxy
                                                             Proxy.notion_accepts))))
                             "res-1" 1 "2026-02-01" 1000)
                          (online_world (Proxy.env_behind_proxy Proxy.notion_accepts))))
  = Synced
  /\ syncStatus (state (exec (updateProgress
                                (render (state (online_world (Proxy.env_behind_proxy
                                                                Proxy.notion_refuses))))
                                "res-1" 1 "2026-02-01" 1000)
                             (online_world (Proxy.env_behind_proxy Proxy.notion_refuses))))
     = Error.
Proof.
  split.
  - refine (proj1 (proj2 (proj2
              (online_click_reaches_notion_with_the_clamped_value
                 Proxy.sample_config Proxy.notion_accepts "fetch failed"
                 (online_world (Proxy.env_behind_proxy Proxy.notion_accepts))
                 "res-1" 1 "2026-02-01" 1000 sample_record "page-1" _ _ _ _ _ _))));
      reflexivity.
  - refine (proj1 (proj2 (proj2
              (online_click_reaches_notion_with_the_clamped_value
                 Proxy.sample_config Proxy.notion_refuses "fetch failed"
                 (online_world (Proxy.env_behind_proxy Proxy.notion_refuses))
                 "res-1" 1 "2026-02-01" 1000 sample_record "page-1" _ _ _ _ _ _))));
      reflexivity.
Defined.

(** The sample form, submitted online, with Notion accepting. *)
Lemma online_creation_witness :
  syncStatus
    (state (snd (run (addResolution
                        (render (state (online_world env_lists_one))) open_modal
                        1767225600000 "2026-01-01"
                        (Proxy.seen "fetch failed"
                           (fst (Proxy.handler Proxy.sample_config "POST"
                                   (Some (Proxy.record_body Proxy.sample_created))
                                   Proxy.notion_accepts))))
                     (online_world env_lists_one))))
  = Synced.
Proof.
  refine (proj2 (proj2
            (online_creation_reaches_notion
               Proxy.sample_config Proxy.notion_accepts "fetch failed"
               (render (state (online_world env_lists_one))) open_modal
               1767225600000 "2026-01-01" (online_world env_lists_one) _ _ _)));
    reflexivity.
Defined.

End EndToEndRuns.
